(** * Data-labeller agent: batch orchestration, label repair, coverage
      enhancement, reasoning backfill, CSV export and session storage.

    A shallow embedding of the TypeScript sources

      - [src/lib/labelingAgent.ts]      (module [LabelingAgent])
      - [src/api/labelingApi.ts]        (module [LabelingApi])
      - [src/hooks/useLabelingService.ts] (module [UseLabelingService])
      - [src/lib/dataStorage.ts]        (module [DataStorage])
      - [src/components/data-labeler/IntentCapture.tsx] (module [IntentCapture])
      - [src/components/data-labeler/DataUploader.tsx]  (module [DataUploader])
      - [src/hooks/useDataStorage.ts]                   (module [UseDataStorage])
      - [src/components/data-labeler/DataLabeler.tsx]   (module [DataLabeler])
      - [src/components/data-labeler/ProjectViewer.tsx] (module [ProjectViewer])
      - [src/components/data-labeler/DataReview.tsx]    (module [DataReview])

    together with the properties their specification states about them.

    Conventions of the embedding.
      - A JavaScript string is a [string]; characters are read as ASCII, so
        [trim] strips the ASCII white space characters and [toLowerCase]
        folds [A-Z] only.
      - A JavaScript number is a [Z]: the confidence scores exchanged with the
        model are integers in JSON.
      - A [try { ... } catch] block is a computation in the [completion]
        monad followed by a [match] on its outcome.
      - The inference backend is an oracle: what the k-th call answers is a
        parameter of every run.  Clocks are parameters as well. *)

From Stdlib Require Import ZArith String Ascii DecimalString DecimalZ.
From stdpp Require Import base option list gmap strings sorting.

Local Open Scope string_scope.
Local Open Scope list_scope.
Local Open Scope nat_scope.

(* ================================================================== *)
(** * JavaScript values, strings and exceptions *)
(* ================================================================== *)

Module JS.

(** ** Strings *)

(** The double quote character, for template literals that contain it. *)
Definition dquote : string := String (ascii_of_nat 34) EmptyString.

(** Line feed, the separator of CSV rows. *)
Definition LF : ascii := ascii_of_nat 10.

(** White space as [String.prototype.trim] sees it (ASCII part):
    TAB, LF, VT, FF, CR and SPACE. *)
Definition is_white_space (c : ascii) : bool :=
  let n := nat_of_ascii c in
  (Nat.leb 9 n && Nat.leb n 13) || Nat.eqb n 32.

Fixpoint trimStart (s : string) : string :=
  match s with
  | EmptyString => EmptyString
  | String c s' => if is_white_space c then trimStart s' else s
  end.

Fixpoint trimEnd (s : string) : string :=
  match s with
  | EmptyString => EmptyString
  | String c s' =>
      match trimEnd s' with
      | EmptyString =>
          if is_white_space c then EmptyString else String c EmptyString
      | r => String c r
      end
  end.

(** [s.trim()] *)
Definition trim (s : string) : string := trimEnd (trimStart s).

(** [s.split(sep)] for a one-character separator: never empty, the empty
    string splits into one empty part. *)
Fixpoint split (sep : ascii) (s : string) : list string :=
  match s with
  | EmptyString => [EmptyString]
  | String c s' =>
      if Ascii.eqb c sep then EmptyString :: split sep s'
      else match split sep s' with
           | part :: parts => String c part :: parts
           | [] => [String c EmptyString]
           end
  end.

Definition colon : ascii := ":"%char.

Definition lower_char (c : ascii) : ascii :=
  let n := nat_of_ascii c in
  if Nat.leb 65 n && Nat.leb n 90 then ascii_of_nat (n + 32) else c.

(** [s.toLowerCase()] *)
Fixpoint toLowerCase (s : string) : string :=
  match s with
  | EmptyString => EmptyString
  | String c s' => String (lower_char c) (toLowerCase s')
  end.

(** [hay.includes(needle)] *)
Fixpoint includes (hay needle : string) : bool :=
  String.prefix needle hay
  || match hay with
     | EmptyString => false
     | String _ hay' => includes hay' needle
     end.

(** [parts.join(sep)] *)
Fixpoint join (sep : string) (parts : list string) : string :=
  match parts with
  | [] => EmptyString
  | [p] => p
  | p :: rest => p +:+ sep +:+ join sep rest
  end.

(** [s.replace(/c/g, by)]: every occurrence of one character. *)
Fixpoint replaceAll (c : ascii) (by_ : string) (s : string) : string :=
  match s with
  | EmptyString => EmptyString
  | String d s' =>
      if Ascii.eqb d c then by_ +:+ replaceAll c by_ s'
      else String d (replaceAll c by_ s')
  end.

(** Decimal rendering of an integer number, as [String(n)] gives it. *)
Definition number_to_string (n : Z) : string :=
  NilZero.string_of_int (Z.to_int n).

(** ** JSON values, as [JSON.parse] produces them

    The fields of an object are its own properties, each key once. *)

#[warnings="-register-all"]
Inductive json : Type :=
| JNull
| JBool (b : bool)
| JNum (n : Z)
| JStr (s : string)
| JArr (elems : list json)
| JObj (fields : list (string * json)).

(** A JavaScript value read from parsed JSON: [None] is [undefined]. *)
Definition value : Type := option json.

(** ToBoolean *)
Definition truthy (v : value) : bool :=
  match v with
  | None | Some JNull => false
  | Some (JBool b) => b
  | Some (JNum n) => negb (Z.eqb n 0)
  | Some (JStr s) => negb (String.eqb s EmptyString)
  | Some (JArr _) | Some (JObj _) => true
  end.

Fixpoint assoc (k : string) (fields : list (string * json)) : value :=
  match fields with
  | [] => None
  | (k', v) :: rest => if String.eqb k k' then Some v else assoc k rest
  end.

(** [v.k] for a non-null [v] and a key [k] that no prototype defines
    (here: label, confidence, reasoning, uncertainty_explanation):
    an own property of an object, [undefined] on anything else. *)
Definition get_prop (v : json) (k : string) : value :=
  match v with
  | JObj fields => assoc k fields
  | _ => None
  end.

(** ToString, as a template literal applies it. *)
Fixpoint json_to_string (v : json) : string :=
  match v with
  | JNull => "null"
  | JBool true => "true"
  | JBool false => "false"
  | JNum n => number_to_string n
  | JStr s => s
  | JArr elems =>
      join ","
        (List.map (fun e => match e with
                            | JNull => EmptyString
                            | _ => json_to_string e
                            end) elems)
  | JObj _ => "[object Object]"
  end.

Definition to_string (v : value) : string :=
  match v with
  | None => "undefined"
  | Some j => json_to_string j
  end.

(** ** Exceptions *)

(** What a [catch (error)] clause receives: an [Error] object (of any
    subclass) with its message, or some other thrown value. *)
Inductive thrown : Type :=
| ErrorObject (message : string)
| OtherValue.

(** [error instanceof Error ? error.message : "Unknown error"] *)
Definition errorMessage (e : thrown) : string :=
  match e with
  | ErrorObject m => m
  | OtherValue => "Unknown error"
  end.

(** The outcome of evaluating a block: a value, or an exception. *)
Inductive completion (A : Type) : Type :=
| Return (a : A)
| Throw (e : thrown).
Arguments Return {A} a.
Arguments Throw {A} e.

#[global] Instance completion_ret : MRet completion := @Return.
#[global] Instance completion_bind : MBind completion :=
  fun A B k m => match m with
                 | Return a => k a
                 | Throw e => Throw e
                 end.

(** ** Property enumeration order *)

Definition digit_of (c : ascii) : option N :=
  let n := nat_of_ascii c in
  if Nat.leb 48 n && Nat.leb n 57 then Some (N.of_nat (n - 48)) else None.

Fixpoint digits_value (acc : N) (s : string) : option N :=
  match s with
  | EmptyString => Some acc
  | String c s' =>
      match digit_of c with
      | Some d => digits_value (10 * acc + d) s'
      | None => None
      end
  end.

(** A property key is an array index when it is the canonical decimal
    form of an integer below 2^32 - 1. *)
Definition array_index (k : string) : option N :=
  match k with
  | EmptyString => None
  | String c rest =>
      if Ascii.eqb c "0"%char && negb (String.eqb rest EmptyString) then None
      else match digits_value 0 k with
           | Some n => if (n <? 4294967295)%N then Some n else None
           | None => None
           end
  end.

(** Names every plain object inherits from [Object.prototype]. *)
Definition object_prototype_keys : list string :=
  [ "constructor"; "__defineGetter__"; "__defineSetter__"; "hasOwnProperty";
    "__lookupGetter__"; "__lookupSetter__"; "isPrototypeOf";
    "propertyIsEnumerable"; "toString"; "valueOf"; "__proto__";
    "toLocaleString" ].

Definition inherited_key (k : string) : bool :=
  bool_decide (k ∈ object_prototype_keys).

(** ** More of [String.prototype] *)

(** ToBoolean of a string. *)
Definition nonEmpty (s : string) : bool := negb (String.eqb s EmptyString).

Definition CR : ascii := ascii_of_nat 13.

(** A line terminator, as [^] and [.] see it in a pattern (ASCII part). *)
Definition is_line_terminator (c : ascii) : bool :=
  Ascii.eqb c LF || Ascii.eqb c CR.

(** [s.startsWith(p)] *)
Definition startsWith (s p : string) : bool := String.prefix p s.

(** [s.endsWith(suffix)] *)
Fixpoint endsWith (s suffix : string) : bool :=
  String.eqb s suffix
  || match s with
     | EmptyString => false
     | String _ s' => endsWith s' suffix
     end.

Definition upper_char (c : ascii) : ascii :=
  let n := nat_of_ascii c in
  if Nat.leb 97 n && Nat.leb n 122 then ascii_of_nat (n - 32) else c.

(** [s.toUpperCase()] *)
Fixpoint toUpperCase (s : string) : string :=
  match s with
  | EmptyString => EmptyString
  | String c s' => String (upper_char c) (toUpperCase s')
  end.

(** [s.substring(n)] *)
Fixpoint substring_from (n : nat) (s : string) : string :=
  match n, s with
  | 0, _ => s
  | S n', String _ s' => substring_from n' s'
  | S _, EmptyString => EmptyString
  end.

(** [s.replace(pattern, by)] for a string pattern and a replacement
    without [$]: the first occurrence. *)
Fixpoint replaceFirst (pattern by_ s : string) : string :=
  if String.prefix pattern s
  then by_ +:+ substring_from (String.length pattern) s
  else match s with
       | EmptyString => EmptyString
       | String c s' => String c (replaceFirst pattern by_ s')
       end.

(** The character [c] in front of the first part. *)
Definition cons_head (c : ascii) (parts : list string) : list string :=
  match parts with
  | part :: parts' => String c part :: parts'
  | [] => [String c EmptyString]
  end.

(** [s.split(/\r?\n/)]: a line feed separates, together with the
    carriage return right before it. *)
Fixpoint split_lines (s : string) : list string :=
  match s with
  | EmptyString => [EmptyString]
  | String c s' =>
      if Ascii.eqb c LF then EmptyString :: split_lines s'
      else match s' with
           | String c' s'' =>
               if Ascii.eqb c CR && Ascii.eqb c' LF
               then EmptyString :: split_lines s''
               else cons_head c (split_lines s')
           | EmptyString => cons_head c (split_lines s')
           end
  end.

Fixpoint hashes (n : nat) : string :=
  match n with
  | 0 => EmptyString
  | S n' => String "#"%char (hashes n')
  end.

(** The length of the white space at the start of [s]: what [\s+]
    takes. *)
Fixpoint white_space_run (s : string) : nat :=
  match s with
  | EmptyString => 0
  | String c s' => if is_white_space c then S (white_space_run s') else 0
  end.

(** [#{n}\s+] matches at the start of [s]. *)
Definition heading_at (n : nat) (s : string) : bool :=
  String.prefix (hashes n) s && Nat.ltb 0 (white_space_run (substring_from n s)).

(** [s.split(/^#{n}\s+/m)], from a position on: [skip] characters of
    the current match remain, [bol] says that the position is the start
    of the text or follows a line terminator. *)
Fixpoint split_heading_from (n skip : nat) (bol : bool) (s : string) : list string :=
  match s with
  | EmptyString => [EmptyString]
  | String c s' =>
      match skip with
      | S skip' => split_heading_from n skip' (is_line_terminator c) s'
      | 0 =>
          if bol && heading_at n s
          then EmptyString
               :: split_heading_from n
                    (n + white_space_run (substring_from n s) - 1)
                    (is_line_terminator c) s'
          else cons_head c (split_heading_from n 0 (is_line_terminator c) s')
      end
  end.

Definition split_heading (n : nat) (s : string) : list string :=
  split_heading_from n 0 true s.

End JS.

Import JS.

(* ================================================================== *)
(** * src/lib/labelingAgent.ts *)
(* ================================================================== *)

Module LabelingAgent.

Record LabelingIntent : Type := {
  datasetDescription : string;
  labelCategories : list string;
  guidelines : string
}.

Record DataItem : Type := {
  text : string;
  id : string
}.

(** [needsLLMReasoning] is the extra property the coverage enhancer of
    [useLabelingService.ts] attaches; [false] stands for its absence. *)
Record LabelResult : Type := {
  itemId : string;
  label : string;
  confidence : Z;
  reasoning : string;
  uncertaintyExplanation : value;
  needsReview : bool;
  needsLLMReasoning : bool
}.

Record BatchLabelingResult : Type := {
  results : list LabelResult;
  completedAt : string;
  processingTimeMs : Z;
  totalItems : nat;
  reviewNeeded : nat
}.

(** What one inference round trip yields once the response text has gone
    through [match] and [JSON.parse]. *)
Inductive aiReply (A : Type) : Type :=
| Rejected (e : thrown)
    (** [env.AI.run] rejects, [response.response] is not a string, or
        [JSON.parse] throws *)
| NoMatch
    (** the pattern finds nothing in the response text *)
| Parsed (v : A).
Arguments Rejected {A} e.
Arguments NoMatch {A}.
Arguments Parsed {A} v.

(** The inference backend.  [single_reply k] and [batch_reply k] are what
    the call number [k] of a run (counting from 0) leads to when it is
    issued by the single-item path (pattern [{...}], hence an object) or
    by the batch path (pattern [[...]], hence an array). *)
Record AI : Type := {
  single_reply : nat → aiReply (list (string * json));
  batch_reply : nat → aiReply (list json)
}.

(** Lines 65-81 and 186-203 (the same block in both functions), from the
    value of [result.label || ""] on.  The block reads the identifier
    [labelCategories]; [categories] is the outcome of evaluating it. *)
Definition repairWith (categories : completion (list string)) (label : string)
    : completion string :=
  let labelParts := List.map trim (split colon label) in
  if Nat.eqb (length labelParts) 2
     && String.eqb (nth 0 labelParts EmptyString) (nth 1 labelParts EmptyString)
  then
    cats ← categories;
    match List.find (fun cat =>
                       includes (toLowerCase cat)
                                (toLowerCase (nth 0 labelParts EmptyString)))
                    cats with
    | Some matchingCategory =>
        if truthy (Some (JStr matchingCategory)) then
          let categoryName := trim (nth 0 (split colon matchingCategory) EmptyString) in
          mret (categoryName +:+ ": " +:+ nth 1 labelParts EmptyString)
        else mret label
    | None => mret label
    end
  else mret label.

(** No parameter ([item]/[items], [intent], [env], [batchSize]), local or
    import of the module binds the name [labelCategories] (the categories
    are [intent.labelCategories]), and nothing defines it as a global:
    evaluating it throws a ReferenceError. *)
Definition labelCategories_identifier : completion (list string) :=
  Throw (ErrorObject "labelCategories is not defined").

(** The repair block as it runs. *)
Definition fixLabelFormat (label : string) : completion string :=
  repairWith labelCategories_identifier label.

(** [let label = result.label || ""] followed by the repair block;
    [label.split] exists on strings only. *)
Definition validatedLabel (result : json) : completion string :=
  let raw := get_prop result "label" in
  label ← (if truthy raw then
             match raw with
             | Some (JStr s) => mret s
             | _ => Throw (ErrorObject "label.split is not a function")
             end
           else mret EmptyString);
  fixLabelFormat label.

(** [typeof result.confidence === "number" ? result.confidence : 75] *)
Definition confidenceOrDefault (result : json) : Z :=
  match get_prop result "confidence" with
  | Some (JNum n) => n
  | _ => 75%Z
  end.

Definition defaultReasoning (result : json) : string :=
  "This item was classified as " +:+ dquote
    +:+ to_string (get_prop result "label") +:+ dquote
    +:+ " based on the content and the provided labeling guidelines.".

(** [let reasoning = result.reasoning; if (!reasoning ||
    reasoning.trim().length === 0) reasoning = `...`] *)
Definition validReasoning (result : json) : completion string :=
  let reasoning := get_prop result "reasoning" in
  if negb (truthy reasoning) then mret (defaultReasoning result)
  else match reasoning with
       | Some (JStr s) =>
           if Nat.eqb (String.length (trim s)) 0
           then mret (defaultReasoning result)
           else mret s
       | _ => Throw (ErrorObject "reasoning.trim is not a function")
       end.

Definition errorLabel : string := "Error: Needs Manual Review".

(** The [catch] clause of [labelDataItem]. *)
Definition itemErrorResult (item : DataItem) (error : thrown) : LabelResult :=
  {| itemId := id item;
     label := errorLabel;
     confidence := 0;
     reasoning :=
       "The AI model encountered an error while processing this item. Error details: "
         +:+ errorMessage error +:+ ". Please assign a label manually.";
     uncertaintyExplanation :=
       Some (JStr "This item requires manual labeling due to processing errors.");
     needsReview := true;
     needsLLMReasoning := false |}.

(** The [try] block of [labelDataItem]. *)
Definition labelDataItem_try (item : DataItem) (intent : LabelingIntent)
    (reply : aiReply (list (string * json))) : completion LabelResult :=
  result ← match reply with
           | Rejected e => Throw e
           | NoMatch => Throw (ErrorObject "Failed to parse AI response")
           | Parsed fields => mret (JObj fields)
           end;
  label ← validatedLabel result;
  let confidence := confidenceOrDefault result in
  let needsReview := (confidence <? 70)%Z in
  reasoning ← validReasoning result;
  mret {| itemId := id item;
          label := label;
          confidence := confidence;
          reasoning := reasoning;
          uncertaintyExplanation := get_prop result "uncertainty_explanation";
          needsReview := needsReview;
          needsLLMReasoning := false |}.

Definition labelDataItem (item : DataItem) (intent : LabelingIntent)
    (reply : aiReply (list (string * json))) : LabelResult :=
  match labelDataItem_try item intent reply with
  | Return r => r
  | Throw error => itemErrorResult item error
  end.

(** The body of the [batch.forEach] callback for a truthy [result]. *)
Definition batchItemResult (item : DataItem) (result : json)
    : completion LabelResult :=
  reasoning ← validReasoning result;
  let confidence := confidenceOrDefault result in
  label ← validatedLabel result;
  mret {| itemId := id item;
          label := label;
          confidence := confidence;
          reasoning := reasoning;
          uncertaintyExplanation := get_prop result "uncertainty_explanation";
          needsReview := (confidence <? 70)%Z;
          needsLLMReasoning := false |}.

(** [batch.forEach((item, index) => ...)] over the parsed array: the
    results pushed so far, and the exception that ended the loop if one
    was thrown. *)
Fixpoint mapBatchResults (batchResults : list json) (batch : list DataItem)
    (index : nat) (acc : list LabelResult)
    : list LabelResult * option thrown :=
  match batch with
  | [] => (acc, None)
  | item :: rest =>
      let result : value := batchResults !! index in
      if negb (truthy result) then
        mapBatchResults batchResults rest (S index) acc
      else
        match result with
        | Some r =>
            match batchItemResult item r with
            | Return res =>
                mapBatchResults batchResults rest (S index) (acc ++ [res])
            | Throw e => (acc, Some e)
            end
        | None => mapBatchResults batchResults rest (S index) acc
        end
  end.

(** The [catch] clause of the batch loop, for one item. *)
Definition batchErrorResult (error : thrown) (item : DataItem) : LabelResult :=
  {| itemId := id item;
     label := errorLabel;
     confidence := 0;
     reasoning :=
       "The AI model encountered an error while processing this batch of items. Error details: "
         +:+ errorMessage error +:+ ". Please assign a label manually.";
     uncertaintyExplanation :=
       Some (JStr "This item requires manual labeling due to batch processing errors.");
     needsReview := true;
     needsLLMReasoning := false |}.

(** The state the loop over the batches threads: the [results] array and
    the number of inference calls issued so far. *)
Record runState : Type := {
  pushed : list LabelResult;
  aiCalls : nat
}.

(** The [try] block of the batch path, from the inference call on. *)
Definition batchPath_try (ai : AI) (batch : list DataItem) (st : runState)
    : list LabelResult * option thrown :=
  match batch_reply ai (aiCalls st) with
  | Rejected e => (pushed st, Some e)
  | NoMatch => (pushed st, Some (ErrorObject "Failed to parse AI batch response"))
  | Parsed batchResults => mapBatchResults batchResults batch 0 (pushed st)
  end.

(** One iteration of [for (const batch of batches)]. *)
Definition processBatch (ai : AI) (intent : LabelingIntent)
    (st : runState) (batch : list DataItem) : runState :=
  match batch with
  | [item] =>
      {| pushed := pushed st ++ [labelDataItem item intent (single_reply ai (aiCalls st))];
         aiCalls := S (aiCalls st) |}
  | _ =>
      match batchPath_try ai batch st with
      | (res, None) => {| pushed := res; aiCalls := S (aiCalls st) |}
      | (res, Some error) =>
          {| pushed := res ++ List.map (batchErrorResult error) batch;
             aiCalls := S (aiCalls st) |}
      end
  end.

(** [for (let i = 0; i < items.length; i += batchSize)
      batches.push(items.slice(i, i + batchSize))].
    The loop does not end when [batchSize] is 0 and there are items:
    [None] is that case, [fuel] bounds the iterations. *)
Fixpoint splitIntoBatches (fuel : nat) (items : list DataItem)
    (batchSize i : nat) : option (list (list DataItem)) :=
  if Nat.ltb i (length items) then
    match fuel with
    | O => None
    | S fuel' =>
        cons (take batchSize (drop i items))
          <$> splitIntoBatches fuel' items batchSize (i + batchSize)
    end
  else Some [].

(** [Date.now()] at the start and at the end of a run, and
    [new Date().toISOString()] at its end. *)
Record Clock : Type := {
  startTime : Z;
  endTime : Z;
  endTimeISO : string
}.

Definition initialState : runState := {| pushed := []; aiCalls := 0 |}.

(** The two loops of [labelDataBatch]. *)
Definition labelDataBatch_run (items : list DataItem) (intent : LabelingIntent)
    (ai : AI) (batchSize : nat) : option runState :=
  batches ← splitIntoBatches (length items) items batchSize 0;
  Some (fold_left (processBatch ai intent) batches initialState).

Definition labelDataBatch (items : list DataItem) (intent : LabelingIntent)
    (ai : AI) (batchSize : nat) (clock : Clock) : option BatchLabelingResult :=
  st ← labelDataBatch_run items intent ai batchSize;
  Some {| results := pushed st;
          completedAt := endTimeISO clock;
          processingTimeMs := (endTime clock - startTime clock)%Z;
          totalItems := length items;
          reviewNeeded := length (List.filter needsReview (pushed st)) |}.

End LabelingAgent.

(* ================================================================== *)
(** * src/api/labelingApi.ts *)
(* ================================================================== *)

Module LabelingApi.
Import LabelingAgent.

(** [body.data], as the checks of the handler see it. *)
Inductive dataField : Type :=
| DataFalsy
    (** the property is absent, or holds a falsy value *)
| DataNotArray
    (** a truthy value that is not an array *)
| DataArray (items : list DataItem).

(** [intent.labelCategories] *)
Inductive categoriesField : Type :=
| CategoriesNotArray
| CategoriesArray (categories : list string).

(** A truthy [body.intent]; [None] is an absent [datasetDescription]. *)
Record intentBody : Type := {
  body_datasetDescription : option string;
  body_labelCategories : categoriesField;
  body_guidelines : string
}.

(** The parsed request body; [None] is an absent or falsy [body.intent]. *)
Record requestBody : Type := {
  body_data : dataField;
  body_intent : option intentBody
}.

(** [await request.json()] *)
Inductive requestJson : Type :=
| JsonFails (e : thrown)
    (** the body is not JSON *)
| JsonNull
    (** the body is [null]: reading [body.data] throws *)
| JsonBody (body : requestBody).

Inductive responseBody : Type :=
| ErrorBody (error : string) (message : option string)
| ResultBody (result : BatchLabelingResult).

Record Response : Type := {
  status : Z;
  body : responseBody
}.

Definition badRequest (error : string) : Response :=
  {| status := 400; body := ErrorBody error None |}.

(** The [catch] clause of the handler. *)
Definition internalError (error : thrown) : Response :=
  {| status := 500;
     body := ErrorBody "Internal server error" (Some (errorMessage error)) |}.

Definition missingFields : string := "Missing required fields: data and intent".
Definition badData : string := "Data must be an array with 1-100 items".
Definition badIntent : string :=
  "Intent must include datasetDescription and at least one labelCategory".

(** The response, and the number of inference calls issued while it was
    computed.  [None]: the handler does not return. *)
Definition handleLabelingRequest (request : requestJson) (ai : AI)
    (clock : Clock) : option (Response * nat) :=
  match request with
  | JsonFails e => Some (internalError e, 0)
  | JsonNull =>
      Some (internalError
              (ErrorObject "Cannot read properties of null (reading 'data')"), 0)
  | JsonBody body =>
      match body_data body, body_intent body with
      | DataFalsy, _ | _, None => Some (badRequest missingFields, 0)
      | DataNotArray, Some _ => Some (badRequest badData, 0)
      | DataArray data, Some intent =>
          if Nat.eqb (length data) 0 || Nat.ltb 100 (length data) then
            Some (badRequest badData, 0)
          else
            match body_datasetDescription intent, body_labelCategories intent with
            | None, _ | _, CategoriesNotArray => Some (badRequest badIntent, 0)
            | Some description, CategoriesArray categories =>
                if String.eqb description EmptyString
                   || Nat.eqb (length categories) 0
                then Some (badRequest badIntent, 0)
                else
                  let batchSize := if Nat.leb (length data) 5 then 1 else 5 in
                  let intent' := {| datasetDescription := description;
                                    labelCategories := categories;
                                    guidelines := body_guidelines intent |} in
                  st ← labelDataBatch_run data intent' ai batchSize;
                  result ← labelDataBatch data intent' ai batchSize clock;
                  Some ({| status := 200; body := ResultBody result |}, aiCalls st)
            end
      end
  end.

End LabelingApi.

(* ================================================================== *)
(** * src/components/data-labeler/IntentCapture.tsx (types) *)
(* ================================================================== *)

Module IntentCapture.

Record LabelOption : Type := {
  name : string;
  description : string
}.

Record LabelCategory : Type := {
  type : string;
  guideline : string;
  options : list LabelOption
}.

Record LabelingIntent : Type := {
  datasetDescription : string;
  labelCategories : list LabelCategory;
  generalGuidelines : string
}.

(** ** [parseConfigText] and [handleSubmit] *)

(** The first [while] loop of a category: the lines up to the first
    bullet make the guideline, joined by line feeds. *)
Fixpoint readGuideline (guideline : string) (lines : list string)
    : string * list string :=
  match lines with
  | [] => (guideline, [])
  | line :: rest =>
      if startsWith line "-" then (guideline, lines)
      else readGuideline
             ((if nonEmpty guideline
               then guideline +:+ String LF EmptyString else guideline) +:+ line)
             rest
  end.

(** One round of the second [while] loop: what it pushes. *)
Definition readOption (line : string) : list LabelOption :=
  if startsWith line "-" then
    let optionParts := split colon (substring_from 1 line) in
    if Nat.leb 2 (length optionParts)
    then [ {| name := trim (nth 0 optionParts EmptyString);
              description := trim (join ":" (List.tl optionParts)) |} ]
    else []
  else [].

(** The body of [categoryTexts.forEach]: what it pushes. *)
Definition parseCategory (catText : string) : list LabelCategory :=
  if negb (nonEmpty (trim catText)) then []
  else
    let lines := List.filter nonEmpty (List.map trim (split LF catText)) in
    match lines with
    | [] => []
    | type' :: rest =>
        let '(guideline', bullets) := readGuideline EmptyString rest in
        [ {| type := type'; guideline := guideline';
             options := flat_map readOption bullets |} ]
    end.

(** The body of [sections.forEach]. *)
Definition parseSection (result : LabelingIntent) (section : string)
    : LabelingIntent :=
  let trimmedSection := trim section in
  if negb (nonEmpty trimmedSection) then result
  else if startsWith trimmedSection "Dataset Description" then
    {| datasetDescription :=
         trim (replaceFirst "Dataset Description" EmptyString trimmedSection);
       labelCategories := labelCategories result;
       generalGuidelines := generalGuidelines result |}
  else if startsWith trimmedSection "Label Categories" then
    let categoryTexts := List.tl (split_heading 3 trimmedSection) in
    {| datasetDescription := datasetDescription result;
       labelCategories :=
         labelCategories result ++ flat_map parseCategory categoryTexts;
       generalGuidelines := generalGuidelines result |}
  else if startsWith trimmedSection "General Guidelines" then
    {| datasetDescription := datasetDescription result;
       labelCategories := labelCategories result;
       generalGuidelines :=
         trim (replaceFirst "General Guidelines" EmptyString trimmedSection) |}
  else result.

Definition parseConfigText (text : string) : LabelingIntent :=
  fold_left parseSection (split_heading 2 text)
    {| datasetDescription := EmptyString; labelCategories := [];
       generalGuidelines := EmptyString |}.

(** What [handleSubmit] does: it sets the error, or hands the intent to
    [onIntentCaptured]. *)
Inductive submitOutcome : Type :=
| SubmitError (message : string)
| IntentCaptured (config : LabelingIntent).

Definition handleSubmit (configText : string) : submitOutcome :=
  let config := parseConfigText configText in
  if negb (nonEmpty (trim (datasetDescription config))) then
    SubmitError "Please include a dataset description"
  else if Nat.eqb (length (labelCategories config)) 0 then
    SubmitError "Please include at least one label category"
  else
    let hasValidCategory :=
      existsb (fun cat => Nat.ltb 0 (length (options cat))) (labelCategories config) in
    if negb hasValidCategory then
      SubmitError "Please include at least one label option for at least one category"
    else IntentCaptured config.

End IntentCapture.

(* ================================================================== *)
(** * src/hooks/useLabelingService.ts *)
(* ================================================================== *)

Module UseLabelingService.
Import LabelingAgent.
Import IntentCapture.

(** ** Coverage enhancer: [postProcessResults] *)

(** The plain object [acc] of the [reduce], own properties in insertion
    order. *)
Definition groups : Type := list (string * list LabelResult).

(** [if (!acc[k]) acc[k] = []; acc[k].push(r)] for a key [k] that [acc]
    does not inherit. *)
Fixpoint pushToGroup (k : string) (r : LabelResult) (acc : groups) : groups :=
  match acc with
  | [] => [(k, [r])]
  | (k', g) :: rest =>
      if String.eqb k k' then (k', g ++ [r]) :: rest
      else (k', g) :: pushToGroup k r rest
  end.

(** One step of the [reduce].  For a key inherited from [Object.prototype]
    the lookup [acc[k]] is truthy and has no [push]. *)
Definition groupStep (acc : groups) (result : LabelResult) : completion groups :=
  if inherited_key (itemId result)
  then Throw (ErrorObject "acc[result.itemId].push is not a function")
  else mret (pushToGroup (itemId result) result acc).

Fixpoint groupByItem (results : list LabelResult) (acc : groups)
    : completion groups :=
  match results with
  | [] => mret acc
  | result :: rest => acc' ← groupStep acc result; groupByItem rest acc'
  end.

Fixpoint insertByIndex {A : Type} (e : N * A) (l : list (N * A)) : list (N * A) :=
  match l with
  | [] => [e]
  | e' :: l' =>
      if (e.1 <=? e'.1)%N then e :: l else e' :: insertByIndex e l'
  end.

Definition sortByIndex {A : Type} (l : list (N * A)) : list (N * A) :=
  foldr insertByIndex [] l.

Definition indexed {A : Type} (kv : string * A) : option (N * (string * A)) :=
  (fun n => (n, kv)) <$> array_index kv.1.

(** [Object.entries(obj)]: array-index keys in ascending numeric order,
    then the other keys in insertion order. *)
Definition entries {A : Type} (obj : list (string * A)) : list (string * A) :=
  (snd <$> sortByIndex (omap indexed obj))
    ++ List.filter (fun kv => negb (bool_decide (is_Some (array_index kv.1)))) obj.

(** [r.label.split(":")[0].trim()] *)
Definition labelType (r : LabelResult) : string :=
  trim (nth 0 (split colon (label r)) EmptyString).

(** [new Set(itemResults.map(...))] *)
Definition usedLabelTypes (itemResults : list LabelResult) : gset string :=
  list_to_set (labelType <$> itemResults).

Definition placeholderLabel (itemId : string) (category : LabelCategory)
    (option : LabelOption) : LabelResult :=
  {| itemId := itemId;
     label := type category +:+ ": " +:+ name option;
     confidence := 0;
     reasoning :=
       "[This label was added automatically to ensure all categories are covered. Please review and update as needed.]";
     uncertaintyExplanation :=
       Some (JStr "This label was automatically added and requires human verification.");
     needsReview := true;
     needsLLMReasoning := true |}.

(** The body of [intent.labelCategories.forEach]: what it pushes. *)
Definition synthesizeFor (itemId : string) (used : gset string)
    (category : LabelCategory) : list LabelResult :=
  if negb (bool_decide (type category ∈ used))
     && Nat.ltb 0 (length (options category))
  then match options category with
       | option :: _ => [placeholderLabel itemId category option]
       | [] => []
       end
  else [].

(** The body of [Object.entries(groupedByItem).forEach]: what it pushes. *)
Definition enhanceItem (intent : LabelingIntent)
    (entry : string * list LabelResult) : list LabelResult :=
  let '(itemId, itemResults) := entry in
  let used := usedLabelTypes itemResults in
  itemResults
    ++ (if Nat.ltb 1 (length (labelCategories intent))
           && Nat.ltb (size used) (length (labelCategories intent))
        then flat_map (synthesizeFor itemId used) (labelCategories intent)
        else []).

Definition postProcessResults (results : list LabelResult)
    (intent : LabelingIntent) (data : list DataItem)
    : completion (list LabelResult) :=
  groupedByItem ← groupByItem results [];
  mret (flat_map (enhanceItem intent) (entries groupedByItem)).

(** ** Reasoning backfill: [generateReasoningForLabels] *)

(** A truthy [reasoningJson[label]]: a bare string, or a value whose
    [reasoning], [confidence] and [uncertainty] properties are read
    ([None]: undefined).  The properties have the types the prompt asks
    for. *)
Inductive reasoningEntry : Type :=
| BareString (s : string)
| Structured (reasoning : option string) (confidence : option Z)
             (uncertainty : value).

(** One round trip to [/api/completion] for an item. *)
Inductive backfillReply : Type :=
| BackfillFails (e : thrown)
    (** [fetch] rejects, the response is not ok, its JSON or the
        completion does not parse, or the completion is [null] *)
| BackfillJson (reasoningJson : list (string * reasoningEntry)).

(** The round trip of each item, by item id. *)
Definition Backfill : Type := string → backfillReply.

Record labelInfo : Type := {
  index : nat;
  info_label : string
}.

Record itemData : Type := {
  item : DataItem;
  labels : list labelInfo
}.

(** The [Map] [itemsToProcess], in insertion order. *)
Definition itemsMap : Type := list (string * itemData).

Definition mapHas (k : string) (m : itemsMap) : bool :=
  existsb (fun e => String.eqb e.1 k) m.

(** [itemsToProcess.get(k).labels.push(l)] *)
Fixpoint pushLabel (k : string) (l : labelInfo) (m : itemsMap) : itemsMap :=
  match m with
  | [] => []
  | (k', d) :: rest =>
      if String.eqb k' k
      then (k', {| item := item d; labels := labels d ++ [l] |}) :: rest
      else (k', d) :: pushLabel k l rest
  end.

Definition flagged (r : LabelResult) : bool := needsLLMReasoning r.

(** [updatedResults.findIndex(r => r.itemId === result.itemId &&
    r.label === result.label)]; [None] is -1. *)
Fixpoint findIndex (p : LabelResult → bool) (l : list LabelResult) : option nat :=
  match l with
  | [] => None
  | r :: rest => if p r then Some 0 else S <$> findIndex p rest
  end.

(** The body of [needsReasoningResults.forEach]. *)
Definition collectLabel (updatedResults : list LabelResult)
    (data : list DataItem) (m : itemsMap) (result : LabelResult) : itemsMap :=
  match List.find (fun d => String.eqb (id d) (itemId result)) data with
  | None => m
  | Some item =>
      let m' := if mapHas (itemId result) m then m
                else m ++ [(itemId result, {| item := item; labels := [] |})] in
      match findIndex (fun r => String.eqb (itemId r) (itemId result)
                                && String.eqb (label r) (label result))
                      updatedResults with
      | Some originalIndex =>
          pushLabel (itemId result)
            {| index := originalIndex; info_label := label result |} m'
      | None => m'
      end
  end.

(** [reasoningJson[label]], [None] when absent or falsy. *)
Fixpoint lookupLabelData (label : string) (reasoningJson : list (string * reasoningEntry))
    : option reasoningEntry :=
  match reasoningJson with
  | [] => None
  | (k, d) :: rest =>
      if String.eqb label k then
        match d with
        | BareString EmptyString => None
        | _ => Some d
        end
      else lookupLabelData label rest
  end.

Definition orPrevious {A : Type} (falsy : A → bool) (v : option A) (previous : A) : A :=
  match v with
  | Some a => if falsy a then previous else a
  | None => previous
  end.

(** The object that replaces [updatedResults[labelInfo.index]] when the
    response has an entry for the label. *)
Definition withReasoning (d : reasoningEntry) (previous : LabelResult) : LabelResult :=
  let '(reasoning', confidence', uncertainty') :=
    match d with
    | BareString s => (Some s, Some 75%Z, None)
    | Structured r c u => (r, c, u)
    end in
  {| itemId := itemId previous;
     label := label previous;
     confidence := orPrevious (Z.eqb 0) confidence' (confidence previous);
     reasoning := orPrevious (String.eqb EmptyString) reasoning' (reasoning previous);
     uncertaintyExplanation := uncertainty';
     needsReview :=
       match confidence' with
       | Some c => (c <? 70)%Z
       | None => false
       end || needsReview previous;
     needsLLMReasoning := false |}.

Definition fallbackReasoning : string :=
  "This label was suggested for this content based on the labeling guidelines. Please review and update as needed.".

(** The object that replaces [updatedResults[labelInfo.index]] in the
    [catch] clause. *)
Definition withFallback (previous : LabelResult) : LabelResult :=
  {| itemId := itemId previous;
     label := label previous;
     confidence := Z.max 60 (confidence previous);
     reasoning := fallbackReasoning;
     uncertaintyExplanation :=
       Some (JStr "There was an issue generating detailed analysis for this label.");
     needsReview := true;
     needsLLMReasoning := false |}.

(** One iteration of [for (const [itemId, itemData] of itemsToProcess)].
    Every [index] comes from [findIndex], hence lies within the array:
    [alter] rewrites that slot. *)
Definition processItem (backfill : Backfill) (updatedResults : list LabelResult)
    (entry : string * itemData) : list LabelResult :=
  let '(itemId, itemData) := entry in
  match backfill itemId with
  | BackfillJson reasoningJson =>
      fold_left
        (fun acc labelInfo =>
           match lookupLabelData (info_label labelInfo) reasoningJson with
           | Some d => alter (withReasoning d) (index labelInfo) acc
           | None => acc
           end)
        (labels itemData) updatedResults
  | BackfillFails _ =>
      fold_left (fun acc labelInfo => alter withFallback (index labelInfo) acc)
        (labels itemData) updatedResults
  end.

Definition generateReasoningForLabels (results : list LabelResult)
    (intent : LabelingIntent) (data : list DataItem) (backfill : Backfill)
    : list LabelResult :=
  let updatedResults := results in
  let needsReasoningResults := List.filter flagged updatedResults in
  if Nat.eqb (length needsReasoningResults) 0 then updatedResults
  else
    let itemsToProcess :=
      fold_left (collectLabel updatedResults data) needsReasoningResults [] in
    fold_left (processItem backfill) itemsToProcess updatedResults.

(** ** The hook's [results] state and its operations *)

(** [fetch("/api/label", ...)] *)
Inductive fetchOutcome : Type :=
| FetchFails (e : thrown)
| FetchResponse (response : LabelingApi.Response).

(** [labelData], from the response of the labeling service on: the value
    it returns, which is also the new [results] state ([None]: null, the
    state is left as it was). *)
Definition labelData (data : list DataItem) (intent : LabelingIntent)
    (fetched : fetchOutcome) (backfill : Backfill) (clock : Clock)
    : option BatchLabelingResult :=
  match fetched with
  | FetchFails _ => None
  | FetchResponse response =>
      if negb ((200 <=? LabelingApi.status response)%Z
               && (LabelingApi.status response <=? 299)%Z) then None
      else
        match LabelingApi.body response with
        | LabelingApi.ErrorBody _ _ => None
        | LabelingApi.ResultBody resultData =>
            match postProcessResults (results resultData) intent data with
            | Throw _ => None
            | Return processedResults =>
                let needsReasoningResults := List.filter flagged processedResults in
                let processedResults' :=
                  if Nat.ltb 0 (length needsReasoningResults)
                  then generateReasoningForLabels processedResults intent data backfill
                  else processedResults in
                Some {| results := processedResults';
                        completedAt := completedAt resultData;
                        processingTimeMs := (endTime clock - startTime clock)%Z;
                        totalItems := totalItems resultData;
                        reviewNeeded := reviewNeeded resultData |}
            end
        end
  end.

(** [updateLabel]: the new [results] state. *)
Definition updateLabel (state : option BatchLabelingResult)
    (itemId' newLabel : string) : option BatchLabelingResult :=
  match state with
  | None => None
  | Some results' =>
      let updatedResults :=
        List.map
          (fun result =>
             if String.eqb (itemId result) itemId'
                && String.eqb (label result) newLabel
             then {| itemId := itemId result;
                     label := label result;
                     confidence := 100;
                     reasoning := reasoning result;
                     uncertaintyExplanation := uncertaintyExplanation result;
                     needsReview := false;
                     needsLLMReasoning := needsLLMReasoning result |}
             else result)
          (results results') in
      Some {| results := updatedResults;
              completedAt := completedAt results';
              processingTimeMs := processingTimeMs results';
              totalItems := totalItems results';
              reviewNeeded := length (List.filter needsReview updatedResults) |}
  end.

Definition csvHeader : string := "ItemId,Label,Confidence,Reasoning,NeedsReview".

(** A string field of a row: wrapped in double quotes, with every double
    quote inside it doubled. *)
Definition quoted (s : string) : string :=
  dquote +:+ replaceAll (ascii_of_nat 34) (dquote +:+ dquote) s +:+ dquote.

Definition csvRow (result : LabelResult) : string :=
  join ","
    [ itemId result;
      quoted (label result);
      number_to_string (confidence result);
      quoted (reasoning result);
      if needsReview result then "Yes" else "No" ].

Definition exportToCsv (state : option BatchLabelingResult) : string :=
  match state with
  | None => "No data available for export"
  | Some results' =>
      if Nat.eqb (length (results results')) 0
      then "No data available for export"
      else
        let header := csvHeader +:+ String LF EmptyString in
        let rows := join (String LF EmptyString) (List.map csvRow (results results')) in
        header +:+ rows
  end.

(** ** The request of [labelData] *)

Definition nl : string := String LF EmptyString.

(** The body of [category.options.forEach] in [formatGuidelines]. *)
Definition formatOption (optIndex : nat) (option : LabelOption) : string :=
  number_to_string (Z.of_nat (optIndex + 1)) +:+ ". **" +:+ name option +:+ "**: "
  +:+ (if nonEmpty (description option) && nonEmpty (trim (description option))
       then description option +:+ nl
       else "No specific criteria provided." +:+ nl).

(** The body of [intent.labelCategories.forEach] in [formatGuidelines]. *)
Definition formatCategory (index : nat) (category : LabelCategory) : string :=
  "## " +:+ number_to_string (Z.of_nat (index + 1)) +:+ ". "
  +:+ toUpperCase (type category) +:+ nl
  +:+ (if nonEmpty (guideline category) && nonEmpty (trim (guideline category))
       then guideline category +:+ nl +:+ nl else EmptyString)
  +:+ (if Nat.ltb 0 (length (options category))
       then "Options and their criteria:" +:+ nl
            +:+ join EmptyString (imap formatOption (options category))
       else EmptyString)
  +:+ nl.

Definition formatGuidelines (intent : LabelingIntent) : string :=
  (if nonEmpty (generalGuidelines intent) && nonEmpty (trim (generalGuidelines intent))
   then "# GENERAL LABELING GUIDELINES" +:+ nl +:+ generalGuidelines intent +:+ nl +:+ nl
   else EmptyString)
  +:+ (if Nat.ltb 0 (length (labelCategories intent))
       then "# CATEGORY-SPECIFIC GUIDELINES" +:+ nl +:+ nl
            +:+ join EmptyString (imap formatCategory (labelCategories intent))
       else EmptyString)
  +:+ "# HANDLING DIFFICULT CASES" +:+ nl
  +:+ "- If content is ambiguous between multiple options, select the most prominent or relevant option" +:+ nl
  +:+ "- If content contains mixed signals, assign lower confidence and explain the ambiguity" +:+ nl
  +:+ "- Always prioritize explicit textual evidence over inferences" +:+ nl +:+ nl
  +:+ "# LABEL FORMAT REQUIREMENTS" +:+ nl
  +:+ "- IMPORTANT: Always format labels as 'Category: Option'" +:+ nl
  +:+ "- The Category MUST be the exact category name (e.g., 'Issue Type', 'Urgency', etc.)" +:+ nl
  +:+ "- The Option MUST be one of the available options for that category" +:+ nl
  +:+ "- Example: 'Issue Type: Bug', NOT 'Bug: Bug' or just 'Bug'" +:+ nl
  +:+ "- Example: 'Urgency: High', NOT 'High: High' or just 'High'" +:+ nl.

(** An element of [apiIntent.labelCategories]. *)
Definition categoryDescriptor (cat : LabelCategory) : string :=
  type cat +:+ ": " +:+ join " | " (List.map name (options cat)).

(** The body [labelData] posts to [/api/label], as the handler reads it
    back. *)
Definition labelRequest (data : list DataItem) (intent : LabelingIntent)
    : LabelingApi.requestJson :=
  let apiData := List.map (fun item => {| text := text item; id := id item |}) data in
  LabelingApi.JsonBody
    {| LabelingApi.body_data := LabelingApi.DataArray apiData;
       LabelingApi.body_intent :=
         Some {| LabelingApi.body_datasetDescription := Some (datasetDescription intent);
                 LabelingApi.body_labelCategories :=
                   LabelingApi.CategoriesArray
                     (List.map categoryDescriptor (labelCategories intent));
                 LabelingApi.body_guidelines := formatGuidelines intent |} |}.

End UseLabelingService.

(* ================================================================== *)
(** * src/lib/dataStorage.ts *)
(* ================================================================== *)

Module DataStorage.
Import LabelingAgent.

Inductive sessionStatus : Type :=
| in_progress
| completed.

Record LabelingSession : Type := {
  id : string;
  name : string;
  createdAt : string;
  updatedAt : string;
  data : list DataItem;
  intent : IntentCapture.LabelingIntent;
  results : list LabelResult;
  status : sessionStatus
}.

(** An element of the sessions list; [meta_status] is optional. *)
Record SessionMetadata : Type := {
  meta_id : string;
  meta_name : string;
  meta_createdAt : string;
  meta_updatedAt : string;
  meta_status : option sessionStatus
}.

(** The part of [localStorage] the module owns: the session stored under
    the key [data-labeler-session-<id>], for each id, and the list stored
    under [data-labeler-sessions] (the empty list when the key is absent).
    Values are kept as they are before [JSON.stringify] and after
    [JSON.parse]; session ids are of the form [session-<time>], so that no
    session key is the key of the list. *)
Record Storage : Type := {
  sessionRecords : gmap string LabelingSession;
  sessionsList : list SessionMetadata
}.

Definition getSessions (st : Storage) : list SessionMetadata := sessionsList st.

Definition getSession (sessionId : string) (st : Storage) : option LabelingSession :=
  sessionRecords st !! sessionId.

Definition saveSession (session : LabelingSession) (st : Storage) : Storage :=
  {| sessionRecords := <[id session := session]> (sessionRecords st);
     sessionsList := sessionsList st |}.

Definition saveSessions (sessions : list SessionMetadata) (st : Storage) : Storage :=
  {| sessionRecords := sessionRecords st;
     sessionsList := sessions |}.

(** [Partial<{ name, updatedAt, status }>] *)
Record metadataUpdates : Type := {
  upd_name : option string;
  upd_updatedAt : option string;
  upd_status : option sessionStatus
}.

(** [{ ...session, ...updates }] *)
Definition applyUpdates (session : SessionMetadata) (updates : metadataUpdates)
    : SessionMetadata :=
  {| meta_id := meta_id session;
     meta_name := default (meta_name session) (upd_name updates);
     meta_createdAt := meta_createdAt session;
     meta_updatedAt := default (meta_updatedAt session) (upd_updatedAt updates);
     meta_status :=
       match upd_status updates with
       | Some s => Some s
       | None => meta_status session
       end |}.

Definition updateSessionMetadata (sessionId : string) (updates : metadataUpdates)
    (st : Storage) : bool * Storage :=
  let sessions := getSessions st in
  let updatedSessions :=
    List.map (fun session =>
                if String.eqb (meta_id session) sessionId
                then applyUpdates session updates
                else session)
             sessions in
  (true, saveSessions updatedSessions st).

(** [nowMs] is [Date.now()], [now] is [new Date().toISOString()]. *)
Definition createSession (nowMs : Z) (now : string) (name' : string)
    (data' : list DataItem) (intent' : IntentCapture.LabelingIntent)
    (st : Storage) : LabelingSession * Storage :=
  let id' := "session-" +:+ number_to_string nowMs in
  let session := {| id := id'; name := name'; createdAt := now; updatedAt := now;
                    data := data'; intent := intent'; results := [];
                    status := in_progress |} in
  let st1 := saveSession session st in
  let sessions := getSessions st1 in
  (session,
   saveSessions (sessions ++ [ {| meta_id := id'; meta_name := name';
                                  meta_createdAt := now; meta_updatedAt := now;
                                  meta_status := None |} ]) st1).

Definition updateSessionResults (now : string) (sessionId : string)
    (results' : list LabelResult) (st : Storage)
    : option LabelingSession * Storage :=
  match getSession sessionId st with
  | None => (None, st)
  | Some session =>
      let updatedSession :=
        {| id := id session; name := name session; createdAt := createdAt session;
           updatedAt := now;
           data := data session; intent := intent session;
           results := results';
           status := status session |} in
      let st1 := saveSession updatedSession st in
      let '(_, st2) :=
        updateSessionMetadata sessionId
          {| upd_name := None; upd_updatedAt := Some (updatedAt updatedSession);
             upd_status := None |} st1 in
      (Some updatedSession, st2)
  end.

(** [now] is [new Date().toISOString()]. *)
Definition completeSession (now : string) (sessionId : string) (st : Storage)
    : option LabelingSession * Storage :=
  match getSession sessionId st with
  | None => (None, st)
  | Some session =>
      let updatedSession :=
        {| id := id session; name := name session; createdAt := createdAt session;
           updatedAt := now;
           data := data session; intent := intent session;
           results := results session;
           status := completed |} in
      let st1 := saveSession updatedSession st in
      let '(_, st2) :=
        updateSessionMetadata sessionId
          {| upd_name := None; upd_updatedAt := Some (updatedAt updatedSession);
             upd_status := Some completed |} st1 in
      (Some updatedSession, st2)
  end.

Definition deleteSession (sessionId : string) (st : Storage) : bool * Storage :=
  let st1 := {| sessionRecords := delete sessionId (sessionRecords st);
                sessionsList := sessionsList st |} in
  let sessions := getSessions st1 in
  let updatedSessions :=
    List.filter (fun s => negb (String.eqb (meta_id s) sessionId)) sessions in
  (true, saveSessions updatedSessions st1).

(** Every record sits under the key made from its own id: [saveSession],
    the only writer of records, stores [session] under [session.id]. *)
Definition keyedById (st : Storage) : Prop :=
  ∀ k s, sessionRecords st !! k = Some s → id s = k.

End DataStorage.


(* ================================================================== *)
(** * [src/components/data-labeler/DataUploader.tsx] *)
(* ================================================================== *)

Module DataUploader.

Inductive uploadSource : Type := file | paste.

Record ParsedData : Type := {
  items : list string;
  source : uploadSource
}.

(** What a handler does: it sets the error, or hands the data to
    [onDataUploaded]; [NoFile]: it returns at once. *)
Inductive uploadOutcome : Type :=
| NoFile
| UploadError (message : string)
| DataUploaded (data : ParsedData).

Definition tooMany : string := "Please limit to 100 items for MVP version".

Definition handlePasteSubmit (pastedData : string) : uploadOutcome :=
  if negb (nonEmpty (trim pastedData)) then
    UploadError "Please enter some text data"
  else
    let items :=
      List.filter (fun line => Nat.ltb 0 (String.length line))
        (List.map trim (split_lines pastedData)) in
    if Nat.ltb (length items) 1 then UploadError "No valid data found"
    else if Nat.ltb 100 (length items) then UploadError tooMany
    else DataUploaded {| items := items; source := paste |}.

(** The selected file: its MIME type, its name, and what [file.text()]
    resolves to. *)
Record File : Type := {
  file_type : string;
  file_name : string;
  file_text : completion string
}.

(** The text in front of a closing double quote that ends [s], when it
    holds no line terminator: what the group of the pattern in
    [stripQuotes] captures. *)
Fixpoint quotedBody (s : string) : option string :=
  match s with
  | EmptyString => None
  | String c s' =>
      match s' with
      | EmptyString =>
          if Ascii.eqb c (ascii_of_nat 34) then Some EmptyString else None
      | String _ _ =>
          if is_line_terminator c then None
          else String c <$> quotedBody s'
      end
  end.

(** [line.replace(pattern, "$1")] for the pattern that matches a whole
    text in double quotes and captures what is between them. *)
Definition stripQuotes (line : string) : string :=
  match line with
  | EmptyString => line
  | String c rest =>
      if Ascii.eqb c (ascii_of_nat 34)
      then match quotedBody rest with
           | Some inner => inner
           | None => line
           end
      else line
  end.

(** The first column of a line. *)
Definition firstColumn (line : string) : string :=
  trim (nth 0 (split ","%char (stripQuotes line)) EmptyString).

Definition handleFileUpload (selected : option File) : uploadOutcome :=
  match selected with
  | None => NoFile
  | Some f =>
      if negb (String.eqb (file_type f) "text/csv")
         && negb (endsWith (file_name f) ".csv")
      then UploadError "Please upload a CSV file"
      else
        match file_text f with
        | Throw _ => UploadError "Error parsing CSV file"
        | Return text' =>
            let lines :=
              List.filter (fun line => nonEmpty (trim line)) (split_lines text') in
            let items :=
              List.filter (fun item => Nat.ltb 0 (String.length item))
                (List.map firstColumn lines) in
            if Nat.ltb (length items) 1 then UploadError "No valid data found in CSV"
            else if Nat.ltb 100 (length items) then UploadError tooMany
            else DataUploaded {| items := items; source := file |}
        end
  end.

End DataUploader.

(* ================================================================== *)
(** * [src/hooks/useDataStorage.ts] *)
(* ================================================================== *)

Module UseDataStorage.
Import LabelingAgent.
Import DataStorage.

(** The state of the hook.  The operations of [DataStorage] do not throw
    in this model, so the [catch] clauses of the hook are not reached. *)
Record HookState : Type := {
  sessions : list SessionMetadata;
  currentSession : option LabelingSession;
  loading : bool;
  error : option string
}.

(** The initial values of the four [useState]. *)
Definition initialHook : HookState :=
  {| sessions := []; currentSession := None; loading := false; error := None |}.

Definition notFound (sessionId : string) : string :=
  "Session " +:+ sessionId +:+ " not found".

Definition loadSessions (h : HookState) (st : Storage)
    : list SessionMetadata * HookState :=
  let storedSessions := getSessions st in
  (storedSessions,
   {| sessions := storedSessions; currentSession := currentSession h;
      loading := loading h; error := error h |}).

Definition loadSession (sessionId : string) (h : HookState) (st : Storage)
    : option LabelingSession * HookState :=
  let session := getSession sessionId st in
  (session,
   {| sessions := sessions h;
      currentSession := session;
      loading := false;
      error := match session with
               | None => Some (notFound sessionId)
               | Some _ => None
               end |}).

Definition startNewSession (nowMs : Z) (now : string) (name' : string)
    (data' : list DataItem) (intent' : IntentCapture.LabelingIntent)
    (h : HookState) (st : Storage)
    : option LabelingSession * HookState * Storage :=
  let '(newSession, st') := createSession nowMs now name' data' intent' st in
  let h1 := {| sessions := sessions h; currentSession := Some newSession;
               loading := true; error := None |} in
  let '(_, h2) := loadSessions h1 st' in
  (Some newSession,
   {| sessions := sessions h2; currentSession := currentSession h2;
      loading := false; error := error h2 |},
   st').

(** The common shape of [saveResults] and [finishSession]: [updated] is
    what the storage operation returned. *)
Definition afterUpdate (sessionId : string) (updated : option LabelingSession)
    (h : HookState) (st' : Storage) : HookState :=
  match updated with
  | Some updatedSession =>
      let h1 := {| sessions := sessions h; currentSession := Some updatedSession;
                   loading := true; error := None |} in
      let '(_, h2) := loadSessions h1 st' in
      {| sessions := sessions h2; currentSession := currentSession h2;
         loading := false; error := error h2 |}
  | None =>
      {| sessions := sessions h; currentSession := currentSession h;
         loading := false; error := Some (notFound sessionId) |}
  end.

Definition saveResults (now : string) (sessionId : string)
    (results' : list LabelResult) (h : HookState) (st : Storage)
    : option LabelingSession * HookState * Storage :=
  let '(updatedSession, st') := updateSessionResults now sessionId results' st in
  (updatedSession, afterUpdate sessionId updatedSession h st', st').

Definition finishSession (now : string) (sessionId : string)
    (h : HookState) (st : Storage)
    : option LabelingSession * HookState * Storage :=
  let '(finishedSession, st') := completeSession now sessionId st in
  (finishedSession, afterUpdate sessionId finishedSession h st', st').

Definition removeSession (sessionId : string) (h : HookState) (st : Storage)
    : bool * HookState * Storage :=
  let '(success, st') := deleteSession sessionId st in
  if success then
    let current :=
      match currentSession h with
      | Some s => if String.eqb (id s) sessionId then None else Some s
      | None => None
      end in
    let h1 := {| sessions := sessions h; currentSession := current;
                 loading := true; error := None |} in
    let '(_, h2) := loadSessions h1 st' in
    (success,
     {| sessions := sessions h2; currentSession := currentSession h2;
        loading := false; error := error h2 |},
     st')
  else
    (success,
     {| sessions := sessions h; currentSession := currentSession h;
        loading := false;
        error := Some ("Failed to delete session " +:+ sessionId) |},
     st').

End UseDataStorage.

(* ================================================================== *)
(** * [src/components/data-labeler/DataLabeler.tsx] *)
(* ================================================================== *)

Module DataLabeler.
Import LabelingAgent.

(** [handleDataUploaded]: the new [data] state. *)
Definition handleDataUploaded (uploadedData : DataUploader.ParsedData)
    : list DataItem :=
  imap (fun index text' =>
          {| text := text';
             id := "item-" +:+ number_to_string (Z.of_nat index) |})
       (DataUploader.items uploadedData).

(** The result the handlers of the review write to the store for an
    edited item. *)
Definition relabel (itemId' newLabel : string) (result : LabelResult) : LabelResult :=
  if String.eqb (itemId result) itemId'
  then {| itemId := itemId result;
          label := newLabel;
          confidence := 100;
          reasoning := reasoning result;
          uncertaintyExplanation := uncertaintyExplanation result;
          needsReview := false;
          needsLLMReasoning := needsLLMReasoning result |}
  else result.

(** [handleUpdateLabel].  [labelResults] and [currentProjectId] are the
    states of the component, which the handler reads and does not set;
    [service] is the [results] state of the labeling hook; [h] and [st]
    are the storage hook and the store. *)
Definition handleUpdateLabel (labelResults : list LabelResult)
    (currentProjectId : option string) (now : string)
    (itemId' newLabel : string)
    (service : option BatchLabelingResult)
    (h : UseDataStorage.HookState) (st : DataStorage.Storage)
    : option BatchLabelingResult * UseDataStorage.HookState * DataStorage.Storage :=
  let service' := UseLabelingService.updateLabel service itemId' newLabel in
  match currentProjectId with
  | Some projectId =>
      if nonEmpty projectId && Nat.ltb 0 (length labelResults) then
        let updatedResults := List.map (relabel itemId' newLabel) labelResults in
        let '(_, h', st') :=
          UseDataStorage.saveResults now projectId updatedResults h st in
        (service', h', st')
      else (service', h, st)
  | None => (service', h, st)
  end.

End DataLabeler.

(* ================================================================== *)
(** * [src/components/data-labeler/ProjectViewer.tsx] *)
(* ================================================================== *)

Module ProjectViewer.
Import LabelingAgent.

(** [handleUpdateLabel]: [currentProject] is the [currentSession] of the
    storage hook. *)
Definition handleUpdateLabel (now : string) (itemId' newLabel : string)
    (h : UseDataStorage.HookState) (st : DataStorage.Storage)
    : UseDataStorage.HookState * DataStorage.Storage :=
  match UseDataStorage.currentSession h with
  | None => (h, st)
  | Some currentProject =>
      let updatedResults :=
        List.map (DataLabeler.relabel itemId' newLabel)
          (DataStorage.results currentProject) in
      let '(_, h', st') :=
        UseDataStorage.saveResults now (DataStorage.id currentProject)
          updatedResults h st in
      (h', st')
  end.

End ProjectViewer.

(* ================================================================== *)
(** * [src/components/data-labeler/DataReview.tsx] *)
(* ================================================================== *)

Module DataReview.
Import LabelingAgent.

(** A result as a card shows it; [uniqueCardId] is set for the items
    that have several results. *)
Record Card : Type := {
  card_result : LabelResult;
  uniqueCardId : option string
}.

Inductive tab : Type := all | review.

(** [s.replace(/\s+/g, "_")]: [inRun] says that the character before
    was white space. *)
Fixpoint underscored (inRun : bool) (s : string) : string :=
  match s with
  | EmptyString => EmptyString
  | String c s' =>
      if is_white_space c
      then if inRun then underscored true s'
           else String "_"%char (underscored true s')
      else String c (underscored false s')
  end.

(** The body of the [flatMap]. *)
Definition cardsOf (entry : string * list LabelResult) : list Card :=
  let '(_, itemResults) := entry in
  if Nat.eqb (length itemResults) 1
  then List.map (fun result => {| card_result := result; uniqueCardId := None |})
         itemResults
  else List.map
         (fun result =>
            {| card_result := result;
               uniqueCardId :=
                 Some (itemId result +:+ "_" +:+ underscored false (label result)) |})
         itemResults.

(** [groupedResults] and [flattenedResults]; the grouping is the
    [reduce] of the coverage enhancer. *)
Definition flattenedResults (results : list LabelResult) : completion (list Card) :=
  groupedResults ← UseLabelingService.groupByItem results [];
  mret (flat_map cardsOf (UseLabelingService.entries groupedResults)).

(** The test of [flattenedResults.filter]. *)
Definition shown (activeTab : tab) (searchTerm : string) (dataItems : list DataItem)
    (card : Card) : bool :=
  let result := card_result card in
  match activeTab with
  | review => needsReview result
  | all => true
  end
  && (if nonEmpty (trim searchTerm) then
        let lowerSearch := toLowerCase searchTerm in
        let itemText :=
          match List.find (fun item => String.eqb (id item) (itemId result)) dataItems with
          | Some item => text item
          | None => EmptyString
          end in
        includes (toLowerCase (itemId result)) lowerSearch
        || includes (toLowerCase (label result)) lowerSearch
        || includes (toLowerCase (reasoning result)) lowerSearch
        || includes (toLowerCase itemText) lowerSearch
      else true).

Definition filteredResults (activeTab : tab) (searchTerm : string)
    (dataItems : list DataItem) (results : list LabelResult)
    : completion (list Card) :=
  flattened ← flattenedResults results;
  mret (List.filter (shown activeTab searchTerm dataItems) flattened).

Definition needsReviewCount (results : list LabelResult) : nat :=
  length (List.filter needsReview results).

Definition lowConfidenceCount (results : list LabelResult) : nat :=
  length (List.filter (fun r => (confidence r <? 70)%Z) results).

Definition reviewedCount (results : list LabelResult) : nat :=
  length (List.filter (fun r => negb (needsReview r)) results).

End DataReview.
(* ================================================================== *)
(** * Vocabulary of the properties, and sample data *)
(* ================================================================== *)

Import LabelingAgent.

(** ** Label repair *)

(** A label whose two [:]-separated parts are equal once trimmed: the
    model echoed the option name as the category. *)
Definition echoed (label : string) : bool :=
  let labelParts := List.map trim (split colon label) in
  Nat.eqb (length labelParts) 2
  && String.eqb (nth 0 labelParts EmptyString) (nth 1 labelParts EmptyString).

Definition bugIntent : LabelingIntent :=
  {| datasetDescription := "Tickets";
     labelCategories := ["Issue Type: Bug | Feature"];
     guidelines := "" |}.

Definition echoReply : list (string * json) :=
  [ ("label", JStr "Bug: Bug"); ("confidence", JNum 92);
    ("reasoning", JStr "The text reports a crash.") ].

Definition item0 : DataItem := {| text := "App crashes on start"; id := "item-0" |}.
Definition item1 : DataItem := {| text := "Please add dark mode"; id := "item-1" |}.

(** The scenario of the specification: three items, one category
    [Sentiment: Positive | Negative], chunks of one item; the backend
    labels the first and the third item and fails on the second. *)
Definition sentimentIntent : LabelingIntent :=
  {| datasetDescription := "Reviews";
     labelCategories := ["Sentiment: Positive | Negative"];
     guidelines := "" |}.

Definition item2 : DataItem := {| text := "Works as described"; id := "item-2" |}.

Definition sentimentAI : AI :=
  {| single_reply := fun k =>
       match k with
       | 1 => Rejected (ErrorObject "Network connection lost")
       | _ => Parsed [ ("label", JStr "Sentiment: Positive"); ("confidence", JNum 92) ]
       end;
     batch_reply := fun _ => NoMatch |}.

(** The fields of a result the orchestrator decides. *)
Definition orchestratorView (r : LabelResult) : string * string * Z * bool :=
  (itemId r, label r, confidence r, needsReview r).

(** ** Request validation *)

(** The [data] array has a length outside 1-100. *)
Definition dataOutOfRange (b : LabelingApi.requestBody) : Prop :=
  ∃ items, LabelingApi.body_data b = LabelingApi.DataArray items
           ∧ (length items = 0 ∨ 100 < length items).

(** The intent has an empty [labelCategories] array. *)
Definition noCategories (b : LabelingApi.requestBody) : Prop :=
  ∃ i, LabelingApi.body_intent b = Some i
       ∧ LabelingApi.body_labelCategories i = LabelingApi.CategoriesArray [].

(** The [data] or the [intent] field is missing. *)
Definition missingField (b : LabelingApi.requestBody) : Prop :=
  LabelingApi.body_data b = LabelingApi.DataFalsy
  ∨ LabelingApi.body_intent b = None.

Definition sampleClock : Clock :=
  {| startTime := 1000; endTime := 1750; endTimeISO := "2025-01-01T00:00:00.750Z" |}.

Definition silentAI : AI :=
  {| single_reply := fun _ => NoMatch; batch_reply := fun _ => NoMatch |}.

Definition sampleIntentBody : LabelingApi.intentBody :=
  {| LabelingApi.body_datasetDescription := Some "Tickets";
     LabelingApi.body_labelCategories :=
       LabelingApi.CategoriesArray ["Issue Type: Bug | Feature"];
     LabelingApi.body_guidelines := "" |}.

(** A request with 101 items. *)
Definition oversizedBody : LabelingApi.requestBody :=
  {| LabelingApi.body_data := LabelingApi.DataArray (replicate 101 item0);
     LabelingApi.body_intent := Some sampleIntentBody |}.

(** ** Session store *)

Definition sampleUiIntent : IntentCapture.LabelingIntent :=
  {| IntentCapture.datasetDescription := "Tickets";
     IntentCapture.labelCategories :=
       [ {| IntentCapture.type := "Issue Type"; IntentCapture.guideline := "";
            IntentCapture.options :=
              [ {| IntentCapture.name := "Bug"; IntentCapture.description := "" |} ] |} ];
     IntentCapture.generalGuidelines := "" |}.

Definition emptyStorage : DataStorage.Storage :=
  {| DataStorage.sessionRecords := ∅; DataStorage.sessionsList := [] |}.

(** The store after one [createSession]. *)
Definition oneSessionStorage : DataStorage.Storage :=
  (DataStorage.createSession 1700000000000 "2023-11-14T22:13:20.000Z"
     "First project" [item0; item1] sampleUiIntent emptyStorage).2.

(** ** CSV export *)

(** The string has no line feed in it. *)
Definition noLineFeed (s : string) : Prop :=
  includes s (String LF EmptyString) = false.

(** The lines of a text: [text.split("\n")]. *)
Definition lines (text : string) : list string := split LF text.

Definition stateOf (rs : list LabelResult) : option BatchLabelingResult :=
  Some {| results := rs; completedAt := "2025-01-01T00:00:00.750Z";
          processingTimeMs := 750; totalItems := length rs;
          reviewNeeded := length (List.filter needsReview rs) |}.

(** A result whose reasoning spans two lines. *)
Definition twoLineResult : LabelResult :=
  {| itemId := "item-0"; label := "Issue Type: Bug"; confidence := 92;
     reasoning := "The text reports a crash." +:+ String LF EmptyString
                    +:+ "It happens on start.";
     uncertaintyExplanation := None; needsReview := false;
     needsLLMReasoning := false |}.

Definition plainResult : LabelResult :=
  {| itemId := "item-0"; label := "Issue Type: Bug"; confidence := 92;
     reasoning := "The text reports a crash.";
     uncertaintyExplanation := None; needsReview := false;
     needsLLMReasoning := false |}.

(** ** Batch orchestrator *)

(** What the chunk with call number [k] contributes to the results. *)
Definition chunkOutput (ai : AI) (intent : LabelingIntent) (k : nat)
    (batch : list DataItem) : list LabelResult :=
  pushed (processBatch ai intent {| pushed := []; aiCalls := k |} batch).

(** An exception [e] is raised while the chunk with call number [k] is
    processed: inside the [try] of [labelDataItem] for a chunk of one
    item, inside the [try] of the batch loop otherwise. *)
Definition chunkRaises (ai : AI) (intent : LabelingIntent) (k : nat)
    (batch : list DataItem) (e : thrown) : Prop :=
  match batch with
  | [item] => labelDataItem_try item intent (single_reply ai k) = Throw e
  | _ => (batchPath_try ai batch {| pushed := []; aiCalls := k |}).2 = Some e
  end.

(** The inference call of the chunk with call number [k] fails with [e]
    (it rejects, or the text of the response cannot be used), or no JSON
    is found in its response, which makes the code throw the error [e]
    itself. *)
Definition callFails (ai : AI) (k : nat) (batch : list DataItem) (e : thrown) : Prop :=
  match batch with
  | [_] => single_reply ai k = Rejected e
           ∨ (single_reply ai k = NoMatch
              ∧ e = ErrorObject "Failed to parse AI response")
  | _ => batch_reply ai k = Rejected e
         ∨ (batch_reply ai k = NoMatch
            ∧ e = ErrorObject "Failed to parse AI batch response")
  end.

Definition isString (v : value) : bool :=
  match v with
  | Some (JStr _) => true
  | _ => false
  end.

(** The reasoning of the entry is truthy and not a string: it has no
    [trim]. *)
Definition reasoningFails (r : json) : bool :=
  truthy (get_prop r "reasoning") && negb (isString (get_prop r "reasoning")).

(** The label of the entry is truthy and not a string (it has no
    [split]), or it is an echo, on which the repair block throws. *)
Definition labelFails (r : json) : bool :=
  (truthy (get_prop r "label") && negb (isString (get_prop r "label")))
  || match get_prop r "label" with
     | Some (JStr s) => echoed s
     | _ => false
     end.

(** The entry [r] of a response cannot be mapped to a result. *)
Definition entryFails (r : json) : bool := reasoningFails r || labelFails r.

(** Among the entries of the first [n] positions of the parsed array, one
    is truthy and cannot be mapped. *)
Definition mappingFails (batchResults : list json) (n : nat) : bool :=
  existsb (fun r => truthy (Some r) && entryFails r) (take n batchResults).

(** The response of the chunk parsed, and an entry of it cannot be
    mapped. *)
Definition mappingRaises (ai : AI) (k : nat) (batch : list DataItem) : Prop :=
  match batch with
  | [_] => ∃ fields, single_reply ai k = Parsed fields
                     ∧ entryFails (JObj fields) = true
  | _ => ∃ batchResults, batch_reply ai k = Parsed batchResults
                         ∧ mappingFails batchResults (length batch) = true
  end.


(** Some result carries the id of [item]. *)
Definition covered (out : list LabelResult) (item : DataItem) : Prop :=
  ∃ r, In r out ∧ itemId r = id item.

(** The chunk of the item at position [i]. *)
Definition chunkOf (items : list DataItem) (batchSize i : nat) : list DataItem :=
  take batchSize (drop (i / batchSize * batchSize) items).

(** The item at position [i] is skipped: its chunk has several items,
    the response of the chunk parsed into an array that has no (truthy)
    entry at the item's position in the chunk, and no exception is raised
    while the chunk is mapped. *)
Definition skipped (ai : AI) (items : list DataItem) (batchSize i : nat) : Prop :=
  length (chunkOf items batchSize i) ≠ 1
  ∧ ∃ batchResults,
      batch_reply ai (i / batchSize) = Parsed batchResults
      ∧ truthy (batchResults !! (i mod batchSize)) = false
      ∧ mappingFails batchResults (length (chunkOf items batchSize i)) = false.

(** Low confidence, as the orchestrator decides it. *)
Definition lowConfidence (r : LabelResult) : bool := (confidence r <? 70)%Z.

(** An inference backend that answers every batch call with an empty
    array. *)
Definition emptyArrayAI : AI :=
  {| single_reply := fun _ => NoMatch; batch_reply := fun _ => Parsed [] |}.

(** An entry that can be mapped. *)
Definition bugEntry : json :=
  JObj [ ("label", JStr "Issue Type: Bug"); ("confidence", JNum 92);
         ("reasoning", JStr "The text reports a crash.") ].

(** An inference backend whose responses to batch calls are truncated
    after the first entry. *)
Definition truncatedAI : AI :=
  {| single_reply := fun _ => NoMatch; batch_reply := fun _ => Parsed [bugEntry] |}.


(** Item id, label and confidence of a result. *)
Definition outline (r : LabelResult) : string * string * Z :=
  (itemId r, label r, confidence r).

(** ** A run of the whole pipeline *)

Definition twoCategoryIntent : IntentCapture.LabelingIntent :=
  {| IntentCapture.datasetDescription := "Tickets";
     IntentCapture.labelCategories :=
       [ {| IntentCapture.type := "Issue Type"; IntentCapture.guideline := "";
            IntentCapture.options :=
              [ {| IntentCapture.name := "Bug"; IntentCapture.description := "" |};
                {| IntentCapture.name := "Feature"; IntentCapture.description := "" |} ] |};
         {| IntentCapture.type := "Urgency"; IntentCapture.guideline := "";
            IntentCapture.options :=
              [ {| IntentCapture.name := "High"; IntentCapture.description := "" |};
                {| IntentCapture.name := "Low"; IntentCapture.description := "" |} ] |} ];
     IntentCapture.generalGuidelines := "" |}.

(** The request [labelData] sends for [item0] and [twoCategoryIntent]. *)
Definition sampleRequest : LabelingApi.requestJson :=
  LabelingApi.JsonBody
    {| LabelingApi.body_data := LabelingApi.DataArray [item0];
       LabelingApi.body_intent :=
         Some {| LabelingApi.body_datasetDescription := Some "Tickets";
                 LabelingApi.body_labelCategories :=
                   LabelingApi.CategoriesArray
                     ["Issue Type: Bug | Feature"; "Urgency: High | Low"];
                 LabelingApi.body_guidelines := "# HANDLING DIFFICULT CASES" |} |}.

(** A backend that labels every item "Issue Type: Bug" with confidence 92. *)
Definition confidentAI : AI :=
  {| single_reply := fun _ =>
       Parsed [ ("label", JStr "Issue Type: Bug"); ("confidence", JNum 92);
                ("reasoning", JStr "The text reports a crash.") ];
     batch_reply := fun _ => NoMatch |}.

Definition sampleResponse : LabelingApi.Response :=
  match LabelingApi.handleLabelingRequest sampleRequest confidentAI sampleClock with
  | Some (response, _) => response
  | None => LabelingApi.internalError OtherValue
  end.

Definition failingBackfill : UseLabelingService.Backfill :=
  fun _ => UseLabelingService.BackfillFails (ErrorObject "Failed to generate reasoning").

Definition confidentBackfill : UseLabelingService.Backfill :=
  fun _ => UseLabelingService.BackfillJson
             [ ("Urgency: High",
                UseLabelingService.Structured
                  (Some "The crash blocks every user.") (Some 85%Z) None) ].

(** The [results] state after [labelData] when the backfill round trip
    fails. *)
Definition afterFailedBackfill : option BatchLabelingResult :=
  UseLabelingService.labelData [item0] twoCategoryIntent
    (UseLabelingService.FetchResponse sampleResponse) failingBackfill sampleClock.

(** The [results] state after [labelData] with a backfill of confidence 85,
    followed by the human confirmation of the label "Issue Type: Bug". *)
Definition afterHumanUpdate : option BatchLabelingResult :=
  UseLabelingService.updateLabel
    (UseLabelingService.labelData [item0] twoCategoryIntent
       (UseLabelingService.FetchResponse sampleResponse) confidentBackfill sampleClock)
    "item-0" "Issue Type: Bug".

Definition lowConfidenceCount (state : BatchLabelingResult) : nat :=
  length (List.filter lowConfidence (results state)).

(** A backend whose first call fails and whose later calls succeed. *)
Definition flakyAI : AI :=
  {| single_reply := fun k =>
       match k with
       | 0 => Rejected (ErrorObject "Network connection lost")
       | _ => Parsed [ ("label", JStr "Issue Type: Bug"); ("confidence", JNum 92) ]
       end;
     batch_reply := fun _ => NoMatch |}.

(** ** Coverage enhancer *)

Section EnhancerVocabulary.
Import IntentCapture.

(** The item ids of a results list, each once, in order of first
    occurrence. *)
Definition addKey (ks : list string) (k : string) : list string :=
  if bool_decide (k ∈ ks) then ks else ks ++ [k].

Definition keysOf (rs : list LabelResult) : list string :=
  fold_left addKey (List.map itemId rs) [].

(** The results of one item, in their original order. *)
Definition resultsOf (k : string) (rs : list LabelResult) : list LabelResult :=
  List.filter (fun r => String.eqb (itemId r) k) rs.

(** The results grouped by item. *)
Definition groupsOf (rs : list LabelResult) : UseLabelingService.groups :=
  List.map (fun k => (k, resultsOf k rs)) (keysOf rs).

(** More than one category is declared, and the item's labels show fewer
    distinct category types than there are declared categories. *)
Definition synthesisEnabled (intent : LabelingIntent) (g : list LabelResult) : bool :=
  Nat.ltb 1 (length (labelCategories intent))
  && Nat.ltb (size (UseLabelingService.usedLabelTypes g))
             (length (labelCategories intent)).

(** The declared categories that have an option and whose type is not
    among the category types of the item's labels. *)
Definition absentCategories (intent : LabelingIntent) (g : list LabelResult)
    : list LabelCategory :=
  List.filter
    (fun c => negb (bool_decide (type c ∈ UseLabelingService.usedLabelTypes g))
              && Nat.ltb 0 (length (options c)))
    (labelCategories intent).

(** [p] is the placeholder of item [k] for category [c]. *)
Definition isPlaceholderFor (k : string) (c : LabelCategory) (p : LabelResult) : Prop :=
  ∃ o, head (options c) = Some o
       ∧ itemId p = k
       ∧ label p = type c +:+ ": " +:+ name o
       ∧ confidence p = 0%Z
       ∧ needsReview p = true
       ∧ needsLLMReasoning p = true.

(** [seg] is what the enhancer emits for the group [kg]: the results of
    the item, then one placeholder per absent category when synthesis is
    enabled. *)
Definition segmentOf (intent : LabelingIntent) (kg : string * list LabelResult)
    (seg : list LabelResult) : Prop :=
  ∃ placeholders,
    seg = kg.2 ++ placeholders
    ∧ if synthesisEnabled intent kg.2
      then Forall2 (isPlaceholderFor kg.1) (absentCategories intent kg.2) placeholders
      else placeholders = [].

(** The order in which array-index keys are enumerated. *)
Definition byIndex {B : Type} (a b : N * B) : Prop := (a.1 <=? b.1)%N = true.

(** A category type that the enhancer recognises in the labels it
    synthesizes: no [:] in it, no white space around it. *)
Definition plainType (t : string) : Prop :=
  includes t (String colon EmptyString) = false ∧ trim t = t.

Definition errorResult0 : LabelResult :=
  batchErrorResult (ErrorObject "labelCategories is not defined") item0.

(** Three categories, two of them with a [:] in their type. *)
Definition colonIntent : LabelingIntent :=
  {| datasetDescription := "Tickets";
     labelCategories :=
       [ {| type := "Issue: Kind"; guideline := "";
            options := [ {| name := "Bug"; description := "" |} ] |};
         {| type := "Issue: Area"; guideline := "";
            options := [ {| name := "Login"; description := "" |} ] |};
         {| type := "Urgency"; guideline := "";
            options := [ {| name := "High"; description := "" |} ] |} ];
     generalGuidelines := "" |}.

Definition urgencyResult : LabelResult :=
  {| itemId := "item-0"; label := "Urgency: High"; confidence := 92;
     reasoning := "The crash blocks every user.";
     uncertaintyExplanation := None; needsReview := false;
     needsLLMReasoning := false |}.

(** The output of a completion that returned, the empty list otherwise. *)
Definition returned (c : completion (list LabelResult)) : list LabelResult :=
  match c with
  | Return l => l
  | Throw _ => []
  end.

(** ** Reasoning backfill *)

(** The category "Urgency" is declared twice. *)
Definition duplicateIntent : LabelingIntent :=
  {| datasetDescription := "Tickets";
     labelCategories :=
       [ {| type := "Issue Type"; guideline := "";
            options := [ {| name := "Bug"; description := "" |} ] |};
         {| type := "Urgency"; guideline := "";
            options := [ {| name := "High"; description := "" |} ] |};
         {| type := "Urgency"; guideline := "";
            options := [ {| name := "High"; description := "" |} ] |} ];
     generalGuidelines := "" |}.

(** What the enhancer makes of one labelled item under [duplicateIntent]:
    the original label and two identical flagged placeholders. *)
Definition duplicateEnhanced : list LabelResult :=
  returned (UseLabelingService.postProcessResults [plainResult] duplicateIntent [item0]).

(** The fields of a result the backfill is about. *)
Definition backfillView (r : LabelResult) : string * Z * bool * bool :=
  (label r, confidence r, needsReview r, needsLLMReasoning r).

End EnhancerVocabulary.

(** ** Reasoning backfill: which slot a flagged result resolves to *)

(** [r'] has the item id and the label of [r]: the test of the
    [findIndex] in [generateReasoningForLabels]. *)
Definition sameLabel (r r' : LabelResult) : bool :=
  String.eqb (itemId r') (itemId r) && String.eqb (label r') (label r).

(** The entry of an item in [itemsToProcess] lists the slot [i]. *)
Definition targets (i : nat) (d : UseLabelingService.itemData) : Prop :=
  i ∈ UseLabelingService.index <$> UseLabelingService.labels d.

(** The slot a label of the map points to holds a result of the item the
    label is filed under. *)
Definition pointsToItem (results : list LabelResult) (k : string)
    (l : UseLabelingService.labelInfo) : Prop :=
  ∃ r, results !! UseLabelingService.index l = Some r ∧ itemId r = k.

(* ================================================================== *)
(** * Vocabulary of the further properties *)
(* ================================================================== *)

(** ** Session store *)

(** The records and the sessions list know the same session ids. *)
Definition consistent (st : DataStorage.Storage) : Prop :=
  ∀ k, is_Some (DataStorage.sessionRecords st !! k)
       ↔ k ∈ DataStorage.meta_id <$> DataStorage.sessionsList st.

(** The entry [createSession] appends to the sessions list. *)
Definition newEntry (s : DataStorage.LabelingSession) : DataStorage.SessionMetadata :=
  {| DataStorage.meta_id := DataStorage.id s;
     DataStorage.meta_name := DataStorage.name s;
     DataStorage.meta_createdAt := DataStorage.createdAt s;
     DataStorage.meta_updatedAt := DataStorage.updatedAt s;
     DataStorage.meta_status := None |}.

(** ** Batch orchestrator *)

(** Five items. *)
Definition fiveItems : list DataItem :=
  [item0; item1; item2;
   {| text := "Refund not received"; id := "item-3" |};
   {| text := "Love the new editor"; id := "item-4" |}].

(** A request for [items] that passes the checks of the handler. *)
Definition validRequest (items : list DataItem) (description : string)
    (categories : list string) (guidelines' : string)
    : LabelingApi.requestJson :=
  LabelingApi.JsonBody
    {| LabelingApi.body_data := LabelingApi.DataArray items;
       LabelingApi.body_intent :=
         Some {| LabelingApi.body_datasetDescription := Some description;
                 LabelingApi.body_labelCategories :=
                   LabelingApi.CategoriesArray categories;
                 LabelingApi.body_guidelines := guidelines' |} |}.

(** ** Coverage enhancer *)

(** A placeholder, as the enhancer marks it. *)
Definition isPlaceholder (p : LabelResult) : Prop :=
  needsLLMReasoning p = true ∧ confidence p = 0%Z ∧ needsReview p = true.

(** A result filed under an id every object inherits. *)
Definition constructorResult : LabelResult :=
  {| itemId := "constructor"; label := "Issue Type: Bug"; confidence := 92;
     reasoning := "The text reports a crash.";
     uncertaintyExplanation := None; needsReview := false;
     needsLLMReasoning := false |}.

(** A response of the labeling service that carries [rs]. *)
Definition responseWith (rs : list LabelResult) : UseLabelingService.fetchOutcome :=
  UseLabelingService.FetchResponse
    {| LabelingApi.status := 200;
       LabelingApi.body :=
         LabelingApi.ResultBody
           {| results := rs; completedAt := "2025-01-01T00:00:00.750Z";
              processingTimeMs := 750; totalItems := length rs;
              reviewNeeded := length (List.filter needsReview rs) |} |}.

(** Results under the ids "b", "10", "a" and "2", in that order. *)
Definition mixedIdResults : list LabelResult :=
  List.map (fun k => {| itemId := k; label := "Issue Type: Bug"; confidence := 92;
                        reasoning := "The text reports a crash.";
                        uncertaintyExplanation := None; needsReview := false;
                        needsLLMReasoning := false |})
           ["b"; "10"; "a"; "2"].


(** ** Reasoning backfill *)

(** What the backfill keeps of a result [r] in the result [r'] that takes
    its place: the item id and the label; a review request is never
    withdrawn; a result that is still flagged for backfill has not been
    rewritten at all. *)
Definition keepsSlot (r r' : LabelResult) : Prop :=
  itemId r' = itemId r
  ∧ label r' = label r
  ∧ (needsReview r = true → needsReview r' = true)
  ∧ (needsLLMReasoning r' = true → r' = r).

(** The label [l] of the map comes from a flagged result of an item of
    [data], and lists the slot the [findIndex] gives for that result. *)
Definition resolves (results : list LabelResult) (data : list DataItem)
    (l : UseLabelingService.labelInfo) : Prop :=
  ∃ f, In f results
       ∧ UseLabelingService.flagged f = true
       ∧ (∃ d, In d data ∧ id d = itemId f)
       ∧ UseLabelingService.findIndex (sameLabel f) results
         = Some (UseLabelingService.index l)
       ∧ UseLabelingService.info_label l = label f.

(** The placeholder the enhancer adds to item-0 under
    [twoCategoryIntent]. *)
Definition urgencyPlaceholder : LabelResult :=
  UseLabelingService.placeholderLabel "item-0"
    {| IntentCapture.type := "Urgency"; IntentCapture.guideline := "";
       IntentCapture.options :=
         [ {| IntentCapture.name := "High"; IntentCapture.description := "" |};
           {| IntentCapture.name := "Low"; IntentCapture.description := "" |} ] |}
    {| IntentCapture.name := "High"; IntentCapture.description := "" |}.

(** [plainResult] after the enhancer, under [twoCategoryIntent]. *)
Definition enhancedOnce : list LabelResult :=
  returned (UseLabelingService.postProcessResults [plainResult] twoCategoryIntent [item0]).

(** ** Human review *)

(** The test of [updateLabel]: the result has this item id and this
    label. *)
Definition isTarget (k l : string) (r : LabelResult) : bool :=
  String.eqb (itemId r) k && String.eqb (label r) l.

(** ** Upload *)

(** Nothing but white space. *)
Fixpoint blank (s : string) : bool :=
  match s with
  | EmptyString => true
  | String c s' => is_white_space c && blank s'
  end.

(** No white space in front. *)
Definition startsClean (s : string) : bool :=
  match s with
  | EmptyString => true
  | String c _ => negb (is_white_space c)
  end.

(** The character [c] does not occur in [s]. *)
Definition charFree (c : ascii) (s : string) : Prop :=
  includes s (String c EmptyString) = false.

(** An item as the uploader hands it over: not empty, with no white
    space around it and no line feed inside. *)
Definition cleanItem (it : string) : Prop :=
  it ≠ EmptyString ∧ trim it = it ∧ noLineFeed it.

(** [d] was handed to [onDataUploaded] by one of the two handlers. *)
Definition accepted (d : DataUploader.ParsedData) : Prop :=
  (∃ pastedData, DataUploader.handlePasteSubmit pastedData = DataUploader.DataUploaded d)
  ∨ (∃ f, DataUploader.handleFileUpload (Some f) = DataUploader.DataUploaded d).

(** Two pasted lines, the first one ended by CR LF, with a blank line. *)
Definition samplePaste : string :=
  "  Login fails on Safari " +:+ String CR (String LF EmptyString)
  +:+ String LF EmptyString +:+ "Refund not received".

(** A CSV file of three lines: a header, a quoted line with a comma and
    a line with an empty first column. *)
Definition sampleFile : DataUploader.File :=
  {| DataUploader.file_type := "text/csv";
     DataUploader.file_name := "tickets.csv";
     DataUploader.file_text :=
       Return ("text,label" +:+ String LF EmptyString
               +:+ dquote +:+ "Login fails, again" +:+ dquote +:+ String LF EmptyString
               +:+ ",unlabelled") |}.

(** ** Intent capture *)

(** A category as [parseConfigText] builds it: its type is a trimmed
    line that is not empty; every option name is trimmed and holds no
    colon; every option description is trimmed. *)
Definition wellFormedCategory (c : IntentCapture.LabelCategory) : Prop :=
  cleanItem (IntentCapture.type c)
  ∧ Forall (fun o => trim (IntentCapture.name o) = IntentCapture.name o
                     ∧ charFree colon (IntentCapture.name o)
                     ∧ trim (IntentCapture.description o) = IntentCapture.description o)
      (IntentCapture.options c).

(** A configuration text with one category of two options. *)
Definition sampleConfigText : string :=
  join (String LF EmptyString)
    [ "# Labeling Instructions";
      "";
      "## Dataset Description";
      "Customer support tickets";
      "";
      "## Label Categories";
      "### Urgency";
      "How quickly this item needs attention";
      "";
      "- High: Requires immediate attention";
      "- Low: Can wait";
      "";
      "## General Guidelines";
      "Label the explicit content." ].

Definition sampleConfig : IntentCapture.LabelingIntent :=
  {| IntentCapture.datasetDescription := "Customer support tickets";
     IntentCapture.labelCategories :=
       [ {| IntentCapture.type := "Urgency";
            IntentCapture.guideline := "How quickly this item needs attention";
            IntentCapture.options :=
              [ {| IntentCapture.name := "High";
                   IntentCapture.description := "Requires immediate attention" |};
                {| IntentCapture.name := "Low";
                   IntentCapture.description := "Can wait" |} ] |} ];
     IntentCapture.generalGuidelines := "Label the explicit content." |}.

(** ** From the upload to the review *)

(** The result carries the id of one of the items. *)
Definition labelsAnItem (data : list DataItem) (r : LabelResult) : Prop :=
  ∃ it, In it data ∧ itemId r = id it.

Definition samplePasteData : DataUploader.ParsedData :=
  {| DataUploader.items := ["Login fails on Safari"; "Refund not received"];
     DataUploader.source := DataUploader.paste |}.

(** ** Storage hook and review *)

(** The hook shows what is stored: its list is the stored list, its
    current session is the stored record of that id, and it is not
    loading. *)
Definition inSync (h : UseDataStorage.HookState) (st : DataStorage.Storage) : Prop :=
  UseDataStorage.sessions h = DataStorage.getSessions st
  ∧ (∀ s, UseDataStorage.currentSession h = Some s →
          DataStorage.getSession (DataStorage.id s) st = Some s)
  ∧ UseDataStorage.loading h = false.

(** Every result of item [k] carries the label [l], with confidence 100
    and no review request. *)
Definition relabelled (k l : string) (rs : list LabelResult) : Prop :=
  Forall (fun r => itemId r = k →
                   label r = l ∧ confidence r = 100%Z ∧ needsReview r = false) rs.

(** The store after [createSession] on the empty store, and the hook
    after [loadSession] of that session. *)
Definition sampleSessionId : string := "session-1700000000000".

Definition viewerStore : DataStorage.Storage :=
  (DataStorage.updateSessionResults "2023-11-15T08:00:00.000Z" sampleSessionId
     [plainResult; urgencyPlaceholder] oneSessionStorage).2.

Definition viewerHook : UseDataStorage.HookState :=
  (UseDataStorage.loadSession sampleSessionId
     (UseDataStorage.loadSessions UseDataStorage.initialHook viewerStore).2
     viewerStore).2.

(* ================================================================== *)
(** * Properties *)
(* ================================================================== *)

(** ** Label repair *)

(** The repair block leaves every label that is not an echo as it is. *)
Lemma fixLabelFormat_other (label : string) :
  echoed label = false → fixLabelFormat label = Return label.
Proof.
  unfold echoed, fixLabelFormat, repairWith. intros ->. reflexivity.
Qed.

(** On an echo the block reads [labelCategories] and throws. *)
Lemma fixLabelFormat_echoed (label : string) :
  echoed label = true →
  fixLabelFormat label = Throw (ErrorObject "labelCategories is not defined").
Proof.
  unfold echoed, fixLabelFormat, repairWith. intros ->. reflexivity.
Qed.

(** Were [labelCategories] bound to the categories of the intent, the
    block would rewrite an echoed label with the name of the first
    category whose descriptor contains the echoed value, whatever the
    case of the letters. *)
Lemma repairWith_categories (categories : list string) (label category : string) :
  echoed label = true →
  List.find (fun cat =>
               includes (toLowerCase cat)
                 (toLowerCase (nth 0 (List.map trim (split colon label)) EmptyString)))
            categories = Some category →
  category ≠ EmptyString →
  repairWith (Return categories) label
  = Return (trim (nth 0 (split colon category) EmptyString) +:+ ": "
              +:+ nth 1 (List.map trim (split colon label)) EmptyString).
Proof.
  unfold echoed, repairWith. intros -> Hfind Hne. simpl.
  rewrite Hfind. simpl.
  destruct (String.eqb_spec category EmptyString) as [|_]; [contradiction|].
  reflexivity.
Qed.

Example repairWith_bound_categories :
  repairWith (Return (labelCategories bugIntent)) "Bug: Bug" = Return "Issue Type: Bug".
Proof. vm_compute. reflexivity. Qed.

(** C1.  The repair of an echoed label.  With the categories
    ["Issue Type: Bug | Feature"] the candidate "Bug: Bug" is not rewritten
    to "Issue Type: Bug": the repair block throws (it reads an identifier
    that is not bound), so [labelDataItem] answers with its error result,
    and in a batch every item of the chunk gets the batch error result.
    The valid label "Issue Type: Bug" passes through unchanged. *)
Theorem label_repair_echo_yields_error_result :
  fixLabelFormat "Bug: Bug" = Throw (ErrorObject "labelCategories is not defined")
  ∧ labelDataItem item0 bugIntent (Parsed echoReply)
    = itemErrorResult item0 (ErrorObject "labelCategories is not defined")
  ∧ label (labelDataItem item0 bugIntent (Parsed echoReply))
    = "Error: Needs Manual Review"
  ∧ List.map label
      (pushed (processBatch
                 {| single_reply := fun _ => NoMatch;
                    batch_reply := fun _ => Parsed [JObj echoReply; JObj echoReply] |}
                 bugIntent initialState [item0; item1]))
    = ["Error: Needs Manual Review"; "Error: Needs Manual Review"]
  ∧ fixLabelFormat "Issue Type: Bug" = Return "Issue Type: Bug".
Proof.
  repeat split; vm_compute; reflexivity.
Qed.

(** A label that is not an echo comes out of [labelDataItem] as the model
    wrote it, whenever the response has a usable reasoning. *)
Lemma labelDataItem_keeps_label (item : DataItem) (intent : LabelingIntent)
    (fields : list (string * json)) (s reasoning : string) :
  assoc "label" fields = Some (JStr s) →
  s ≠ EmptyString →
  echoed s = false →
  validReasoning (JObj fields) = Return reasoning →
  label (labelDataItem item intent (Parsed fields)) = s.
Proof.
  intros Hlabel Hs Hecho Hreason.
  assert (Hvalid : validatedLabel (JObj fields) = Return s).
  { unfold validatedLabel. simpl. rewrite Hlabel. simpl.
    destruct (String.eqb_spec s EmptyString) as [|_]; [contradiction|]. simpl.
    apply (fixLabelFormat_other s Hecho). }
  unfold labelDataItem, labelDataItem_try.
  cbn [mbind completion_bind mret completion_ret].
  rewrite Hvalid. cbn [mbind completion_bind]. rewrite Hreason. reflexivity.
Qed.

(** The scenario of the specification: the first item is labelled with
    confidence 92 and needs no review, the second one gets the error
    result, the third one is labelled all the same. *)
Example sentiment_scenario :
  (fun st => List.map orchestratorView (pushed st))
    <$> labelDataBatch_run [item0; item1; item2] sentimentIntent sentimentAI 1
  = Some [ ("item-0", "Sentiment: Positive", 92%Z, false);
           ("item-1", "Error: Needs Manual Review", 0%Z, true);
           ("item-2", "Sentiment: Positive", 92%Z, false) ].
Proof. vm_compute. reflexivity. Qed.

(** ** Request validation *)

(** C9.  A request whose [data] array is empty or longer than 100, whose
    intent has an empty [labelCategories] array, or that lacks [data] or
    [intent], is answered with status 400 and one of the three error
    messages of the handler, and no inference call is issued. *)
Theorem validation_rejects_without_inference
    (b : LabelingApi.requestBody) (ai : AI) (clock : Clock) :
  dataOutOfRange b ∨ noCategories b ∨ missingField b →
  ∃ error,
    LabelingApi.handleLabelingRequest (LabelingApi.JsonBody b) ai clock
      = Some (LabelingApi.badRequest error, 0)
    ∧ In error [LabelingApi.missingFields; LabelingApi.badData; LabelingApi.badIntent].
Proof.
  unfold dataOutOfRange, noCategories, missingField.
  destruct b as [d oi]; simpl.
  intros [(items & -> & Hlen) | [(i & -> & Hcats) | [-> | ->]]]; simpl.
  - destruct oi as [i|].
    + assert (Nat.eqb (length items) 0 || Nat.ltb 100 (length items) = true) as ->.
      { destruct Hlen as [-> | Hlen]; [reflexivity|].
        apply orb_true_iff. right. apply Nat.ltb_lt. exact Hlen. }
      eexists; split; [reflexivity | simpl; tauto].
    + eexists; split; [reflexivity | simpl; tauto].
  - destruct d as [| | items].
    + eexists; split; [reflexivity | simpl; tauto].
    + eexists; split; [reflexivity | simpl; tauto].
    + destruct (Nat.eqb (length items) 0 || Nat.ltb 100 (length items)).
      * eexists; split; [reflexivity | simpl; tauto].
      * rewrite Hcats.
        destruct (LabelingApi.body_datasetDescription i) as [desc|].
        -- simpl. rewrite orb_true_r.
           eexists; split; [reflexivity | simpl; tauto].
        -- eexists; split; [reflexivity | simpl; tauto].
  - eexists; split; [reflexivity | simpl; tauto].
  - destruct d; eexists; (split; [reflexivity | simpl; tauto]).
Qed.

Lemma validation_rejects_without_inference_witness :
  dataOutOfRange oversizedBody
  ∧ ∃ error,
      LabelingApi.handleLabelingRequest (LabelingApi.JsonBody oversizedBody)
        silentAI sampleClock
        = Some (LabelingApi.badRequest error, 0)
      ∧ In error [LabelingApi.missingFields; LabelingApi.badData; LabelingApi.badIntent].
Proof.
  assert (H : dataOutOfRange oversizedBody).
  { exists (replicate 101 item0). split; [reflexivity|].
    right. rewrite length_replicate. lia. }
  split; [exact H|].
  apply (validation_rejects_without_inference oversizedBody silentAI sampleClock).
  left. exact H.
Defined.

(** ** Session store *)

(** [saveSession] keeps every record under the key of its id. *)
Lemma saveSession_keyedById (s : DataStorage.LabelingSession) (st : DataStorage.Storage) :
  DataStorage.keyedById st → DataStorage.keyedById (DataStorage.saveSession s st).
Proof.
  intros Hst k s'. unfold DataStorage.saveSession; simpl.
  destruct (decide (DataStorage.id s = k)) as [<- | Hne].
  - rewrite lookup_insert_eq. intros [= <-]. reflexivity.
  - rewrite lookup_insert_ne by exact Hne. apply Hst.
Qed.

Lemma emptyStorage_keyedById : DataStorage.keyedById emptyStorage.
Proof. intros k s. unfold emptyStorage; simpl. rewrite lookup_empty. discriminate. Qed.

Lemma createSession_keyedById nowMs now name data intent st :
  DataStorage.keyedById st →
  DataStorage.keyedById (DataStorage.createSession nowMs now name data intent st).2.
Proof.
  intros Hst. unfold DataStorage.createSession; simpl.
  intros k s. simpl.
  destruct (decide ("session-" +:+ number_to_string nowMs = k)) as [<- | Hne].
  - rewrite lookup_insert_eq. intros [= <-]. reflexivity.
  - rewrite lookup_insert_ne by exact Hne. apply Hst.
Qed.

Lemma completeSession_keyedById now sid st :
  DataStorage.keyedById st →
  DataStorage.keyedById (DataStorage.completeSession now sid st).2.
Proof.
  intros Hst. unfold DataStorage.completeSession, DataStorage.getSession.
  destruct (DataStorage.sessionRecords st !! sid) as [s|] eqn:Hs; [|exact Hst].
  simpl. intros k s'. simpl.
  destruct (decide (DataStorage.id s = k)) as [<- | Hne].
  - rewrite lookup_insert_eq. intros [= <-]. reflexivity.
  - rewrite lookup_insert_ne by exact Hne. apply Hst.
Qed.

Lemma updateSessionResults_keyedById now sid results st :
  DataStorage.keyedById st →
  DataStorage.keyedById (DataStorage.updateSessionResults now sid results st).2.
Proof.
  intros Hst. unfold DataStorage.updateSessionResults, DataStorage.getSession.
  destruct (DataStorage.sessionRecords st !! sid) as [s|] eqn:Hs; [|exact Hst].
  simpl. intros k s'. simpl.
  destruct (decide (DataStorage.id s = k)) as [<- | Hne].
  - rewrite lookup_insert_eq. intros [= <-]. reflexivity.
  - rewrite lookup_insert_ne by exact Hne. apply Hst.
Qed.

Lemma deleteSession_keyedById sid st :
  DataStorage.keyedById st →
  DataStorage.keyedById (DataStorage.deleteSession sid st).2.
Proof.
  intros Hst k s. unfold DataStorage.deleteSession; simpl.
  intros Hk. apply lookup_delete_Some in Hk as [_ Hk]. apply (Hst _ _ Hk).
Qed.

(** What [completeSession] does to one element of the sessions list. *)
Lemma completeSession_list_entry now sid st s i m :
  DataStorage.sessionRecords st !! sid = Some s →
  DataStorage.sessionsList st !! i = Some m →
  ∃ m', DataStorage.sessionsList (DataStorage.completeSession now sid st).2 !! i = Some m'
        ∧ DataStorage.meta_id m' = DataStorage.meta_id m
        ∧ DataStorage.meta_name m' = DataStorage.meta_name m
        ∧ DataStorage.meta_createdAt m' = DataStorage.meta_createdAt m
        ∧ (DataStorage.meta_id m = sid →
           DataStorage.meta_updatedAt m' = now
           ∧ DataStorage.meta_status m' = Some DataStorage.completed)
        ∧ (DataStorage.meta_id m ≠ sid → m' = m).
Proof.
  intros Hs Hm. unfold DataStorage.completeSession, DataStorage.getSession.
  rewrite Hs. simpl.
  generalize dependent i.
  induction (DataStorage.sessionsList st) as [|m0 l IH]; intros i Hm.
  - rewrite lookup_nil in Hm. discriminate.
  - destruct i as [|i]; simpl in *.
    + injection Hm as ->.
      destruct (String.eqb (DataStorage.meta_id m) sid) eqn:E.
      * apply String.eqb_eq in E.
        eexists; split; [reflexivity|]. simpl. repeat split; tauto.
      * apply String.eqb_neq in E.
        eexists; split; [reflexivity|]. repeat split; tauto.
    + apply IH. exact Hm.
Qed.

(** C10.  Frame of [completeSession].  For a session stored under its id,
    the stored record and the returned session are the old record with
    [status] set to completed and [updatedAt] set to the current time, and
    every other field as before; the other records are untouched; the
    sessions list keeps its length and its elements, except that those
    with the session's id get the new [updatedAt] and the status
    completed.  For an id with no record the result is null and the store
    is unchanged. *)
Theorem completeSession_frame (now sid : string) (st : DataStorage.Storage) :
  DataStorage.keyedById st →
  (∀ s, DataStorage.sessionRecords st !! sid = Some s →
     ∃ s' st',
       DataStorage.completeSession now sid st = (Some s', st')
       ∧ DataStorage.sessionRecords st' !! sid = Some s'
       ∧ DataStorage.status s' = DataStorage.completed
       ∧ DataStorage.updatedAt s' = now
       ∧ DataStorage.id s' = DataStorage.id s
       ∧ DataStorage.name s' = DataStorage.name s
       ∧ DataStorage.createdAt s' = DataStorage.createdAt s
       ∧ DataStorage.data s' = DataStorage.data s
       ∧ DataStorage.intent s' = DataStorage.intent s
       ∧ DataStorage.results s' = DataStorage.results s
       ∧ (∀ k, k ≠ sid →
            DataStorage.sessionRecords st' !! k = DataStorage.sessionRecords st !! k)
       ∧ length (DataStorage.sessionsList st') = length (DataStorage.sessionsList st)
       ∧ (∀ i m, DataStorage.sessionsList st !! i = Some m →
            ∃ m', DataStorage.sessionsList st' !! i = Some m'
                  ∧ DataStorage.meta_id m' = DataStorage.meta_id m
                  ∧ DataStorage.meta_name m' = DataStorage.meta_name m
                  ∧ DataStorage.meta_createdAt m' = DataStorage.meta_createdAt m
                  ∧ (DataStorage.meta_id m = sid →
                     DataStorage.meta_updatedAt m' = now
                     ∧ DataStorage.meta_status m' = Some DataStorage.completed)
                  ∧ (DataStorage.meta_id m ≠ sid → m' = m)))
  ∧ (DataStorage.sessionRecords st !! sid = None →
     DataStorage.completeSession now sid st = (None, st)).
Proof.
  intros Hst. split.
  - intros s Hs.
    pose proof (Hst _ _ Hs) as Hid.
    pose proof (completeSession_list_entry now sid st s) as Hlist.
    unfold DataStorage.completeSession, DataStorage.getSession in *.
    rewrite Hs in *. simpl in *.
    eexists _, _. split; [reflexivity|]. simpl.
    rewrite Hid.
    split; [apply lookup_insert_eq|].
    repeat (split; [reflexivity|]).
    split; [intros k Hk; apply lookup_insert_ne; congruence|].
    split; [apply length_map|].
    intros i m Hm. apply (Hlist i m eq_refl Hm).
  - intros Hs. unfold DataStorage.completeSession, DataStorage.getSession.
    rewrite Hs. reflexivity.
Qed.

Lemma completeSession_frame_witness :
  DataStorage.keyedById oneSessionStorage
  ∧ (∃ s, DataStorage.sessionRecords oneSessionStorage !! "session-1700000000000" = Some s)
  ∧ ∃ s' st',
      DataStorage.completeSession "2023-11-15T08:00:00.000Z"
        "session-1700000000000" oneSessionStorage = (Some s', st')
      ∧ DataStorage.status s' = DataStorage.completed
      ∧ DataStorage.sessionRecords st' !! "session-1700000000000" = Some s'.
Proof.
  assert (Hk : DataStorage.keyedById oneSessionStorage).
  { apply createSession_keyedById, emptyStorage_keyedById. }
  split; [exact Hk|].
  assert (Hs : ∃ s, DataStorage.sessionRecords oneSessionStorage
                      !! "session-1700000000000" = Some s).
  { eexists. unfold oneSessionStorage. simpl. apply lookup_insert_eq. }
  split; [exact Hs|].
  destruct Hs as [s Hs].
  destruct (completeSession_frame "2023-11-15T08:00:00.000Z"
              "session-1700000000000" oneSessionStorage Hk) as [Hsome _].
  destruct (Hsome s Hs) as (s' & st' & Hrun & Hlook & Hstatus & _).
  exists s', st'. repeat split; assumption.
Defined.

(** ** CSV export *)

Lemma append_cons (d : ascii) (a b : string) :
  String d a +:+ b = String d (a +:+ b).
Proof. reflexivity. Qed.

Lemma append_nil (b : string) : EmptyString +:+ b = b.
Proof. reflexivity. Qed.

Section CharFree.
Variable c : ascii.

Lemma includes_char_nil : includes EmptyString (String c EmptyString) = false.
Proof. reflexivity. Qed.

Lemma includes_char_cons (d : ascii) (s : string) :
  includes (String d s) (String c EmptyString)
  = Ascii.eqb c d || includes s (String c EmptyString).
Proof.
  simpl. destruct (ascii_dec c d) as [-> | Hne].
  - rewrite Ascii.eqb_refl. destruct s; reflexivity.
  - apply Ascii.eqb_neq in Hne. rewrite Hne. reflexivity.
Qed.

Lemma includes_char_app (a b : string) :
  includes (a +:+ b) (String c EmptyString)
  = includes a (String c EmptyString) || includes b (String c EmptyString).
Proof.
  induction a as [|d a IH].
  - reflexivity.
  - rewrite append_cons, !includes_char_cons, IH. apply orb_assoc.
Qed.

Lemma split_char_free (s : string) :
  includes s (String c EmptyString) = false → split c s = [s].
Proof.
  induction s as [|d s IH]; [reflexivity|].
  rewrite includes_char_cons. intros H.
  apply orb_false_iff in H as [Hd Hs]. simpl.
  rewrite Ascii.eqb_sym, Hd, (IH Hs). reflexivity.
Qed.

Lemma split_app_sep (a b : string) :
  includes a (String c EmptyString) = false →
  split c (a +:+ String c b) = a :: split c b.
Proof.
  induction a as [|d a IH]; intros H.
  - rewrite append_nil. simpl. rewrite Ascii.eqb_refl. reflexivity.
  - rewrite includes_char_cons in H.
    apply orb_false_iff in H as [Hd Ha].
    rewrite append_cons.
    simpl. rewrite Ascii.eqb_sym, Hd, (IH Ha). reflexivity.
Qed.

Lemma split_join (parts : list string) :
  parts ≠ [] →
  Forall (fun p => includes p (String c EmptyString) = false) parts →
  split c (join (String c EmptyString) parts) = parts.
Proof.
  induction parts as [|p rest IH]; [congruence|].
  intros _ Hall. inversion Hall as [|? ? Hp Hrest]; subst.
  destruct rest as [|q rest].
  - simpl. apply split_char_free, Hp.
  - change (join (String c EmptyString) (p :: q :: rest))
      with (p +:+ String c (join (String c EmptyString) (q :: rest))).
    rewrite (split_app_sep _ _ Hp), IH; [reflexivity | congruence | exact Hrest].
Qed.

Lemma replaceAll_char_free (d : ascii) (by_ s : string) :
  includes by_ (String c EmptyString) = false →
  includes s (String c EmptyString) = false →
  includes (replaceAll d by_ s) (String c EmptyString) = false.
Proof.
  intros Hby. induction s as [|e s IH]; [reflexivity|].
  rewrite includes_char_cons. intros H.
  apply orb_false_iff in H as [He Hs]. simpl.
  destruct (Ascii.eqb e d).
  - rewrite includes_char_app, Hby, (IH Hs). reflexivity.
  - rewrite includes_char_cons, He, (IH Hs). reflexivity.
Qed.

End CharFree.

Lemma string_of_uint_noLineFeed (d : Decimal.uint) :
  noLineFeed (NilEmpty.string_of_uint d).
Proof.
  unfold noLineFeed.
  induction d; simpl NilEmpty.string_of_uint;
    [reflexivity | rewrite includes_char_cons, IHd; reflexivity ..].
Qed.

Lemma number_to_string_noLineFeed (n : Z) : noLineFeed (number_to_string n).
Proof.
  unfold number_to_string, NilZero.string_of_int, NilZero.string_of_uint.
  destruct (Z.to_int n) as [d | d].
  - destruct d; try reflexivity; apply string_of_uint_noLineFeed.
  - unfold noLineFeed. rewrite includes_char_cons.
    destruct d; try reflexivity; apply (string_of_uint_noLineFeed).
Qed.

Lemma quoted_noLineFeed (s : string) :
  noLineFeed s → noLineFeed (UseLabelingService.quoted s).
Proof.
  unfold noLineFeed, UseLabelingService.quoted. intros H.
  rewrite !includes_char_app, replaceAll_char_free; [reflexivity | reflexivity | exact H].
Qed.

Lemma csvRow_noLineFeed (r : LabelResult) :
  noLineFeed (itemId r) → noLineFeed (label r) → noLineFeed (reasoning r) →
  noLineFeed (UseLabelingService.csvRow r).
Proof.
  intros Hi Hl Hr. unfold UseLabelingService.csvRow, join.
  unfold noLineFeed in *.
  rewrite !includes_char_app, Hi.
  rewrite (quoted_noLineFeed _ Hl), (quoted_noLineFeed _ Hr).
  rewrite (number_to_string_noLineFeed (confidence r)).
  destruct (needsReview r); reflexivity.
Qed.

Lemma append_assoc_sep (a b : string) (c : ascii) :
  (a +:+ String c EmptyString) +:+ b = a +:+ String c b.
Proof.
  induction a as [|d a IH]; [reflexivity|].
  rewrite !append_cons, IH. reflexivity.
Qed.

(** C5 (as amended).  For a non-empty results list in which no item id,
    label or reasoning contains a line feed, the lines of the exported
    CSV are the header line followed by one row per result, in order;
    so the export has as many lines as there are results, plus one. *)
Theorem csv_lines_are_header_and_rows (rs : list LabelResult) :
  rs ≠ [] →
  Forall (fun r => noLineFeed (itemId r) ∧ noLineFeed (label r)
                   ∧ noLineFeed (reasoning r)) rs →
  lines (UseLabelingService.exportToCsv (stateOf rs))
    = UseLabelingService.csvHeader :: List.map UseLabelingService.csvRow rs
  ∧ length (lines (UseLabelingService.exportToCsv (stateOf rs))) = 1 + length rs.
Proof.
  intros Hne Hall.
  assert (Hlines : lines (UseLabelingService.exportToCsv (stateOf rs))
                   = UseLabelingService.csvHeader
                       :: List.map UseLabelingService.csvRow rs).
  { unfold lines, UseLabelingService.exportToCsv, stateOf; simpl.
    destruct rs as [|r rs]; [congruence|].
    cbn [length Nat.eqb].
    rewrite append_assoc_sep, split_app_sep by reflexivity.
    f_equal. apply split_join; [discriminate|].
    apply List.Forall_forall. intros row Hrow.
    apply in_map_iff in Hrow as (r' & <- & Hin).
    rewrite List.Forall_forall in Hall.
    destruct (Hall r' Hin) as (Hi & Hl & Hr).
    apply csvRow_noLineFeed; assumption. }
  split; [exact Hlines|].
  rewrite Hlines. simpl. rewrite length_map. reflexivity.
Qed.

Lemma csv_lines_are_header_and_rows_witness :
  length (lines (UseLabelingService.exportToCsv (stateOf [plainResult]))) = 2.
Proof.
  refine (proj2 (csv_lines_are_header_and_rows [plainResult] _ _)).
  - discriminate.
  - repeat constructor.
Defined.

(** C5, as stated, fails: a reasoning text that contains a line feed is
    exported verbatim between its quotes, so one result gives three
    lines instead of two. *)
Lemma csv_line_count_counterexample :
  length (lines (UseLabelingService.exportToCsv (stateOf [twoLineResult]))) = 3
  ∧ 1 + length [twoLineResult] = 2.
Proof. split; vm_compute; reflexivity. Qed.

(** ** Batch orchestrator: the loops *)

Lemma splitIntoBatches_total (fuel : nat) (items : list DataItem) (b i : nat) :
  0 < b → length items - i ≤ fuel →
  ∃ batches, splitIntoBatches fuel items b i = Some batches.
Proof.
  intros Hb. revert i.
  induction fuel as [|fuel IH]; intros i Hfuel; simpl.
  - destruct (Nat.ltb_spec i (length items)); [lia | eauto].
  - destruct (Nat.ltb_spec i (length items)); [|eauto].
    destruct (IH (i + b)) as [batches ->]; [lia|].
    simpl. eauto.
Qed.

(** With chunk size 0 and at least one item the first loop never ends. *)
Lemma splitIntoBatches_zero (fuel : nat) (items : list DataItem) (i : nat) :
  i < length items → splitIntoBatches fuel items 0 i = None.
Proof.
  intros Hi. induction fuel as [|fuel IH]; simpl.
  - destruct (Nat.ltb_spec i (length items)); [reflexivity | lia].
  - destruct (Nat.ltb_spec i (length items)); [|lia].
    rewrite Nat.add_0_r, IH. reflexivity.
Qed.

(** Every item sits in exactly the chunk and at the position its index
    determines. *)
Lemma splitIntoBatches_position (fuel : nat) (items : list DataItem) (b i : nat)
    (batches : list (list DataItem)) :
  0 < b →
  splitIntoBatches fuel items b i = Some batches →
  ∀ j item, i ≤ j → items !! j = Some item →
    ∃ k batch p, batches !! k = Some batch ∧ batch !! p = Some item
                 ∧ j = i + k * b + p ∧ p < b ∧ length batch ≤ b.
Proof.
  intros Hb. revert i batches.
  induction fuel as [|fuel IH]; intros i batches Hsplit j item Hij Hj; simpl in Hsplit.
  - pose proof (lookup_lt_Some _ _ _ Hj).
    destruct (Nat.ltb_spec i (length items)); [discriminate | lia].
  - pose proof (lookup_lt_Some _ _ _ Hj).
    destruct (Nat.ltb_spec i (length items)); [|lia].
    destruct (splitIntoBatches fuel items b (i + b)) as [rest|] eqn:Hrest;
      [|discriminate].
    simpl in Hsplit. injection Hsplit as <-.
    destruct (Nat.lt_ge_cases j (i + b)) as [Hlt | Hge].
    + exists 0, (take b (drop i items)), (j - i).
      split; [reflexivity|].
      split; [|split; [lia | split; [lia | rewrite length_take; lia]]].
      rewrite lookup_take_lt by lia. rewrite lookup_drop.
      replace (i + (j - i)) with j by lia. exact Hj.
    + destruct (IH _ _ Hrest j item Hge Hj)
        as (k & batch & p & Hk & Hp & Heq & Hpb & Hlen).
      exists (S k), batch, p. split; [exact Hk|]. split; [exact Hp|].
      split; [lia | split; [exact Hpb | exact Hlen]].
Qed.

Lemma mapBatchResults_acc (batchResults : list json) (batch : list DataItem)
    (index : nat) (acc : list LabelResult) :
  mapBatchResults batchResults batch index acc
  = (acc ++ (mapBatchResults batchResults batch index []).1,
     (mapBatchResults batchResults batch index []).2).
Proof.
  revert index acc.
  induction batch as [|item rest IH]; intros index acc; simpl.
  - rewrite app_nil_r. reflexivity.
  - destruct (truthy (batchResults !! index)); simpl; [|apply IH].
    destruct (batchResults !! index) as [r|]; [|apply IH].
    destruct (batchItemResult item r) as [res | e].
    + rewrite (IH (S index) (acc ++ [res])), (IH (S index) [res]).
      simpl. rewrite <- app_assoc. reflexivity.
    + simpl. rewrite app_nil_r. reflexivity.
Qed.

Lemma batchPath_try_acc (ai : AI) (batch : list DataItem) (st : runState) :
  batchPath_try ai batch st
  = (pushed st ++ (batchPath_try ai batch {| pushed := []; aiCalls := aiCalls st |}).1,
     (batchPath_try ai batch {| pushed := []; aiCalls := aiCalls st |}).2).
Proof.
  unfold batchPath_try. cbn [pushed aiCalls].
  destruct (batch_reply ai (aiCalls st)) as [e | | arr]; cbn [fst snd].
  - rewrite app_nil_r. reflexivity.
  - rewrite app_nil_r. reflexivity.
  - apply mapBatchResults_acc.
Qed.

Lemma processBatch_chunkOutput (ai : AI) (intent : LabelingIntent)
    (st : runState) (batch : list DataItem) :
  processBatch ai intent st batch
  = {| pushed := pushed st ++ chunkOutput ai intent (aiCalls st) batch;
       aiCalls := S (aiCalls st) |}.
Proof.
  unfold chunkOutput, processBatch.
  destruct batch as [|item [|item' rest]]; cbn [pushed aiCalls].
  - rewrite (batchPath_try_acc ai [] st). cbn [aiCalls].
    destruct (batchPath_try ai [] {| pushed := []; aiCalls := aiCalls st |})
      as [res [e|]]; cbn [fst snd pushed]; [rewrite <- app_assoc|]; reflexivity.
  - reflexivity.
  - rewrite (batchPath_try_acc ai (item :: item' :: rest) st). cbn [aiCalls].
    destruct (batchPath_try ai (item :: item' :: rest)
                {| pushed := []; aiCalls := aiCalls st |})
      as [res [e|]]; cbn [fst snd pushed]; [rewrite <- app_assoc|]; reflexivity.
Qed.

Lemma run_chunks (ai : AI) (intent : LabelingIntent)
    (batches : list (list DataItem)) (st : runState) :
  fold_left (processBatch ai intent) batches st
  = {| pushed := pushed st
                 ++ concat (imap (fun k => chunkOutput ai intent (aiCalls st + k)) batches);
       aiCalls := aiCalls st + length batches |}.
Proof.
  revert st. induction batches as [|batch rest IH]; intros st; simpl.
  - rewrite app_nil_r, Nat.add_0_r. destruct st; reflexivity.
  - rewrite IH, processBatch_chunkOutput. simpl.
    rewrite Nat.add_0_r, <- app_assoc. f_equal; [|lia].
    f_equal. f_equal. f_equal. apply imap_ext. intros k batch' _. simpl.
    f_equal. lia.
Qed.

(** The run of the orchestrator, chunk by chunk: for a positive chunk size
    both loops end, every chunk issues one inference call, and the results
    are the contributions of the chunks, in order. *)
Lemma labelDataBatch_run_chunks (items : list DataItem) (intent : LabelingIntent)
    (ai : AI) (batchSize : nat) :
  0 < batchSize →
  ∃ batches,
    splitIntoBatches (length items) items batchSize 0 = Some batches
    ∧ labelDataBatch_run items intent ai batchSize
      = Some {| pushed := concat (imap (chunkOutput ai intent) batches);
                aiCalls := length batches |}.
Proof.
  intros Hb.
  destruct (splitIntoBatches_total (length items) items batchSize 0 Hb)
    as [batches Hsplit]; [lia|].
  exists batches. split; [exact Hsplit|].
  unfold labelDataBatch_run. rewrite Hsplit. simpl.
  rewrite run_chunks. reflexivity.
Qed.

(** A request that passes the checks is labelled: the handler answers 200
    with the result of the orchestrator, after one inference call per
    chunk (chunks of 1 item up to 5 items, of 5 items above). *)
Lemma valid_request_is_labelled (items : list DataItem) (description : string)
    (categories : list string) (guidelines : string) (ai : AI) (clock : Clock) :
  1 ≤ length items ≤ 100 → description ≠ EmptyString → categories ≠ [] →
  ∃ result calls,
    LabelingApi.handleLabelingRequest
      (LabelingApi.JsonBody
         {| LabelingApi.body_data := LabelingApi.DataArray items;
            LabelingApi.body_intent :=
              Some {| LabelingApi.body_datasetDescription := Some description;
                      LabelingApi.body_labelCategories :=
                        LabelingApi.CategoriesArray categories;
                      LabelingApi.body_guidelines := guidelines |} |})
      ai clock
    = Some ({| LabelingApi.status := 200;
               LabelingApi.body := LabelingApi.ResultBody result |}, calls)
    ∧ totalItems result = length items
    ∧ 1 ≤ calls.
Proof.
  intros [Hlo Hhi] Hdesc Hcats. simpl.
  destruct (Nat.eqb_spec (length items) 0) as [|_]; [lia|].
  destruct (Nat.ltb_spec 100 (length items)) as [|_]; [lia|]. simpl.
  destruct (String.eqb_spec description EmptyString) as [|_]; [contradiction|].
  destruct categories as [|c cs]; [contradiction|]. simpl.
  set (batchSize := if Nat.leb (length items) 5 then 1 else 5).
  assert (Hb : 0 < batchSize) by (unfold batchSize; destruct (Nat.leb _ _); lia).
  set (intent := {| datasetDescription := description;
                    labelCategories := c :: cs; guidelines := guidelines |}).
  destruct (labelDataBatch_run_chunks items intent ai batchSize Hb)
    as (batches & Hsplit & Hrun).
  unfold labelDataBatch. rewrite Hrun. simpl.
  eexists _, _. split; [reflexivity|]. simpl. split; [reflexivity|].
  destruct items as [|item items]; [simpl in Hlo; lia|].
  destruct (splitIntoBatches_position _ _ _ _ _ Hb Hsplit 0 item (Nat.le_0_l 0) eq_refl)
    as (k & batch & p & Hk & _).
  apply lookup_lt_Some in Hk. lia.
Qed.

(** ** Batch orchestrator: the results of a chunk *)

Lemma labelDataItem_try_inv (item : DataItem) (intent : LabelingIntent)
    (reply : aiReply (list (string * json))) (r : LabelResult) :
  labelDataItem_try item intent reply = Return r →
  itemId r = id item ∧ needsReview r = lowConfidence r.
Proof.
  unfold labelDataItem_try.
  destruct reply as [e | | fields]; simpl; try discriminate.
  destruct (validatedLabel (JObj fields)) as [l | e]; simpl; [|discriminate].
  destruct (validReasoning (JObj fields)) as [t | e]; simpl; [|discriminate].
  intros [= <-]. split; reflexivity.
Qed.

Lemma labelDataItem_itemId (item : DataItem) (intent : LabelingIntent)
    (reply : aiReply (list (string * json))) :
  itemId (labelDataItem item intent reply) = id item.
Proof.
  unfold labelDataItem.
  destruct (labelDataItem_try item intent reply) as [r | e] eqn:Htry.
  - apply (labelDataItem_try_inv _ _ _ _ Htry).
  - reflexivity.
Qed.

Lemma labelDataItem_agrees (item : DataItem) (intent : LabelingIntent)
    (reply : aiReply (list (string * json))) :
  needsReview (labelDataItem item intent reply)
  = lowConfidence (labelDataItem item intent reply).
Proof.
  unfold labelDataItem.
  destruct (labelDataItem_try item intent reply) as [r | e] eqn:Htry.
  - apply (labelDataItem_try_inv _ _ _ _ Htry).
  - reflexivity.
Qed.

Lemma batchItemResult_inv (item : DataItem) (result : json) (r : LabelResult) :
  batchItemResult item result = Return r →
  itemId r = id item ∧ needsReview r = lowConfidence r.
Proof.
  unfold batchItemResult.
  destruct (validReasoning result) as [t | e]; simpl; [|discriminate].
  destruct (validatedLabel result) as [l | e]; simpl; [|discriminate].
  intros [= <-]. split; reflexivity.
Qed.

Lemma mapBatchResults_agree (batchResults : list json) (batch : list DataItem)
    (index : nat) :
  Forall (fun r => needsReview r = lowConfidence r)
         (mapBatchResults batchResults batch index []).1.
Proof.
  revert index. induction batch as [|item rest IH]; intros index; simpl.
  - constructor.
  - destruct (truthy (batchResults !! index)); simpl; [|apply IH].
    destruct (batchResults !! index) as [r|]; [|apply IH].
    destruct (batchItemResult item r) as [res | e] eqn:Hres; [|constructor].
    rewrite mapBatchResults_acc. simpl. constructor; [|apply IH].
    apply (batchItemResult_inv _ _ _ Hres).
Qed.

Lemma chunkOutput_agree (ai : AI) (intent : LabelingIntent) (k : nat)
    (batch : list DataItem) :
  Forall (fun r => needsReview r = lowConfidence r) (chunkOutput ai intent k batch).
Proof.
  assert (Herr : ∀ e l, Forall (fun r => needsReview r = lowConfidence r)
                          (List.map (batchErrorResult e) l)).
  { intros e l. induction l; simpl; constructor; [reflexivity | assumption]. }
  assert (Hbatch : ∀ b,
    Forall (fun r => needsReview r = lowConfidence r)
      (pushed match batchPath_try ai b {| pushed := []; aiCalls := k |} with
              | (res, None) => {| pushed := res; aiCalls := S k |}
              | (res, Some error) =>
                  {| pushed := res ++ List.map (batchErrorResult error) b;
                     aiCalls := S k |}
              end)).
  { intros b. unfold batchPath_try. cbn [pushed aiCalls].
    destruct (batch_reply ai k) as [e | | arr].
    - simpl. apply Herr.
    - simpl. apply Herr.
    - pose proof (mapBatchResults_agree arr b 0) as Hmap.
      destruct (mapBatchResults arr b 0 []) as [res [e|]]; simpl in *.
      + apply Forall_app. split; [exact Hmap | apply Herr].
      + exact Hmap. }
  unfold chunkOutput, processBatch.
  destruct batch as [|item [|item' rest]]; cbn [aiCalls].
  - apply Hbatch.
  - simpl. constructor; [apply labelDataItem_agrees | constructor].
  - apply Hbatch.
Qed.

Lemma filter_agree {A : Type} (p q : A → bool) (l : list A) :
  Forall (fun a => p a = q a) l → List.filter p l = List.filter q l.
Proof.
  induction 1 as [|a l Ha _ IH]; simpl; [reflexivity|].
  rewrite Ha, IH. reflexivity.
Qed.

Lemma Forall_concat_imap {A B : Type} (P : B → Prop) (f : nat → A → list B)
    (l : list A) :
  (∀ k a, Forall P (f k a)) → Forall P (concat (imap f l)).
Proof.
  intros Hf. revert f Hf. induction l as [|a l IH]; intros f Hf; simpl.
  - constructor.
  - apply Forall_app. split; [apply Hf | apply IH]. intros k a'. apply Hf.
Qed.

(** ** The review counter *)

(** C3 (as amended).  The [reviewNeeded] field that the orchestrator
    returns is the number of its results with [needsReview] set, which at
    that point is also the number of results with a confidence below 70;
    after a human label update [reviewNeeded] is recomputed as the number
    of results with [needsReview] set. *)
Theorem reviewNeeded_counts_needsReview :
  (∀ items intent ai batchSize clock out,
     labelDataBatch items intent ai batchSize clock = Some out →
     reviewNeeded out = length (List.filter needsReview (results out))
     ∧ reviewNeeded out = length (List.filter lowConfidence (results out)))
  ∧ (∀ state itemId' newLabel state',
       UseLabelingService.updateLabel (Some state) itemId' newLabel = Some state' →
       reviewNeeded state' = length (List.filter needsReview (results state'))).
Proof.
  split.
  - intros items intent ai batchSize clock out.
    unfold labelDataBatch, labelDataBatch_run.
    destruct (splitIntoBatches (length items) items batchSize 0) as [batches|];
      simpl; [|discriminate].
    intros [= <-]. simpl. split; [reflexivity|].
    f_equal. apply filter_agree.
    rewrite run_chunks. simpl.
    apply Forall_concat_imap. intros k batch. apply chunkOutput_agree.
  - intros state itemId' newLabel state'. simpl. intros [= <-]. reflexivity.
Qed.

Lemma reviewNeeded_counts_needsReview_witness :
  ∃ out, labelDataBatch [item0] bugIntent confidentAI 1 sampleClock = Some out
         ∧ reviewNeeded out = length (List.filter needsReview (results out))
         ∧ reviewNeeded out = length (List.filter lowConfidence (results out)).
Proof.
  eexists. split; [reflexivity|].
  apply (proj1 reviewNeeded_counts_needsReview
           [item0] bugIntent confidentAI 1 sampleClock).
  reflexivity.
Defined.

(** C3, as stated, fails.  After a failed backfill the state that
    [labelData] stores still carries the orchestrator's count 0, while one
    result (the backfilled placeholder, confidence 60) is below 70.  After
    a backfill with confidence 85 and a human update, [reviewNeeded] is
    recomputed to 1 (the backfilled label keeps [needsReview]) while no
    result is below 70. *)
Lemma reviewNeeded_counterexample :
  reviewNeeded <$> afterFailedBackfill = Some 0
  ∧ lowConfidenceCount <$> afterFailedBackfill = Some 1
  ∧ reviewNeeded <$> afterHumanUpdate = Some 1
  ∧ lowConfidenceCount <$> afterHumanUpdate = Some 0.
Proof. repeat split; vm_compute; reflexivity. Qed.

(** ** Chunk failures *)



(** *** Failures, read off the replies *)

Lemma validReasoning_outcome (r : json) :
  match validReasoning r with
  | Return _ => reasoningFails r = false
  | Throw _ => reasoningFails r = true
  end.
Proof.
  unfold validReasoning, reasoningFails.
  destruct (get_prop r "reasoning") as [[| [|] | n | s | l | f]|]; simpl;
    try reflexivity.
  - destruct (Z.eqb n 0); reflexivity.
  - destruct (String.eqb s EmptyString); simpl; [reflexivity|].
    destruct (Nat.eqb (String.length (trim s)) 0); reflexivity.
Qed.

Lemma echoed_empty : echoed EmptyString = false.
Proof. reflexivity. Qed.

Lemma validatedLabel_outcome (r : json) :
  match validatedLabel r with
  | Return _ => labelFails r = false
  | Throw _ => labelFails r = true
  end.
Proof.
  assert (Hbind : ∀ s, (mret s ≫= fun label0 => fixLabelFormat label0)
                       = fixLabelFormat s) by reflexivity.
  assert (Hempty : (mret EmptyString ≫= fun label0 => fixLabelFormat label0)
                   = Return EmptyString).
  { rewrite Hbind. apply fixLabelFormat_other, echoed_empty. }
  unfold validatedLabel, labelFails.
  destruct (get_prop r "label") as [[| [|] | n | s | l | f]|];
    cbn [truthy isString negb andb orb];
    rewrite ?Hempty; try reflexivity.
  - destruct (Z.eqb n 0); cbn [negb andb orb]; rewrite ?Hempty; reflexivity.
  - destruct (String.eqb_spec s EmptyString) as [-> | Hs]; cbn [negb andb orb].
    + rewrite Hempty. reflexivity.
    + rewrite Hbind. destruct (echoed s) eqn:He.
      * rewrite (fixLabelFormat_echoed s He). reflexivity.
      * rewrite (fixLabelFormat_other s He). reflexivity.
Qed.

(** An entry of a batch response is mapped to a result exactly when it
    does not fail. *)
Lemma batchItemResult_outcome (item : DataItem) (r : json) :
  match batchItemResult item r with
  | Return _ => entryFails r = false
  | Throw _ => entryFails r = true
  end.
Proof.
  unfold batchItemResult, entryFails.
  pose proof (validReasoning_outcome r) as Hr.
  pose proof (validatedLabel_outcome r) as Hl.
  destruct (validReasoning r) as [reasoning' | e]; simpl; rewrite Hr; [|reflexivity].
  destruct (validatedLabel r) as [label' | e]; simpl; exact Hl.
Qed.

(** So is the object of a single-item response. *)
Lemma labelDataItem_try_outcome (item : DataItem) (intent : LabelingIntent)
    (fields : list (string * json)) :
  match labelDataItem_try item intent (Parsed fields) with
  | Return _ => entryFails (JObj fields) = false
  | Throw _ => entryFails (JObj fields) = true
  end.
Proof.
  unfold labelDataItem_try, entryFails.
  pose proof (validReasoning_outcome (JObj fields)) as Hr.
  pose proof (validatedLabel_outcome (JObj fields)) as Hl.
  cbn [mbind completion_bind mret completion_ret].
  destruct (validatedLabel (JObj fields)) as [label' | e];
    cbn [mbind completion_bind]; rewrite Hl; [|apply orb_true_r].
  destruct (validReasoning (JObj fields)) as [reasoning' | e];
    cbn [mbind completion_bind]; rewrite Hr; reflexivity.
Qed.

Lemma take_drop_step {A : Type} (l : list A) (n index : nat) :
  take (S n) (drop index l)
  = match l !! index with
    | Some x => x :: take n (drop (S index) l)
    | None => []
    end.
Proof.
  destruct (l !! index) as [x|] eqn:Hx.
  - rewrite (drop_S _ _ _ Hx). reflexivity.
  - rewrite (drop_ge l index) by (apply lookup_ge_None_1, Hx). reflexivity.
Qed.

(** The mapping of a chunk raises no exception exactly when none of the
    entries it reads is truthy and fails. *)
Lemma mapBatchResults_raises (batchResults : list json) (batch : list DataItem)
    (index : nat) :
  (mapBatchResults batchResults batch index []).2 = None
  ↔ existsb (fun r => truthy (Some r) && entryFails r)
      (take (length batch) (drop index batchResults)) = false.
Proof.
  revert index. induction batch as [|item rest IH]; intros index.
  - simpl. split; reflexivity.
  - cbn [length]. rewrite take_drop_step. cbn [mapBatchResults].
    destruct (batchResults !! index) as [r|] eqn:Hr; cbn zeta.
    + cbn [existsb]. destruct (truthy (Some r)) eqn:Ht; cbn [negb andb orb].
      * pose proof (batchItemResult_outcome item r) as Hout.
        destruct (batchItemResult item r) as [res | e].
        -- rewrite mapBatchResults_acc. cbn [snd]. rewrite Hout. apply IH.
        -- rewrite Hout. simpl. split; discriminate.
      * apply IH.
    + simpl. rewrite (IH (S index)).
      rewrite (drop_ge batchResults (S index))
        by (apply lookup_ge_None_1 in Hr; lia).
      rewrite take_nil. simpl. tauto.
Qed.

Lemma mapBatchResults_mappingFails (batchResults : list json) (batch : list DataItem) :
  (mapBatchResults batchResults batch 0 []).2 = None
  ↔ mappingFails batchResults (length batch) = false.
Proof. rewrite mapBatchResults_raises, drop_0. reflexivity. Qed.

(** What the mapping has pushed: for each result an item of the chunk,
    whose entry is truthy; when the mapping stops at an exception, fewer
    results than items. *)
Lemma mapBatchResults_sources (batchResults : list json) (batch : list DataItem)
    (index : nat) :
  Forall (fun r => ∃ p item, batch !! p = Some item
                             ∧ itemId r = id item
                             ∧ needsReview r = lowConfidence r
                             ∧ truthy (batchResults !! (index + p)) = true)
         (mapBatchResults batchResults batch index []).1
  ∧ length (mapBatchResults batchResults batch index []).1
    + match (mapBatchResults batchResults batch index []).2 with
      | Some _ => 1
      | None => 0
      end
    ≤ length batch.
Proof.
  revert index. induction batch as [|item rest IH]; intros index.
  - simpl. split; [constructor | lia].
  - destruct (IH (S index)) as [IHs IHl].
    assert (Hshift : Forall (fun r => ∃ p item0, (item :: rest) !! p = Some item0
                             ∧ itemId r = id item0
                             ∧ needsReview r = lowConfidence r
                             ∧ truthy (batchResults !! (index + p)) = true)
                       (mapBatchResults batchResults rest (S index) []).1).
    { eapply Forall_impl; [exact IHs|]. intros r (p & item0 & Hp & Hid & Hrev & Ht).
      exists (S p), item0. split; [exact Hp|]. split; [exact Hid|].
      split; [exact Hrev|].
      replace (index + S p) with (S index + p) by lia. exact Ht. }
    cbn [mapBatchResults length].
    destruct (truthy (batchResults !! index)) eqn:Ht; cbn [negb].
    + destruct (batchResults !! index) as [r|] eqn:Hr; [|discriminate].
      destruct (batchItemResult item r) as [res | e] eqn:Hres.
      * rewrite mapBatchResults_acc. cbn [fst snd]. split.
        -- apply Forall_app. split; [|exact Hshift].
           repeat constructor. exists 0, item.
           destruct (batchItemResult_inv _ _ _ Hres) as [Hid Hrev].
           split; [reflexivity|]. split; [exact Hid|]. split; [exact Hrev|].
           rewrite Nat.add_0_r, Hr. exact Ht.
        -- rewrite length_app. simpl. lia.
      * simpl. split; [constructor | lia].
    + split; [exact Hshift | lia].
Qed.

(** An exception is raised in a chunk exactly when its call fails or an
    entry of its response cannot be mapped. *)
Lemma chunkRaises_iff (ai : AI) (intent : LabelingIntent) (k : nat)
    (batch : list DataItem) :
  (∃ e, chunkRaises ai intent k batch e)
  ↔ (∃ e, callFails ai k batch e) ∨ mappingRaises ai k batch.
Proof.
  assert (Hbatch :
    (∃ e, (batchPath_try ai batch {| pushed := []; aiCalls := k |}).2 = Some e)
    ↔ (∃ e, batch_reply ai k = Rejected e
            ∨ (batch_reply ai k = NoMatch
               ∧ e = ErrorObject "Failed to parse AI batch response"))
      ∨ ∃ batchResults, batch_reply ai k = Parsed batchResults
                        ∧ mappingFails batchResults (length batch) = true).
  { unfold batchPath_try. cbn [pushed aiCalls].
    destruct (batch_reply ai k) as [e0 | | arr] eqn:Hreply.
    - split; [|eauto]. intros _. left. exists e0. left. reflexivity.
    - split; [|eauto]. intros _. left. eexists. right. split; reflexivity.
    - pose proof (mapBatchResults_mappingFails arr batch) as Hiff.
      split.
      + intros [e He]. right. exists arr. split; [reflexivity|].
        destruct (mappingFails arr (length batch)); [reflexivity|].
        rewrite (proj2 Hiff eq_refl) in He. discriminate.
      + intros [[e [H | [H _]]] | (arr' & [= <-] & Hfail)]; try discriminate.
        destruct (mapBatchResults arr batch 0 []).2 as [e|]; [eauto|].
        rewrite (proj1 Hiff eq_refl) in Hfail. discriminate. }
  unfold chunkRaises, callFails, mappingRaises.
  destruct batch as [|item [|item' rest]]; [exact Hbatch | | exact Hbatch].
  destruct (single_reply ai k) as [e0 | | fields] eqn:Hreply.
  - split; [|intros _; exists e0; reflexivity].
    intros _. left. exists e0. left. reflexivity.
  - split; [|intros _; eexists; reflexivity].
    intros _. left. eexists. right. split; reflexivity.
  - pose proof (labelDataItem_try_outcome item intent fields) as Hout.
    split.
    + intros [e He]. right. exists fields. split; [reflexivity|].
      rewrite He in Hout. exact Hout.
    + intros [[e [H | [H _]]] | (fields' & [= <-] & Hfail)]; try discriminate.
      destruct (labelDataItem_try item intent (Parsed fields)) as [r | e]; [|eauto].
      congruence.
Qed.






(** The first chunk fails, the second is labelled all the same. *)
Example flaky_run_labels :
  (fun st => List.map label (pushed st))
    <$> labelDataBatch_run [item0; item1] bugIntent flakyAI 1
  = Some ["Error: Needs Manual Review"; "Issue Type: Bug"].
Proof. vm_compute. reflexivity. Qed.

(** ** Coverage of the items by the orchestrator *)

Lemma mapBatchResults_covers (batchResults : list json) (batch : list DataItem)
    (index : nat) (res : list LabelResult) :
  mapBatchResults batchResults batch index [] = (res, None) →
  ∀ p item, batch !! p = Some item →
            truthy (batchResults !! (index + p)) = true →
            covered res item.
Proof.
  revert index res.
  induction batch as [|first rest IH]; intros index res Hmap p item Hp Htruthy.
  - rewrite lookup_nil in Hp. discriminate.
  - simpl in Hmap.
    destruct (truthy (batchResults !! index)) eqn:Ht; simpl in Hmap.
    + destruct (batchResults !! index) as [r|] eqn:Hr; [|discriminate].
      destruct (batchItemResult first r) as [res0 | e] eqn:Hres; [|discriminate].
      rewrite mapBatchResults_acc in Hmap.
      destruct (mapBatchResults batchResults rest (S index) []) as [res' oe] eqn:Hrest.
      simpl in Hmap. injection Hmap as <- ->.
      destruct p as [|p]; simpl in Hp.
      * injection Hp as <-. exists res0. split; [left; reflexivity|].
        apply (batchItemResult_inv _ _ _ Hres).
      * destruct (IH (S index) res' Hrest p item Hp) as (r' & Hin & Hid).
        { replace (S index + p) with (index + S p) by lia. exact Htruthy. }
        exists r'. split; [right; exact Hin | exact Hid].
    + destruct p as [|p]; simpl in Hp.
      * rewrite Nat.add_0_r, Ht in Htruthy. discriminate.
      * apply (IH (S index) res Hmap p item Hp).
        replace (S index + p) with (index + S p) by lia. exact Htruthy.
Qed.

Lemma covered_app_r (l1 l2 : list LabelResult) (item : DataItem) :
  covered l2 item → covered (l1 ++ l2) item.
Proof.
  intros (r & Hin & Hid). exists r. split; [|exact Hid].
  apply in_app_iff. right. exact Hin.
Qed.

Lemma batchErrorResult_covers (e : thrown) (batch : list DataItem) (p : nat)
    (item : DataItem) :
  batch !! p = Some item → covered (List.map (batchErrorResult e) batch) item.
Proof.
  intros Hp. exists (batchErrorResult e item). split; [|reflexivity].
  apply in_map, list_elem_of_In, list_elem_of_lookup. eauto.
Qed.

Lemma mapBatchResults_ids (batchResults : list json) (batch : list DataItem)
    (index : nat) :
  Forall (fun r => ∃ item, In item batch ∧ itemId r = id item)
         (mapBatchResults batchResults batch index []).1.
Proof.
  revert index. induction batch as [|item rest IH]; intros index; simpl.
  - constructor.
  - assert (Hrest : ∀ i, Forall (fun r => ∃ it, In it (item :: rest) ∧ itemId r = id it)
                           (mapBatchResults batchResults rest i []).1).
    { intros i. eapply Forall_impl; [apply IH|].
      intros r (it & Hin & Hid). exists it. split; [right; exact Hin | exact Hid]. }
    destruct (truthy (batchResults !! index)); simpl; [|apply Hrest].
    destruct (batchResults !! index) as [r|]; [|apply Hrest].
    destruct (batchItemResult item r) as [res | e] eqn:Hres; [|constructor].
    rewrite mapBatchResults_acc. simpl. constructor; [|apply Hrest].
    exists item. split; [left; reflexivity | apply (batchItemResult_inv _ _ _ Hres)].
Qed.

Lemma chunkOutput_ids (ai : AI) (intent : LabelingIntent) (k : nat)
    (batch : list DataItem) :
  Forall (fun r => ∃ item, In item batch ∧ itemId r = id item)
         (chunkOutput ai intent k batch).
Proof.
  assert (Herr : ∀ e, Forall (fun r => ∃ item, In item batch ∧ itemId r = id item)
                        (List.map (batchErrorResult e) batch)).
  { intros e. apply List.Forall_forall. intros r Hr.
    apply in_map_iff in Hr as (item & <- & Hin). exists item. split; [exact Hin | reflexivity]. }
  assert (Hbatch :
    Forall (fun r => ∃ item, In item batch ∧ itemId r = id item)
      (pushed match batchPath_try ai batch {| pushed := []; aiCalls := k |} with
              | (res, None) => {| pushed := res; aiCalls := S k |}
              | (res, Some error) =>
                  {| pushed := res ++ List.map (batchErrorResult error) batch;
                     aiCalls := S k |}
              end)).
  { unfold batchPath_try. cbn [pushed aiCalls].
    destruct (batch_reply ai k) as [e | | arr].
    - simpl. apply Herr.
    - simpl. apply Herr.
    - pose proof (mapBatchResults_ids arr batch 0) as Hmap.
      destruct (mapBatchResults arr batch 0 []) as [res [e|]]; simpl in *.
      + apply Forall_app. split; [exact Hmap | apply Herr].
      + exact Hmap. }
  unfold chunkOutput, processBatch.
  destruct batch as [|item [|item' rest]]; cbn [aiCalls].
  - apply Hbatch.
  - simpl. constructor; [|constructor].
    exists item. split; [left; reflexivity | apply labelDataItem_itemId].
  - apply Hbatch.
Qed.

(** An item of a chunk gets a result, unless the chunk has several
    items, the parsed array has no entry at the item's position and no
    exception is raised while the chunk is mapped. *)
Lemma chunk_covers (ai : AI) (intent : LabelingIntent) (k : nat)
    (batch : list DataItem) (p : nat) (item : DataItem) :
  batch !! p = Some item →
  covered (chunkOutput ai intent k batch) item
  ∨ (length batch ≠ 1
     ∧ ∃ batchResults, batch_reply ai k = Parsed batchResults
                       ∧ truthy (batchResults !! p) = false
                       ∧ mappingFails batchResults (length batch) = false).
Proof.
  intros Hp.
  assert (Hbatch : length batch ≠ 1 →
    covered
      (pushed match batchPath_try ai batch {| pushed := []; aiCalls := k |} with
              | (res, None) => {| pushed := res; aiCalls := S k |}
              | (res, Some error) =>
                  {| pushed := res ++ List.map (batchErrorResult error) batch;
                     aiCalls := S k |}
              end) item
    ∨ (length batch ≠ 1
       ∧ ∃ batchResults, batch_reply ai k = Parsed batchResults
                         ∧ truthy (batchResults !! p) = false
                         ∧ mappingFails batchResults (length batch) = false)).
  { intros Hlen. unfold batchPath_try. cbn [pushed aiCalls].
    destruct (batch_reply ai k) as [e | | arr] eqn:Hreply.
    - left. simpl. apply (batchErrorResult_covers _ _ _ _ Hp).
    - left. simpl. apply (batchErrorResult_covers _ _ _ _ Hp).
    - destruct (mapBatchResults arr batch 0 []) as [res [e|]] eqn:Hmap; simpl.
      + left. apply covered_app_r, (batchErrorResult_covers _ _ _ _ Hp).
      + destruct (truthy (arr !! p)) eqn:Ht.
        * left. apply (mapBatchResults_covers _ _ _ _ Hmap p item Hp Ht).
        * right. split; [exact Hlen|]. exists arr.
          split; [reflexivity|]. split; [exact Ht|].
          apply mapBatchResults_mappingFails. rewrite Hmap. reflexivity. }
  unfold chunkOutput, processBatch.
  destruct batch as [|item1 [|item2 rest]]; cbn [aiCalls].
  - apply Hbatch. discriminate.
  - left. destruct p as [|p]; simpl in Hp; [|rewrite lookup_nil in Hp; discriminate].
    injection Hp as <-. simpl.
    eexists. split; [left; reflexivity | apply labelDataItem_itemId].
  - apply Hbatch. discriminate.
Qed.

(** In a chunk of several items whose response parsed and whose mapping
    raises no exception, every result comes from an item whose entry is
    truthy. *)
Lemma chunk_results_have_entries (ai : AI) (intent : LabelingIntent) (k : nat)
    (batch : list DataItem) (batchResults : list json) :
  length batch ≠ 1 →
  batch_reply ai k = Parsed batchResults →
  mappingFails batchResults (length batch) = false →
  Forall (fun r => ∃ p item, batch !! p = Some item
                             ∧ itemId r = id item
                             ∧ truthy (batchResults !! p) = true)
         (chunkOutput ai intent k batch).
Proof.
  intros Hlen Hreply Hok.
  assert (Hbatch :
    Forall (fun r => ∃ p item, batch !! p = Some item
                               ∧ itemId r = id item
                               ∧ truthy (batchResults !! p) = true)
      (pushed match batchPath_try ai batch {| pushed := []; aiCalls := k |} with
              | (res, None) => {| pushed := res; aiCalls := S k |}
              | (res, Some error) =>
                  {| pushed := res ++ List.map (batchErrorResult error) batch;
                     aiCalls := S k |}
              end)).
  { unfold batchPath_try. cbn [pushed aiCalls]. rewrite Hreply.
    destruct (mapBatchResults_sources batchResults batch 0) as [Hsrc _].
    apply mapBatchResults_mappingFails in Hok.
    destruct (mapBatchResults batchResults batch 0 []) as [res oe].
    cbn [fst snd] in *. subst oe. simpl.
    eapply Forall_impl; [exact Hsrc|].
    intros r (p & item & Hp & Hid & _ & Ht). eauto. }
  unfold chunkOutput, processBatch.
  destruct batch as [|item1 [|item2 rest]]; cbn [aiCalls];
    [exact Hbatch | contradiction | exact Hbatch].
Qed.

(** The chunk number [k] is the slice of the items that starts at
    position [k * batchSize]. *)
Lemma splitIntoBatches_lookup (fuel : nat) (items : list DataItem) (b i : nat)
    (batches : list (list DataItem)) (k : nat) (batch : list DataItem) :
  splitIntoBatches fuel items b i = Some batches →
  batches !! k = Some batch →
  batch = take b (drop (i + k * b) items).
Proof.
  revert i batches k.
  induction fuel as [|fuel IH]; intros i batches k; simpl;
    destruct (Nat.ltb i (length items)); try discriminate;
    try (intros [= <-] Hk; rewrite lookup_nil in Hk; discriminate).
  destruct (splitIntoBatches fuel items b (i + b)) as [rest|] eqn:Hrest;
    simpl; [|discriminate].
  intros [= <-]. destruct k as [|k]; simpl.
  - intros [= <-]. rewrite Nat.add_0_r. reflexivity.
  - intros Hk. rewrite (IH _ _ _ Hrest Hk). do 2 f_equal. lia.
Qed.

(** C2 (as amended).  For every positive chunk size (1 and 5 among them)
    and every list of items the orchestrator returns, and every input
    item has at least one result carrying its id, except the items it
    skips: the items of a chunk of several items whose response parsed
    into an array that has no (truthy) entry at the item's position and
    no entry that fails while the chunk is mapped.  A skipped item gets
    no result: unless another item has the same id, no result carries its
    id.  The item of a chunk of one item (every chunk at size 1, or a last
    chunk of one item) and the items of a chunk in which an exception is
    raised are never skipped: they have a result. *)
Theorem items_labelled_unless_entry_missing (items : list DataItem)
    (intent : LabelingIntent) (ai : AI) (batchSize : nat) (clock : Clock) :
  0 < batchSize →
  ∃ out,
    labelDataBatch items intent ai batchSize clock = Some out
    ∧ ∀ i item,
        items !! i = Some item →
        (covered (results out) item ∨ skipped ai items batchSize i)
        ∧ (skipped ai items batchSize i →
           (∀ j other, items !! j = Some other → id other = id item → j = i) →
           ¬ covered (results out) item)
        ∧ (length (chunkOf items batchSize i) = 1 → covered (results out) item)
        ∧ ((∃ e, chunkRaises ai intent (i / batchSize) (chunkOf items batchSize i) e) →
           covered (results out) item)
        ∧ (batchSize = 1 → covered (results out) item).
Proof.
  intros Hb.
  destruct (labelDataBatch_run_chunks items intent ai batchSize Hb)
    as (batches & Hsplit & Hrun).
  unfold labelDataBatch. rewrite Hrun. simpl.
  eexists. split; [reflexivity|]. simpl.
  assert (Hchunk : ∀ k batch, batches !! k = Some batch →
                     batch = take batchSize (drop (k * batchSize) items)).
  { intros k batch Hk. apply (splitIntoBatches_lookup _ _ _ _ _ _ _ Hsplit Hk). }
  intros i item Hi.
  assert (Hmain :
    covered (concat (imap (chunkOutput ai intent) batches)) item
    ∨ skipped ai items batchSize i).
  { destruct (splitIntoBatches_position _ _ _ _ _ Hb Hsplit i item (Nat.le_0_l i) Hi)
      as (k & batch & p & Hk & Hp & Heq & Hpb & Hlen).
    assert (Hdiv : k = i / batchSize).
    { apply (Nat.div_unique i batchSize k p Hpb). lia. }
    assert (Hmod : p = i mod batchSize).
    { apply (Nat.mod_unique i batchSize k p Hpb). lia. }
    destruct (chunk_covers ai intent k batch p item Hp)
      as [(r & Hin & Hid) | (Hne & arr & Hreply & Hfalsy & Hok)].
    - left. exists r. split; [|exact Hid].
      apply in_concat. exists (chunkOutput ai intent k batch).
      split; [|exact Hin].
      apply list_elem_of_In.
      apply (elem_of_lookup_imap_2 (chunkOutput ai intent) batches batch k Hk).
    - right. unfold skipped, chunkOf. rewrite <- Hdiv, <- Hmod, <- (Hchunk k batch Hk).
      split; [exact Hne|]. exists arr. repeat split; assumption. }
  split; [exact Hmain|]. split; [|split; [|split]].
  - intros (Hne & arr & Hreply & Hfalsy & Hok) Hunique (r & Hin & Hid).
    apply in_concat in Hin as (chunk & Hchunk' & Hin).
    apply list_elem_of_In, elem_of_lookup_imap_1 in Hchunk'
      as (k' & batch' & -> & Hk').
    pose proof (chunkOutput_ids ai intent k' batch') as Hids.
    rewrite List.Forall_forall in Hids.
    (* the result comes from an item of the chunk of [item] *)
    assert (Hsame : k' = i / batchSize ∧ batch' = chunkOf items batchSize i).
    { destruct (Hids r Hin) as (item' & Hitem' & Hid').
      apply list_elem_of_In, list_elem_of_lookup in Hitem' as [p' Hp'].
      pose proof (Hchunk k' batch' Hk') as Hb'.
      pose proof Hp' as Hp''. rewrite Hb' in Hp''.
      apply lookup_take_Some in Hp'' as [Hp'' Hlt]. rewrite lookup_drop in Hp''.
      assert (Hpos : k' * batchSize + p' = i).
      { apply (Hunique _ item' Hp''). congruence. }
      assert (Hdiv : k' = i / batchSize).
      { apply (Nat.div_unique i batchSize k' p' Hlt). lia. }
      split; [exact Hdiv|]. unfold chunkOf. rewrite <- Hdiv. exact Hb'. }
    destruct Hsame as [-> ->].
    (* and from a position of the chunk whose entry is truthy *)
    pose proof (chunk_results_have_entries ai intent _ _ arr Hne Hreply Hok) as Hent.
    rewrite List.Forall_forall in Hent.
    destruct (Hent r Hin) as (p & item' & Hp & Hid' & Ht).
    unfold chunkOf in Hp. apply lookup_take_Some in Hp as [Hp Hlt].
    rewrite lookup_drop in Hp.
    assert (Hpos : i / batchSize * batchSize + p = i).
    { apply (Hunique _ item' Hp). congruence. }
    assert (Hmod : p = i mod batchSize).
    { apply (Nat.mod_unique i batchSize (i / batchSize) p Hlt). lia. }
    rewrite <- Hmod, Ht in Hfalsy. discriminate.
  - intros Hone. destruct Hmain as [Hc | [Hne _]]; [exact Hc | contradiction].
  - intros Hraises.
    destruct Hmain as [Hc | (Hne & arr & Hreply & _ & Hok)]; [exact Hc|].
    exfalso. apply chunkRaises_iff in Hraises.
    unfold callFails, mappingRaises in Hraises.
    destruct (chunkOf items batchSize i) as [|item1 [|item2 rest]];
      [|contradiction|];
      destruct Hraises as [[e [He | [He _]]] | (arr' & Harr' & Hfails)];
      congruence.
  - intros ->. destruct Hmain as [Hc | [Hne _]]; [exact Hc|].
    exfalso. apply Hne. unfold chunkOf.
    rewrite length_take, length_drop, Nat.div_1_r, Nat.mul_1_r.
    apply lookup_lt_Some in Hi. lia.
Qed.

Lemma items_labelled_unless_entry_missing_witness :
  0 < 5
  ∧ ∃ out,
      labelDataBatch [item0; item1] bugIntent truncatedAI 5 sampleClock = Some out
      ∧ List.map outline (results out) = [("item-0", "Issue Type: Bug", 92%Z)]
      ∧ covered (results out) item0
      ∧ skipped truncatedAI [item0; item1] 5 1
      ∧ ¬ covered (results out) item1.
Proof.
  split; [lia|].
  destruct (items_labelled_unless_entry_missing [item0; item1] bugIntent
              truncatedAI 5 sampleClock) as (out & Hout & Hitems); [lia|].
  assert (Hskipped : skipped truncatedAI [item0; item1] 5 1).
  { split; [discriminate|]. exists [bugEntry]. repeat split. }
  exists out. split; [exact Hout|].
  split; [injection Hout as <-; reflexivity|].
  split; [|split; [exact Hskipped|]].
  - destruct (Hitems 0 item0 eq_refl)
      as [[Hc | (_ & arr & Hreply & Hfalsy & _)] _]; [exact Hc|].
    injection Hreply as <-. discriminate Hfalsy.
  - destruct (Hitems 1 item1 eq_refl) as (_ & Hnone & _).
    apply (Hnone Hskipped).
    intros [|[|j]] other Hj Hid; [|reflexivity|discriminate Hj].
    injection Hj as <-. discriminate Hid.
Defined.

(** C2, as stated, fails: two items in one chunk of size 5, a response
    that parses into the empty array: the orchestrator returns no result
    at all, so no result carries the id of the first item. *)
Lemma items_without_result_counterexample :
  results <$> labelDataBatch [item0; item1] bugIntent emptyArrayAI 5 sampleClock
    = Some []
  ∧ ¬ covered [] item0.
Proof.
  split; [vm_compute; reflexivity|].
  intros (r & Hin & _). exact Hin.
Qed.

(** ** Coverage enhancer: grouping by item *)

Section Enhancer.
Import IntentCapture.

Lemma fold_addKey_elem (l acc : list string) (k : string) :
  k ∈ fold_left addKey l acc ↔ k ∈ acc ∨ k ∈ l.
Proof.
  revert acc. induction l as [|x l IH]; intros acc; simpl.
  - rewrite elem_of_nil. tauto.
  - rewrite IH, elem_of_cons. unfold addKey. case_bool_decide as Hx.
    + split; [tauto|]. intros [H | [-> | H]]; tauto.
    + rewrite elem_of_app, list_elem_of_singleton. tauto.
Qed.

Lemma fold_addKey_NoDup (l acc : list string) :
  NoDup acc → NoDup (fold_left addKey l acc).
Proof.
  revert acc. induction l as [|x l IH]; intros acc Hacc; simpl; [exact Hacc|].
  apply IH. unfold addKey. case_bool_decide as Hx; [exact Hacc|].
  apply NoDup_app. split; [exact Hacc|]. split.
  - intros y Hy Hyx. apply list_elem_of_singleton in Hyx. subst. contradiction.
  - apply NoDup_singleton.
Qed.

Lemma keysOf_NoDup (rs : list LabelResult) : NoDup (keysOf rs).
Proof. apply fold_addKey_NoDup, NoDup_nil_2. Qed.

Lemma keysOf_elem (rs : list LabelResult) (k : string) :
  k ∈ keysOf rs ↔ ∃ r, In r rs ∧ itemId r = k.
Proof.
  unfold keysOf. rewrite fold_addKey_elem, elem_of_nil, list_elem_of_In, in_map_iff.
  split.
  - intros [[] | (r & Hid & Hin)]. eauto.
  - intros (r & Hin & Hid). right. eauto.
Qed.

Lemma keysOf_snoc (pre : list LabelResult) (r : LabelResult) :
  keysOf (pre ++ [r]) = addKey (keysOf pre) (itemId r).
Proof. unfold keysOf. rewrite map_app, fold_left_app. reflexivity. Qed.

Lemma resultsOf_snoc (k : string) (pre : list LabelResult) (r : LabelResult) :
  resultsOf k (pre ++ [r])
  = resultsOf k pre ++ (if String.eqb (itemId r) k then [r] else []).
Proof. unfold resultsOf. rewrite List.filter_app. reflexivity. Qed.

Lemma resultsOf_no_key (k : string) (rs : list LabelResult) :
  k ∉ keysOf rs → resultsOf k rs = [].
Proof.
  intros Hk. unfold resultsOf.
  induction rs as [|r rs IH] using rev_ind; [reflexivity|].
  rewrite keysOf_snoc in Hk. rewrite List.filter_app. simpl.
  unfold addKey in Hk. case_bool_decide as Hr.
  - rewrite (IH Hk).
    destruct (String.eqb_spec (itemId r) k) as [<- | _]; [contradiction | reflexivity].
  - rewrite elem_of_app, list_elem_of_singleton in Hk.
    rewrite IH by tauto.
    destruct (String.eqb_spec (itemId r) k) as [<- | _]; [tauto | reflexivity].
Qed.

Lemma pushToGroup_map (ks : list string) (f : string → list LabelResult)
    (k : string) (r : LabelResult) :
  NoDup ks →
  UseLabelingService.pushToGroup k r (List.map (fun k' => (k', f k')) ks)
  = if bool_decide (k ∈ ks)
    then List.map (fun k' => (k', f k' ++ (if String.eqb k k' then [r] else []))) ks
    else List.map (fun k' => (k', f k')) ks ++ [(k, [r])].
Proof.
  induction ks as [|k0 ks IH]; intros Hnd; simpl.
  - reflexivity.
  - apply NoDup_cons in Hnd as [Hk0 Hnd].
    destruct (String.eqb_spec k k0) as [-> | Hne].
    + rewrite bool_decide_eq_true_2 by (apply elem_of_cons; tauto).
      f_equal. apply map_ext_in. intros k' Hk'.
      destruct (String.eqb_spec k0 k') as [<- | _].
      * apply list_elem_of_In in Hk'. contradiction.
      * rewrite app_nil_r. reflexivity.
    + rewrite (IH Hnd), app_nil_r.
      case_bool_decide as Hk.
      * rewrite bool_decide_eq_true_2 by (apply elem_of_cons; tauto). reflexivity.
      * rewrite bool_decide_eq_false_2; [reflexivity|].
        rewrite elem_of_cons. tauto.
Qed.

Lemma pushToGroup_groupsOf (pre : list LabelResult) (r : LabelResult) :
  UseLabelingService.pushToGroup (itemId r) r (groupsOf pre) = groupsOf (pre ++ [r]).
Proof.
  unfold groupsOf. rewrite (pushToGroup_map _ _ _ _ (keysOf_NoDup pre)).
  rewrite keysOf_snoc. unfold addKey.
  case_bool_decide as Hk.
  - apply map_ext. intros k'. rewrite resultsOf_snoc. reflexivity.
  - rewrite map_app. simpl. f_equal.
    + apply map_ext_in. intros k' Hk'. rewrite resultsOf_snoc.
      destruct (String.eqb_spec (itemId r) k') as [<- | _].
      * apply list_elem_of_In in Hk'. contradiction.
      * rewrite app_nil_r. reflexivity.
    + rewrite resultsOf_snoc, (resultsOf_no_key _ _ Hk), String.eqb_refl.
      reflexivity.
Qed.

Lemma groupByItem_from (rest pre : list LabelResult) :
  Forall (fun r => inherited_key (itemId r) = false) rest →
  UseLabelingService.groupByItem rest (groupsOf pre)
  = Return (groupsOf (pre ++ rest)).
Proof.
  revert pre. induction rest as [|r rest IH]; intros pre Hall; simpl.
  - rewrite app_nil_r. reflexivity.
  - inversion Hall as [|? ? Hr Hrest]; subst.
    unfold UseLabelingService.groupStep. rewrite Hr. simpl.
    rewrite pushToGroup_groupsOf, (IH _ Hrest), <- app_assoc. reflexivity.
Qed.

Lemma groupByItem_throws (rest : list LabelResult) (acc : UseLabelingService.groups) :
  Exists (fun r => inherited_key (itemId r) = true) rest →
  ∃ e, UseLabelingService.groupByItem rest acc = Throw e.
Proof.
  revert acc. induction rest as [|r rest IH]; intros acc Hex; simpl.
  - inversion Hex.
  - unfold UseLabelingService.groupStep.
    destruct (inherited_key (itemId r)) eqn:Hr; simpl; [eauto|].
    apply IH. inversion Hex; subst; [congruence | assumption].
Qed.

(** The grouping returns exactly when no item id is a name inherited from
    [Object.prototype], and then yields the groups of the results. *)
Lemma groupByItem_spec (rs : list LabelResult) (gs : UseLabelingService.groups) :
  UseLabelingService.groupByItem rs [] = Return gs ↔
  Forall (fun r => inherited_key (itemId r) = false) rs ∧ gs = groupsOf rs.
Proof.
  split.
  - intros Hrun.
    assert (Hall : Forall (fun r => inherited_key (itemId r) = false) rs).
    { apply Forall_forall. intros r Hr.
      destruct (inherited_key (itemId r)) eqn:E; [|reflexivity].
      destruct (groupByItem_throws rs []) as [e He]; [|congruence].
      apply Exists_exists. eauto. }
    split; [exact Hall|].
    pose proof (groupByItem_from rs [] Hall) as H. simpl in H.
    change (groupsOf []) with (@nil (string * list LabelResult)) in H. congruence.
  - intros [Hall ->]. apply (groupByItem_from rs [] Hall).
Qed.

End Enhancer.

(** ** Coverage enhancer: the order of [Object.entries] *)

Lemma insertByIndex_Permutation {B : Type} (e : N * B) (l : list (N * B)) :
  UseLabelingService.insertByIndex e l ≡ₚ e :: l.
Proof.
  induction l as [|e' l IH]; simpl; [reflexivity|].
  destruct (e.1 <=? e'.1)%N; [reflexivity|].
  rewrite IH. apply Permutation_swap.
Qed.

Lemma sortByIndex_Permutation {B : Type} (l : list (N * B)) :
  UseLabelingService.sortByIndex l ≡ₚ l.
Proof.
  induction l as [|e l IH]; simpl; [reflexivity|].
  rewrite insertByIndex_Permutation, IH. reflexivity.
Qed.

Section Entries.
Context {A : Type}.

Lemma omap_indexed_filter (l : list (string * A)) :
  snd <$> omap UseLabelingService.indexed l
  = List.filter (fun kv => bool_decide (is_Some (array_index kv.1))) l.
Proof.
  induction l as [|kv l IH]; simpl; [reflexivity|].
  unfold UseLabelingService.indexed at 1.
  destruct (array_index kv.1) as [n|] eqn:E; simpl.
  - f_equal. exact IH.
  - exact IH.
Qed.

Lemma filter_split_Permutation (p : string * A → bool) (l : list (string * A)) :
  List.filter p l ++ List.filter (fun x => negb (p x)) l ≡ₚ l.
Proof.
  induction l as [|x l IH]; simpl; [reflexivity|].
  destruct (p x); simpl.
  - rewrite IH. reflexivity.
  - rewrite <- Permutation_middle, IH. reflexivity.
Qed.

(** [Object.entries] enumerates every own property once. *)
Lemma entries_Permutation (obj : list (string * A)) :
  UseLabelingService.entries obj ≡ₚ obj.
Proof.
  unfold UseLabelingService.entries.
  rewrite sortByIndex_Permutation, omap_indexed_filter.
  apply filter_split_Permutation.
Qed.

End Entries.

(** ** Coverage enhancer: synthesis *)

Section Synthesis.
Import IntentCapture.

Lemma synthesized_placeholders (k : string) (used : gset string)
    (cats : list LabelCategory) :
  Forall2 (isPlaceholderFor k)
    (List.filter (fun c => negb (bool_decide (type c ∈ used))
                           && Nat.ltb 0 (length (options c))) cats)
    (flat_map (UseLabelingService.synthesizeFor k used) cats).
Proof.
  induction cats as [|c cats IH]; simpl; [constructor|].
  unfold UseLabelingService.synthesizeFor at 1.
  destruct (negb (bool_decide (type c ∈ used)) && Nat.ltb 0 (length (options c)))
    eqn:Habsent; [|exact IH].
  destruct (options c) as [|o os] eqn:Hopts.
  - rewrite andb_false_r in Habsent. discriminate.
  - simpl. constructor; [|exact IH].
    exists o. rewrite Hopts. repeat split.
Qed.

Lemma enhanceItem_segment (intent : LabelingIntent) (kg : string * list LabelResult) :
  segmentOf intent kg (UseLabelingService.enhanceItem intent kg).
Proof.
  destruct kg as [k g]. unfold segmentOf, UseLabelingService.enhanceItem. simpl.
  eexists. split; [reflexivity|].
  unfold synthesisEnabled, absentCategories.
  destruct (Nat.ltb 1 (length (labelCategories intent))
            && Nat.ltb (size (UseLabelingService.usedLabelTypes g))
                       (length (labelCategories intent))).
  - apply synthesized_placeholders.
  - reflexivity.
Qed.

(** C7 (as amended).  When the enhancer returns, its output is made of one
    segment per item that has results, in the order [Object.entries]
    gives the items.  The segment of an item is the item's results in
    their original order, followed, when more than one category is
    declared and the item's labels show fewer distinct category types
    than there are declared categories, by exactly one placeholder for
    every declared category that has an option and whose type is not
    among those types, in declaration order; each placeholder has the
    label "<type>: <first option>", confidence 0, [needsReview] and the
    backfill flag set.  Otherwise the segment has no placeholder. *)
Theorem coverage_synthesis (results : list LabelResult) (intent : LabelingIntent)
    (data : list DataItem) (out : list LabelResult) :
  UseLabelingService.postProcessResults results intent data = Return out →
  UseLabelingService.entries (groupsOf results) ≡ₚ groupsOf results
  ∧ ∃ segments,
      out = concat segments
      ∧ Forall2 (segmentOf intent)
          (UseLabelingService.entries (groupsOf results)) segments.
Proof.
  unfold UseLabelingService.postProcessResults.
  destruct (UseLabelingService.groupByItem results []) as [gs | e] eqn:Hgroup;
    simpl; [|discriminate].
  apply groupByItem_spec in Hgroup as [_ ->].
  intros [= <-]. split; [apply entries_Permutation|].
  exists (List.map (UseLabelingService.enhanceItem intent)
            (UseLabelingService.entries (groupsOf results))).
  split; [apply flat_map_concat_map|].
  induction (UseLabelingService.entries (groupsOf results)) as [|kg l IH]; simpl.
  - constructor.
  - constructor; [apply enhanceItem_segment | exact IH].
Qed.

Lemma coverage_synthesis_witness :
  ∃ segments,
    [plainResult;
     UseLabelingService.placeholderLabel "item-0"
       {| type := "Urgency"; guideline := "";
          options := [ {| name := "High"; description := "" |};
                       {| name := "Low"; description := "" |} ] |}
       {| name := "High"; description := "" |}] = concat segments
    ∧ Forall2 (segmentOf twoCategoryIntent)
        (UseLabelingService.entries (groupsOf [plainResult])) segments.
Proof.
  refine (proj2 (coverage_synthesis [plainResult] twoCategoryIntent [item0] _ _)).
  vm_compute. reflexivity.
Defined.

(** C7, as stated, fails.  Two categories are declared; item-0 carries
    the label "Issue Type: Bug" and an error label, hence two distinct
    types.  The category "Urgency" has options and is absent from the
    item's types, yet no placeholder is synthesized: the output is the
    input. *)
Lemma coverage_synthesis_counterexample :
  UseLabelingService.postProcessResults [plainResult; errorResult0]
    twoCategoryIntent [item0]
  = Return [plainResult; errorResult0]
  ∧ List.map type (absentCategories twoCategoryIntent [plainResult; errorResult0])
    = ["Urgency"].
Proof. split; vm_compute; reflexivity. Qed.

End Synthesis.

(** ** Coverage enhancer: running it twice *)

Lemma fmap_map {B C : Type} (f : B → C) (l : list B) : f <$> l = List.map f l.
Proof. induction l as [|x l IH]; simpl; [reflexivity | rewrite <- IH; reflexivity]. Qed.

Lemma insertByIndex_Sorted {B : Type} (e : N * B) (l : list (N * B)) :
  Sorted byIndex l → Sorted byIndex (UseLabelingService.insertByIndex e l).
Proof.
  induction 1 as [|e' l Hs IH Hhd]; simpl.
  - repeat constructor.
  - destruct (e.1 <=? e'.1)%N eqn:Hle.
    + constructor; [constructor; assumption|]. constructor. exact Hle.
    + constructor; [exact IH|].
      assert (He' : byIndex e' e).
      { unfold byIndex. apply N.leb_le. apply N.leb_gt in Hle. lia. }
      destruct Hhd as [|e'' l' He'']; simpl.
      * constructor. exact He'.
      * destruct (e.1 <=? e''.1)%N; constructor; assumption.
Qed.

Lemma sortByIndex_Sorted {B : Type} (l : list (N * B)) :
  Sorted byIndex (UseLabelingService.sortByIndex l).
Proof.
  induction l as [|e l IH]; simpl; [constructor|].
  apply insertByIndex_Sorted, IH.
Qed.

Lemma sortByIndex_of_Sorted {B : Type} (l : list (N * B)) :
  Sorted byIndex l → UseLabelingService.sortByIndex l = l.
Proof.
  induction 1 as [|e l Hs IH Hhd]; simpl; [reflexivity|].
  fold (UseLabelingService.sortByIndex l). rewrite IH.
  destruct Hhd as [|e' l' He']; simpl; [reflexivity|].
  unfold byIndex in He'. rewrite He'. reflexivity.
Qed.

Lemma insertByIndex_map {B C : Type} (h : B → C) (e : N * B) (l : list (N * B)) :
  UseLabelingService.insertByIndex (e.1, h e.2)
    (List.map (fun x => (x.1, h x.2)) l)
  = List.map (fun x => (x.1, h x.2)) (UseLabelingService.insertByIndex e l).
Proof.
  induction l as [|e' l IH]; simpl; [reflexivity|].
  destruct (e.1 <=? e'.1)%N; simpl; [reflexivity|].
  rewrite IH. reflexivity.
Qed.

Lemma sortByIndex_map {B C : Type} (h : B → C) (l : list (N * B)) :
  UseLabelingService.sortByIndex (List.map (fun x => (x.1, h x.2)) l)
  = List.map (fun x => (x.1, h x.2)) (UseLabelingService.sortByIndex l).
Proof.
  induction l as [|e l IH]; simpl; [reflexivity|].
  fold (UseLabelingService.sortByIndex (List.map (fun x => (x.1, h x.2)) l)).
  fold (UseLabelingService.sortByIndex l).
  rewrite IH. apply (insertByIndex_map h e).
Qed.

Section EntriesTwice.
Context {A B : Type}.

(** Rewriting the values of an object does not change the order in which
    its properties are enumerated. *)
Lemma entries_map_values (h : string * A → B) (obj : list (string * A)) :
  UseLabelingService.entries (List.map (fun kv => (kv.1, h kv)) obj)
  = List.map (fun kv => (kv.1, h kv)) (UseLabelingService.entries obj).
Proof.
  unfold UseLabelingService.entries.
  rewrite map_app. f_equal.
  - assert (Homap : omap UseLabelingService.indexed
                      (List.map (fun kv => (kv.1, h kv)) obj)
                    = List.map (fun x : N * (string * A) => (x.1, (x.2.1, h x.2)))
                        (omap UseLabelingService.indexed obj)).
    { induction obj as [|kv obj IH]; [reflexivity|].
      cbn [List.map omap list_omap].
      assert (Hkv : UseLabelingService.indexed (kv.1, h kv)
                    = (fun x : N * (string * A) => (x.1, (x.2.1, h x.2)))
                        <$> UseLabelingService.indexed kv).
      { unfold UseLabelingService.indexed. simpl.
        destruct (array_index kv.1); reflexivity. }
      rewrite Hkv.
      destruct (UseLabelingService.indexed kv); simpl; [f_equal|]; exact IH. }
    rewrite Homap.
    rewrite (sortByIndex_map (fun kv : string * A => (kv.1, h kv))).
    rewrite !fmap_map, !map_map. reflexivity.
  - rewrite filter_map_swap. reflexivity.
Qed.

End EntriesTwice.

Section EntriesIdempotent.
Context {A : Type}.

Lemma omap_indexed_well_indexed (obj : list (string * A)) :
  Forall (fun e : N * (string * A) => array_index e.2.1 = Some e.1)
         (omap UseLabelingService.indexed obj).
Proof.
  induction obj as [|kv obj IH]; simpl; [constructor|].
  unfold UseLabelingService.indexed at 1.
  destruct (array_index kv.1) eqn:E; simpl; [constructor; [exact E|]|]; exact IH.
Qed.

Lemma omap_indexed_of_indexed (s : list (N * (string * A))) :
  Forall (fun e : N * (string * A) => array_index e.2.1 = Some e.1) s →
  omap UseLabelingService.indexed (snd <$> s) = s.
Proof.
  induction 1 as [|e s He _ IH]; simpl; [reflexivity|].
  unfold UseLabelingService.indexed at 1. rewrite He. simpl.
  destruct e as [n kv]. simpl. f_equal. exact IH.
Qed.

Lemma omap_indexed_none (l : list (string * A)) :
  Forall (fun kv => array_index kv.1 = None) l →
  omap UseLabelingService.indexed l = [].
Proof.
  induction 1 as [|kv l Hkv _ IH]; simpl; [reflexivity|].
  unfold UseLabelingService.indexed at 1. rewrite Hkv. simpl. exact IH.
Qed.

Lemma filter_all {C : Type} (p : C → bool) (l : list C) :
  Forall (fun x => p x = true) l → List.filter p l = l.
Proof.
  induction 1 as [|x l Hx _ IH]; simpl; [reflexivity|]. rewrite Hx, IH. reflexivity.
Qed.

Lemma filter_none {C : Type} (p : C → bool) (l : list C) :
  Forall (fun x => p x = false) l → List.filter p l = [].
Proof.
  induction 1 as [|x l Hx _ IH]; simpl; [reflexivity|]. rewrite Hx. exact IH.
Qed.

(** Enumerating an object whose properties were inserted in enumeration
    order gives that order back. *)
Lemma entries_idempotent (obj : list (string * A)) :
  UseLabelingService.entries (UseLabelingService.entries obj)
  = UseLabelingService.entries obj.
Proof.
  unfold UseLabelingService.entries at 2.
  set (s := UseLabelingService.sortByIndex (omap UseLabelingService.indexed obj)).
  set (rest := List.filter
                 (fun kv : string * A => negb (bool_decide (is_Some (array_index kv.1))))
                 obj).
  assert (Hs : Forall (fun e : N * (string * A) => array_index e.2.1 = Some e.1) s).
  { unfold s. rewrite sortByIndex_Permutation. apply omap_indexed_well_indexed. }
  assert (Hrest : Forall (fun kv : string * A => array_index kv.1 = None) rest).
  { unfold rest. apply List.Forall_forall. intros kv Hkv.
    apply filter_In in Hkv as [_ Hkv].
    destruct (array_index kv.1); [|reflexivity].
    rewrite bool_decide_eq_true_2 in Hkv by eauto. discriminate. }
  unfold UseLabelingService.entries.
  rewrite omap_app, (omap_indexed_of_indexed s Hs), (omap_indexed_none rest Hrest).
  rewrite app_nil_r, (sortByIndex_of_Sorted s) by apply sortByIndex_Sorted.
  f_equal. rewrite List.filter_app. rewrite filter_none, filter_all.
  - reflexivity.
  - eapply Forall_impl; [exact Hrest|]. intros kv ->. reflexivity.
  - rewrite fmap_map. apply List.Forall_forall. intros kv Hkv.
    apply in_map_iff in Hkv as (e & <- & He).
    rewrite List.Forall_forall in Hs. rewrite (Hs e He).
    rewrite bool_decide_eq_true_2 by eauto. reflexivity.
Qed.

End EntriesIdempotent.

Section Idempotence.
Import IntentCapture.

Lemma fold_addKey_present (ids ks : list string) (k : string) :
  Forall (fun i => i = k) ids → k ∈ ks → fold_left addKey ids ks = ks.
Proof.
  induction 1 as [|i ids -> _ IH]; intros Hk; simpl; [reflexivity|].
  unfold addKey at 2. rewrite bool_decide_eq_true_2 by exact Hk. apply IH, Hk.
Qed.

Lemma fold_addKey_fresh (ids ks : list string) (k : string) :
  ids ≠ [] → Forall (fun i => i = k) ids → k ∉ ks →
  fold_left addKey ids ks = ks ++ [k].
Proof.
  intros Hne Hall Hk. destruct Hall as [|i ids -> Hall]; [congruence|]. simpl.
  unfold addKey at 2. rewrite bool_decide_eq_false_2 by exact Hk.
  apply (fold_addKey_present ids (ks ++ [k]) k Hall).
  apply elem_of_app. right. apply list_elem_of_singleton. reflexivity.
Qed.

Lemma resultsOf_app (k : string) (l1 l2 : list LabelResult) :
  resultsOf k (l1 ++ l2) = resultsOf k l1 ++ resultsOf k l2.
Proof. apply List.filter_app. Qed.

Lemma resultsOf_same (k : string) (s : list LabelResult) :
  Forall (fun r => itemId r = k) s → resultsOf k s = s.
Proof.
  intros Hs. apply filter_all. eapply Forall_impl; [exact Hs|].
  intros r <-. apply String.eqb_refl.
Qed.

Lemma resultsOf_other (k k' : string) (s : list LabelResult) :
  k' ≠ k → Forall (fun r => itemId r = k) s → resultsOf k' s = [].
Proof.
  intros Hne Hs. apply filter_none. eapply Forall_impl; [exact Hs|].
  intros r <-. apply String.eqb_neq. congruence.
Qed.

Lemma groupsOf_snoc_segment (pre s : list LabelResult) (k : string) :
  s ≠ [] → Forall (fun r => itemId r = k) s → k ∉ keysOf pre →
  groupsOf (pre ++ s) = groupsOf pre ++ [(k, s)].
Proof.
  intros Hne Hs Hk. unfold groupsOf.
  assert (Hkeys : keysOf (pre ++ s) = keysOf pre ++ [k]).
  { unfold keysOf. rewrite map_app, fold_left_app.
    apply fold_addKey_fresh; [| |exact Hk].
    - destruct s; [congruence | discriminate].
    - apply List.Forall_forall. intros i Hi.
      apply in_map_iff in Hi as (r & <- & Hr).
      rewrite List.Forall_forall in Hs. apply Hs, Hr. }
  rewrite Hkeys, map_app. simpl. f_equal.
  - apply map_ext_in. intros k' Hk'. f_equal.
    rewrite resultsOf_app, (resultsOf_other k k' s), app_nil_r; [reflexivity| |exact Hs].
    intros ->. apply list_elem_of_In in Hk'. contradiction.
  - rewrite resultsOf_app, (resultsOf_no_key _ _ Hk), (resultsOf_same _ _ Hs).
    reflexivity.
Qed.

(** Grouping a list that is already laid out item by item gives the
    layout back. *)
Lemma groupsOf_segments (E : list (string * list LabelResult)) :
  NoDup E.*1 →
  Forall (fun kg => kg.2 ≠ [] ∧ Forall (fun r => itemId r = kg.1) kg.2) E →
  groupsOf (flat_map snd E) = E.
Proof.
  induction E as [|[k s] E IH] using rev_ind; intros Hnd Hall; [reflexivity|].
  rewrite fmap_app in Hnd. apply NoDup_app in Hnd as (Hnd & Hfresh & _).
  apply Forall_app in Hall as [Hall Hks].
  apply Forall_singleton in Hks as [Hne Hs]. simpl in Hne, Hs.
  rewrite flat_map_app. simpl. rewrite app_nil_r.
  rewrite (groupsOf_snoc_segment (flat_map snd E) s k Hne Hs), (IH Hnd Hall);
    [reflexivity|].
  intros Hk. apply keysOf_elem in Hk as (r & Hr & Hid).
  apply in_flat_map in Hr as ([k' s'] & Hin & Hrs'). simpl in Hrs'.
  rewrite List.Forall_forall in Hall.
  destruct (Hall _ Hin) as [_ Hs']. simpl in Hs'.
  rewrite List.Forall_forall in Hs'. rewrite (Hs' r Hrs') in Hid. subst k'.
  apply (Hfresh k).
  - apply list_elem_of_fmap. exists (k, s'). split; [reflexivity|].
    apply list_elem_of_In. exact Hin.
  - simpl. apply list_elem_of_singleton. reflexivity.
Qed.

Lemma labelType_placeholder (k : string) (c : LabelCategory) (o : LabelOption) :
  plainType (type c) →
  UseLabelingService.labelType (UseLabelingService.placeholderLabel k c o) = type c.
Proof.
  intros [Hcolon Htrim]. unfold UseLabelingService.labelType. simpl.
  change (type c +:+ ": " +:+ name o)
    with (type c +:+ String colon (String " " (name o))).
  rewrite (split_app_sep colon _ _ Hcolon). simpl. exact Htrim.
Qed.

Lemma synthesizeFor_itemId (k : string) (used : gset string) (c : LabelCategory)
    (r : LabelResult) :
  In r (UseLabelingService.synthesizeFor k used c) → itemId r = k.
Proof.
  unfold UseLabelingService.synthesizeFor.
  destruct (negb (bool_decide (type c ∈ used)) && Nat.ltb 0 (length (options c)));
    [|intros []].
  destruct (options c); [intros [] | intros [<- | []]; reflexivity].
Qed.

Lemma enhanceItem_itemId (intent : LabelingIntent) (k : string)
    (g : list LabelResult) :
  Forall (fun r => itemId r = k) g →
  Forall (fun r => itemId r = k) (UseLabelingService.enhanceItem intent (k, g)).
Proof.
  intros Hg. unfold UseLabelingService.enhanceItem.
  apply Forall_app. split; [exact Hg|].
  destruct (Nat.ltb 1 (length (labelCategories intent))
            && Nat.ltb (size (UseLabelingService.usedLabelTypes g))
                       (length (labelCategories intent))); [|constructor].
  apply List.Forall_forall. intros r Hr.
  apply in_flat_map in Hr as (c & _ & Hr).
  apply (synthesizeFor_itemId _ _ _ _ Hr).
Qed.

Lemma flat_map_nil {B C : Type} (f : B → list C) (l : list B) :
  (∀ x, In x l → f x = []) → flat_map f l = [].
Proof.
  induction l as [|x l IH]; intros Hf; simpl; [reflexivity|].
  rewrite (Hf x) by (left; reflexivity). apply IH.
  intros y Hy. apply Hf. right. exact Hy.
Qed.

(** Under plain category types a second pass over the segment of an item
    finds every category with an option represented. *)
Lemma enhanceItem_twice (intent : LabelingIntent) (k : string) (g : list LabelResult) :
  Forall (fun c => plainType (type c)) (labelCategories intent) →
  UseLabelingService.enhanceItem intent (k, UseLabelingService.enhanceItem intent (k, g))
  = UseLabelingService.enhanceItem intent (k, g).
Proof.
  intros Hplain. unfold UseLabelingService.enhanceItem.
  destruct (Nat.ltb 1 (length (labelCategories intent))
            && Nat.ltb (size (UseLabelingService.usedLabelTypes g))
                       (length (labelCategories intent))) eqn:Hguard.
  - set (ps := flat_map (UseLabelingService.synthesizeFor k
                           (UseLabelingService.usedLabelTypes g))
                        (labelCategories intent)).
    transitivity ((g ++ ps) ++ []); [|apply app_nil_r]. f_equal.
    destruct (Nat.ltb 1 (length (labelCategories intent))
              && Nat.ltb (size (UseLabelingService.usedLabelTypes (g ++ ps)))
                         (length (labelCategories intent))); [|reflexivity].
    apply flat_map_nil. intros c Hc.
    unfold UseLabelingService.synthesizeFor.
    destruct (options c) as [|o os] eqn:Hopts.
    { rewrite andb_false_r. reflexivity. }
    assert (Hin : type c ∈ UseLabelingService.usedLabelTypes (g ++ ps)).
    { unfold UseLabelingService.usedLabelTypes.
      rewrite elem_of_list_to_set, fmap_app, elem_of_app.
      destruct (decide (type c ∈ UseLabelingService.usedLabelTypes g)) as [Hused | Hnew].
      - left. unfold UseLabelingService.usedLabelTypes in Hused.
        rewrite elem_of_list_to_set in Hused. exact Hused.
      - right. apply list_elem_of_fmap.
        exists (UseLabelingService.placeholderLabel k c o). split.
        + symmetry. apply labelType_placeholder.
          rewrite List.Forall_forall in Hplain. apply Hplain, Hc.
        + apply list_elem_of_In. unfold ps. apply in_flat_map.
          exists c. split; [exact Hc|].
          unfold UseLabelingService.synthesizeFor.
          rewrite bool_decide_eq_false_2 by exact Hnew.
          rewrite Hopts. simpl. left. reflexivity. }
    rewrite bool_decide_eq_true_2 by exact Hin. reflexivity.
  - rewrite !app_nil_r, Hguard, app_nil_r. reflexivity.
Qed.

(** C6 (as amended).  When no declared category type contains a [:] or
    has white space around it, running the enhancer on its own output
    returns that output unchanged: no further placeholder is added, and
    the order is kept. *)
Theorem enhancer_idempotent (results : list LabelResult) (intent : LabelingIntent)
    (data data' : list DataItem) (out : list LabelResult) :
  Forall (fun c => plainType (type c)) (labelCategories intent) →
  UseLabelingService.postProcessResults results intent data = Return out →
  UseLabelingService.postProcessResults out intent data' = Return out.
Proof.
  intros Hplain. unfold UseLabelingService.postProcessResults.
  destruct (UseLabelingService.groupByItem results []) as [gs | e] eqn:Hgroup;
    simpl; [|discriminate].
  apply groupByItem_spec in Hgroup as [Hown ->].
  intros [= <-].
  set (E0 := UseLabelingService.entries (groupsOf results)).
  set (E1 := List.map (fun kg => (kg.1, UseLabelingService.enhanceItem intent kg)) E0).
  assert (Hout : flat_map (UseLabelingService.enhanceItem intent) E0 = flat_map snd E1).
  { unfold E1. rewrite !flat_map_concat_map, map_map. reflexivity. }
  assert (HE0 : ∀ kg, In kg E0 →
            kg.1 ∈ keysOf results ∧ kg.2 = resultsOf kg.1 results).
  { intros kg Hkg. apply list_elem_of_In in Hkg.
    unfold E0 in Hkg. rewrite entries_Permutation in Hkg.
    apply list_elem_of_In in Hkg. unfold groupsOf in Hkg.
    apply in_map_iff in Hkg as (k & <- & Hk). simpl.
    split; [apply list_elem_of_In, Hk | reflexivity]. }
  assert (Hseg : Forall (fun kg => kg.2 ≠ [] ∧ Forall (fun r => itemId r = kg.1) kg.2) E1).
  { unfold E1. apply List.Forall_forall. intros kg' Hkg'.
    apply in_map_iff in Hkg' as ([k g] & <- & Hkg). simpl.
    destruct (HE0 _ Hkg) as [Hk Hg]. simpl in Hk, Hg.
    assert (Hids : Forall (fun r => itemId r = k) g).
    { subst g. apply List.Forall_forall. intros r Hr.
      apply filter_In in Hr as [_ Hr]. apply String.eqb_eq, Hr. }
    split; [|apply enhanceItem_itemId, Hids].
    apply keysOf_elem in Hk as (r & Hr & Hid).
    assert (Hrg : In r g).
    { subst g. apply filter_In. split; [exact Hr | apply String.eqb_eq, Hid]. }
    unfold UseLabelingService.enhanceItem. intros Hnil.
    apply app_eq_nil in Hnil as [Hnil _]. rewrite Hnil in Hrg. exact Hrg. }
  assert (Hkeys : NoDup E1.*1).
  { assert (HE1 : E1.*1 = E0.*1).
    { unfold E1. rewrite !fmap_map, map_map. reflexivity. }
    rewrite HE1. unfold E0. rewrite entries_Permutation.
    unfold groupsOf. rewrite fmap_map, map_map. simpl. rewrite map_id.
    apply keysOf_NoDup. }
  assert (Hown' : Forall (fun r => inherited_key (itemId r) = false) (flat_map snd E1)).
  { apply List.Forall_forall. intros r Hr.
    apply in_flat_map in Hr as (kg' & Hkg' & Hr).
    rewrite List.Forall_forall in Hseg. destruct (Hseg _ Hkg') as [_ Hids].
    rewrite List.Forall_forall in Hids. rewrite (Hids r Hr).
    unfold E1 in Hkg'. apply in_map_iff in Hkg' as (kg & <- & Hkg). simpl.
    destruct (HE0 _ Hkg) as [Hk _].
    apply keysOf_elem in Hk as (r0 & Hr0 & <-).
    rewrite List.Forall_forall in Hown. apply Hown, Hr0. }
  rewrite Hout.
  rewrite (proj2 (groupByItem_spec (flat_map snd E1) (groupsOf (flat_map snd E1))))
    by (split; [exact Hown' | reflexivity]).
  simpl. f_equal.
  rewrite (groupsOf_segments E1 Hkeys Hseg).
  unfold E1 at 1. rewrite entries_map_values.
  unfold E0 at 1. rewrite entries_idempotent. fold E0.
  rewrite <- Hout. rewrite !flat_map_concat_map, map_map. f_equal.
  apply map_ext. intros [k g]. simpl. apply enhanceItem_twice, Hplain.
Qed.

Lemma enhancer_idempotent_witness :
  Forall (fun c => plainType (type c)) (labelCategories twoCategoryIntent)
  ∧ UseLabelingService.postProcessResults
      (returned (UseLabelingService.postProcessResults [plainResult]
                   twoCategoryIntent [item0]))
      twoCategoryIntent [item0]
    = Return (returned (UseLabelingService.postProcessResults [plainResult]
                          twoCategoryIntent [item0])).
Proof.
  assert (H : Forall (fun c => plainType (type c)) (labelCategories twoCategoryIntent)).
  { repeat constructor. }
  split; [exact H|].
  apply (enhancer_idempotent [plainResult] twoCategoryIntent [item0] [item0] _ H).
  vm_compute. reflexivity.
Defined.

(** C6, as stated, fails.  With the category types "Issue: Kind",
    "Issue: Area" and "Urgency", the first pass adds two placeholders to
    an item labelled "Urgency: High"; their labels read as type "Issue",
    so the second pass adds the same two placeholders again. *)
Lemma enhancer_idempotence_counterexample :
  List.map label
    (returned (UseLabelingService.postProcessResults [urgencyResult] colonIntent [item0]))
  = ["Urgency: High"; "Issue: Kind: Bug"; "Issue: Area: Login"]
  ∧ List.map label
      (returned
         (UseLabelingService.postProcessResults
            (returned (UseLabelingService.postProcessResults [urgencyResult]
                         colonIntent [item0]))
            colonIntent [item0]))
    = ["Urgency: High"; "Issue: Kind: Bug"; "Issue: Area: Login";
       "Issue: Kind: Bug"; "Issue: Area: Login"].
Proof. split; vm_compute; reflexivity. Qed.

(** ** Reasoning backfill *)

(** C8.  The fallback of a failed backfill round trip.  The category
    "Urgency" is declared twice, so the enhancer gives item-0 two flagged
    placeholders with the same label.  The round trip of item-0 fails:
    the first placeholder gets the fallback (confidence 60, flag
    cleared), the second one is left as it was, with confidence 0 and
    its flag still set. *)
Theorem backfill_fallback_misses_repeated_label :
  List.map backfillView duplicateEnhanced
  = [ ("Issue Type: Bug", 92%Z, false, false);
      ("Urgency: High", 0%Z, true, true);
      ("Urgency: High", 0%Z, true, true) ]
  ∧ List.map backfillView
      (UseLabelingService.generateReasoningForLabels duplicateEnhanced
         duplicateIntent [item0] failingBackfill)
    = [ ("Issue Type: Bug", 92%Z, false, false);
        ("Urgency: High", 60%Z, true, false);
        ("Urgency: High", 0%Z, true, true) ].
Proof. split; vm_compute; reflexivity. Qed.

End Idempotence.

(** ** Reasoning backfill: the fallback reaches the first result with a
       given item id and label *)

Section Backfill.
Import UseLabelingService.

Lemma findIndex_Some (p : LabelResult → bool) (l : list LabelResult) (i : nat) :
  findIndex p l = Some i → ∃ r, l !! i = Some r ∧ p r = true.
Proof.
  revert i. induction l as [|r l IH]; intros i; simpl; [discriminate|].
  destruct (p r) eqn:Hp.
  - intros [= <-]. eauto.
  - destruct (findIndex p l) as [j|]; simpl; [|discriminate].
    intros [= <-]. destruct (IH j eq_refl) as (r' & Hr' & Hp'). eauto.
Qed.

Lemma mapHas_keys (k : string) (m : itemsMap) : mapHas k m = true ↔ k ∈ m.*1.
Proof.
  unfold mapHas. rewrite existsb_exists, list_elem_of_fmap. split.
  - intros (e & He & Hk). apply String.eqb_eq in Hk.
    exists e. split; [congruence | apply list_elem_of_In, He].
  - intros (e & -> & He). exists e.
    split; [apply list_elem_of_In, He | apply String.eqb_refl].
Qed.

Lemma pushLabel_keys (k : string) (l : labelInfo) (m : itemsMap) :
  (pushLabel k l m).*1 = m.*1.
Proof.
  induction m as [|[k' d] m IH]; simpl; [reflexivity|].
  destruct (String.eqb k' k); simpl; [reflexivity | f_equal; exact IH].
Qed.

Lemma pushLabel_pointsTo (results : list LabelResult) (k : string) (l : labelInfo)
    (m : itemsMap) :
  Forall (fun e => Forall (pointsToItem results e.1) (labels e.2)) m →
  pointsToItem results k l →
  Forall (fun e => Forall (pointsToItem results e.1) (labels e.2)) (pushLabel k l m).
Proof.
  intros Hm Hl. induction Hm as [|[k' d] m Hd Hm IH]; simpl; [constructor|].
  destruct (String.eqb_spec k' k) as [-> | Hne].
  - constructor; [|exact Hm]. simpl in *.
    apply Forall_app. split; [exact Hd | repeat constructor; exact Hl].
  - constructor; [exact Hd | exact IH].
Qed.

Lemma pushLabel_kept (k0 : string) (i : nat) (k : string) (l : labelInfo)
    (m : itemsMap) :
  Exists (fun e => e.1 = k0 ∧ targets i e.2) m →
  Exists (fun e => e.1 = k0 ∧ targets i e.2) (pushLabel k l m).
Proof.
  induction 1 as [[k' d] m [Hk Ht] | [k' d] m Hm IH]; simpl in *.
  - destruct (String.eqb k' k); [|left; split; assumption].
    left. split; [exact Hk|]. unfold targets in *. simpl.
    rewrite fmap_app, elem_of_app. left. exact Ht.
  - destruct (String.eqb k' k); right; [exact Hm | exact IH].
Qed.

Lemma pushLabel_new (k : string) (l : labelInfo) (m : itemsMap) :
  k ∈ m.*1 →
  Exists (fun e => e.1 = k ∧ targets (index l) e.2) (pushLabel k l m).
Proof.
  induction m as [|[k' d] m IH]; simpl; [intros H; inversion H|].
  intros Hk. destruct (String.eqb_spec k' k) as [-> | Hne].
  - left. split; [reflexivity|]. unfold targets. simpl.
    rewrite fmap_app, elem_of_app. right. simpl.
    apply list_elem_of_singleton. reflexivity.
  - right. apply IH. apply elem_of_cons in Hk as [Hk | Hk]; [congruence | exact Hk].
Qed.

(** The map built from the flagged results has one entry per item, and
    every slot it lists holds a result of the entry's item. *)
Lemma collectLabel_invariant (results : list LabelResult) (data : list DataItem)
    (m : itemsMap) (result : LabelResult) :
  NoDup m.*1 →
  Forall (fun e => Forall (pointsToItem results e.1) (labels e.2)) m →
  NoDup (collectLabel results data m result).*1
  ∧ Forall (fun e => Forall (pointsToItem results e.1) (labels e.2))
      (collectLabel results data m result).
Proof.
  intros Hnd Hm. unfold collectLabel.
  destruct (List.find _ data) as [item|]; [|split; assumption].
  set (m' := if mapHas (itemId result) m then m
             else m ++ [(itemId result, {| item := item; labels := [] |})]).
  assert (Hnd' : NoDup m'.*1).
  { unfold m'. destruct (mapHas (itemId result) m) eqn:Hhas; [exact Hnd|].
    rewrite fmap_app. apply NoDup_app. split; [exact Hnd|]. split.
    - intros k Hk Hk'. simpl in Hk'. apply list_elem_of_singleton in Hk'. subst k.
      apply mapHas_keys in Hk. congruence.
    - apply NoDup_singleton. }
  assert (Hm' : Forall (fun e => Forall (pointsToItem results e.1) (labels e.2)) m').
  { unfold m'. destruct (mapHas (itemId result) m); [exact Hm|].
    apply Forall_app. split; [exact Hm|]. repeat constructor. }
  destruct (findIndex _ results) as [originalIndex|] eqn:Hfind; [|split; assumption].
  split.
  - rewrite pushLabel_keys. exact Hnd'.
  - apply pushLabel_pointsTo; [exact Hm'|].
    apply findIndex_Some in Hfind as (r & Hr & Hp).
    exists r. split; [exact Hr|].
    apply andb_true_iff in Hp as [Hid _]. apply String.eqb_eq, Hid.
Qed.

Lemma collectLabel_kept (results : list LabelResult) (data : list DataItem)
    (m : itemsMap) (result : LabelResult) (k0 : string) (i : nat) :
  Exists (fun e => e.1 = k0 ∧ targets i e.2) m →
  Exists (fun e => e.1 = k0 ∧ targets i e.2) (collectLabel results data m result).
Proof.
  intros Hm. unfold collectLabel.
  destruct (List.find _ data) as [item|]; [|exact Hm].
  assert (Hm' : Exists (fun e => e.1 = k0 ∧ targets i e.2)
                  (if mapHas (itemId result) m then m
                   else m ++ [(itemId result, {| item := item; labels := [] |})])).
  { destruct (mapHas (itemId result) m); [exact Hm|].
    apply Exists_app. left. exact Hm. }
  destruct (findIndex _ results); [apply pushLabel_kept|]; exact Hm'.
Qed.

Lemma collectLabel_new (results : list LabelResult) (data : list DataItem)
    (m : itemsMap) (r : LabelResult) (i : nat) :
  (∃ d, In d data ∧ id d = itemId r) →
  findIndex (sameLabel r) results = Some i →
  Exists (fun e => e.1 = itemId r ∧ targets i e.2) (collectLabel results data m r).
Proof.
  intros (d & Hd & Hid) Hfind. unfold collectLabel.
  destruct (List.find (fun d0 => String.eqb (id d0) (itemId r)) data) as [item|] eqn:Hitem.
  - change (findIndex (fun r0 => String.eqb (itemId r0) (itemId r)
                                 && String.eqb (label r0) (label r)) results)
      with (findIndex (sameLabel r) results).
    rewrite Hfind.
    apply (pushLabel_new (itemId r) {| index := i; info_label := label r |}).
    destruct (mapHas (itemId r) m) eqn:Hhas; [apply mapHas_keys, Hhas|].
    rewrite fmap_app, elem_of_app. right. simpl.
    apply list_elem_of_singleton. reflexivity.
  - pose proof (find_none _ _ Hitem d Hd) as Hnone. simpl in Hnone.
    rewrite Hid, String.eqb_refl in Hnone. discriminate.
Qed.

Lemma collect_all (results : list LabelResult) (data : list DataItem)
    (todo : list LabelResult) (m : itemsMap) :
  NoDup m.*1 →
  Forall (fun e => Forall (pointsToItem results e.1) (labels e.2)) m →
  NoDup (fold_left (collectLabel results data) todo m).*1
  ∧ Forall (fun e => Forall (pointsToItem results e.1) (labels e.2))
      (fold_left (collectLabel results data) todo m)
  ∧ (∀ k0 i, Exists (fun e => e.1 = k0 ∧ targets i e.2) m →
             Exists (fun e => e.1 = k0 ∧ targets i e.2)
               (fold_left (collectLabel results data) todo m))
  ∧ (∀ r i, In r todo → (∃ d, In d data ∧ id d = itemId r) →
            findIndex (sameLabel r) results = Some i →
            Exists (fun e => e.1 = itemId r ∧ targets i e.2)
              (fold_left (collectLabel results data) todo m)).
Proof.
  revert m. induction todo as [|r0 todo IH]; intros m Hnd Hm; simpl.
  - repeat split; try assumption; [tauto | intros r i []].
  - destruct (collectLabel_invariant results data m r0 Hnd Hm) as [Hnd' Hm'].
    destruct (IH _ Hnd' Hm') as (H1 & H2 & H3 & H4).
    repeat split; [exact H1 | exact H2 | |].
    + intros k0 i Hex. apply H3, collectLabel_kept, Hex.
    + intros r i [<- | Hr] Hdata Hfind.
      * apply H3, collectLabel_new; assumption.
      * apply H4; assumption.
Qed.

Lemma withFallback_idempotent (r : LabelResult) :
  withFallback (withFallback r) = withFallback r.
Proof.
  unfold withFallback; simpl. f_equal. lia.
Qed.

Lemma fold_alter_other (f : LabelResult → LabelResult) (ls : list labelInfo)
    (acc : list LabelResult) (i : nat) :
  i ∉ index <$> ls →
  fold_left (fun acc l => alter f (index l) acc) ls acc !! i = acc !! i.
Proof.
  revert acc. induction ls as [|l ls IH]; intros acc Hi; simpl; [reflexivity|].
  rewrite fmap_cons, not_elem_of_cons in Hi. destruct Hi as [Hne Hi].
  rewrite (IH _ Hi). apply list_lookup_alter_ne. congruence.
Qed.

Lemma fold_alter_hit (f : LabelResult → LabelResult) (ls : list labelInfo)
    (acc : list LabelResult) (i : nat) :
  (∀ r, f (f r) = f r) →
  i ∈ index <$> ls →
  fold_left (fun acc l => alter f (index l) acc) ls acc !! i = f <$> acc !! i.
Proof.
  intros Hf. revert acc. induction ls as [|l ls IH]; intros acc Hi; simpl.
  - inversion Hi.
  - destruct (decide (i ∈ index <$> ls)) as [Hin | Hout].
    + rewrite (IH _ Hin).
      destruct (decide (index l = i)) as [<- | Hne].
      * rewrite list_lookup_alter_eq. destruct (acc !! index l); simpl; [|reflexivity].
        rewrite Hf. reflexivity.
      * rewrite list_lookup_alter_ne by exact Hne. reflexivity.
    + rewrite (fold_alter_other _ _ _ _ Hout).
      rewrite fmap_cons, elem_of_cons in Hi. destruct Hi as [-> | Hi]; [|contradiction].
      apply list_lookup_alter_eq.
Qed.

Lemma fold_reasoning_other (reasoningJson : list (string * reasoningEntry))
    (ls : list labelInfo) (acc : list LabelResult) (i : nat) :
  i ∉ index <$> ls →
  fold_left (fun acc l =>
               match lookupLabelData (info_label l) reasoningJson with
               | Some d => alter (withReasoning d) (index l) acc
               | None => acc
               end) ls acc !! i = acc !! i.
Proof.
  revert acc. induction ls as [|l ls IH]; intros acc Hi; simpl; [reflexivity|].
  rewrite fmap_cons, not_elem_of_cons in Hi. destruct Hi as [Hne Hi].
  rewrite (IH _ Hi).
  destruct (lookupLabelData (info_label l) reasoningJson); [|reflexivity].
  apply list_lookup_alter_ne. congruence.
Qed.

Lemma processItem_other (backfill : Backfill) (acc : list LabelResult)
    (e : string * itemData) (i : nat) :
  ¬ targets i e.2 → processItem backfill acc e !! i = acc !! i.
Proof.
  destruct e as [k d]. unfold targets, processItem. simpl. intros Hi.
  destruct (backfill k); [apply fold_alter_other | apply fold_reasoning_other]; exact Hi.
Qed.

Lemma process_untouched (backfill : Backfill) (m : itemsMap)
    (acc : list LabelResult) (i : nat) :
  Forall (fun e => ¬ targets i e.2) m →
  fold_left (processItem backfill) m acc !! i = acc !! i.
Proof.
  intros Hm. revert acc. induction Hm as [|e m He _ IH]; intros acc; simpl.
  - reflexivity.
  - rewrite IH. apply processItem_other, He.
Qed.

Lemma process_failed_item (backfill : Backfill) (m : itemsMap)
    (acc : list LabelResult) (k : string) (i : nat) (err : thrown) :
  backfill k = BackfillFails err →
  NoDup m.*1 →
  Forall (fun e => e.1 ≠ k → ¬ targets i e.2) m →
  Exists (fun e => e.1 = k ∧ targets i e.2) m →
  fold_left (processItem backfill) m acc !! i = withFallback <$> acc !! i.
Proof.
  intros Hfail Hnd Hothers Hex. revert acc.
  induction m as [|[k' d] m IH]; intros acc; [inversion Hex|].
  simpl in Hnd. apply NoDup_cons in Hnd as [Hk' Hnd].
  apply Forall_cons in Hothers as [Hhead Hothers].
  cbn [fold_left]. apply Exists_cons in Hex as [[Hk Ht] | Hex].
  - simpl in Hk, Ht. subst k'. rewrite process_untouched.
    + unfold processItem. rewrite Hfail.
      apply fold_alter_hit; [apply withFallback_idempotent | exact Ht].
    + apply Forall_forall. intros e He.
      rewrite Forall_forall in Hothers. apply (Hothers e He).
      intros Hek. apply Hk'. apply list_elem_of_fmap. eauto.
  - rewrite (IH Hnd Hothers Hex).
    rewrite (processItem_other backfill acc (k', d) i); [reflexivity|].
    apply Hhead. intros Hkk. simpl in Hkk. apply Hk'.
    apply Exists_exists in Hex as (e & He & Hek & _).
    apply list_elem_of_fmap. exists e. split; [congruence | exact He].
Qed.

(** X29 (what holds of C8).  When the round trip of an item fails, a flagged
    result of that item receives the fallback (fallback reasoning,
    confidence [max 60 previous], [needsReview] set, flag cleared)
    provided the item is among [data] and the result is the first of the
    list with its item id and label. *)
Lemma backfill_fallback_first_occurrence (results : list LabelResult)
    (intent : IntentCapture.LabelingIntent) (data : list DataItem)
    (backfill : Backfill) (err : thrown) (i : nat) (r : LabelResult) :
  results !! i = Some r →
  flagged r = true →
  (∃ d, In d data ∧ id d = itemId r) →
  findIndex (sameLabel r) results = Some i →
  backfill (itemId r) = BackfillFails err →
  generateReasoningForLabels results intent data backfill !! i
  = Some (withFallback r).
Proof.
  intros Hi Hflag Hdata Hfirst Hfail.
  assert (Hin : In r (List.filter flagged results)).
  { apply filter_In. split; [|exact Hflag].
    apply list_elem_of_In, list_elem_of_lookup. eauto. }
  unfold generateReasoningForLabels.
  destruct (Nat.eqb_spec (length (List.filter flagged results)) 0) as [Hlen | _].
  { destruct (List.filter flagged results); [destruct Hin | discriminate]. }
  destruct (collect_all results data (List.filter flagged results) [])
    as (Hnd & Hpoints & _ & Hnew); [constructor | constructor |].
  rewrite (process_failed_item backfill _ results (itemId r) i err Hfail Hnd).
  - rewrite Hi. reflexivity.
  - eapply Forall_impl; [exact Hpoints|]. intros [k d] Hd Hne Ht. simpl in *.
    unfold targets in Ht. apply list_elem_of_fmap in Ht as (l & -> & Hl).
    rewrite Forall_forall in Hd. destruct (Hd l Hl) as (r' & Hr' & Hid).
    rewrite Hi in Hr'. injection Hr' as <-. congruence.
  - apply (Hnew r i Hin Hdata Hfirst).
Qed.

End Backfill.

(* ================================================================== *)
(** * Further properties *)
(* ================================================================== *)

(** ** Session store: create, update, delete *)

Section Store.
Import DataStorage.

(** X1.  [createSession] followed by [getSession]: the session it returns
    is stored under its id, which is [session-<time>]; it has no results
    yet and is in progress; the sessions list gains one entry for it, at
    the end; the records under other ids are untouched. *)
Theorem createSession_round_trip (nowMs : Z) (now name' : string)
    (data' : list DataItem) (intent' : IntentCapture.LabelingIntent)
    (st : Storage) :
  let s := (createSession nowMs now name' data' intent' st).1 in
  let st' := (createSession nowMs now name' data' intent' st).2 in
  getSession (id s) st' = Some s
  ∧ id s = "session-" +:+ number_to_string nowMs
  ∧ results s = [] ∧ status s = in_progress
  ∧ data s = data' ∧ intent s = intent'
  ∧ getSessions st' = getSessions st ++ [newEntry s]
  ∧ ∀ k, k ≠ id s → getSession k st' = getSession k st.
Proof.
  unfold createSession, getSession, getSessions, saveSession, saveSessions; simpl.
  split; [apply lookup_insert_eq|].
  repeat (split; [reflexivity|]).
  intros k Hk. apply lookup_insert_ne. congruence.
Qed.

Lemma filter_others_id (sid : string) (l : list SessionMetadata) :
  sid ∉ meta_id <$> l →
  List.filter (fun s => negb (String.eqb (meta_id s) sid)) l = l.
Proof.
  induction l as [|m l IH]; simpl; [reflexivity|].
  rewrite not_elem_of_cons. intros [Hm Hl].
  destruct (String.eqb_spec (meta_id m) sid) as [E | _]; [congruence|].
  simpl. rewrite (IH Hl). reflexivity.
Qed.

(** X2.  [deleteSession] always answers [true].  Afterwards the id has no
    record and no entry in the sessions list; the other records are
    untouched and the other entries are kept, in their order.  When the
    id had neither a record nor an entry the store is unchanged. *)
Theorem deleteSession_removes (sid : string) (st : Storage) :
  let st' := (deleteSession sid st).2 in
  (deleteSession sid st).1 = true
  ∧ getSession sid st' = None
  ∧ (sid ∉ meta_id <$> getSessions st')
  ∧ (∀ k, k ≠ sid → getSession k st' = getSession k st)
  ∧ getSessions st'
    = List.filter (fun m => negb (String.eqb (meta_id m) sid)) (getSessions st)
  ∧ (getSession sid st = None → sid ∉ meta_id <$> getSessions st → st' = st).
Proof.
  unfold deleteSession, getSession, getSessions, saveSessions; simpl.
  split; [reflexivity|].
  split; [apply lookup_delete_eq|].
  split.
  { intros Hin. apply list_elem_of_fmap in Hin as (m & Hm & Hin).
    apply list_elem_of_In, filter_In in Hin as [_ Hin].
    rewrite <- Hm, String.eqb_refl in Hin. discriminate. }
  split; [intros k Hk; apply lookup_delete_ne; congruence|].
  split; [reflexivity|].
  intros Hnone Hout. destruct st as [records list]. simpl in *.
  rewrite (delete_id _ _ Hnone), (filter_others_id _ _ Hout). reflexivity.
Qed.

(** X3.  Frame of [updateSessionResults].  For a session stored under its
    id the stored record and the returned session are the old record with
    the new results and the new [updatedAt]; the status and every other
    field stay, the other records are untouched, and in the sessions list
    only [updatedAt] of the entries with that id changes.  For an id with
    no record the result is null and the store is unchanged. *)
Theorem updateSessionResults_frame (now sid : string)
    (results' : list LabelResult) (st : Storage) :
  keyedById st →
  (∀ s, sessionRecords st !! sid = Some s →
     ∃ s' st',
       updateSessionResults now sid results' st = (Some s', st')
       ∧ getSession sid st' = Some s'
       ∧ results s' = results'
       ∧ updatedAt s' = now
       ∧ status s' = status s
       ∧ id s' = id s ∧ name s' = name s ∧ createdAt s' = createdAt s
       ∧ data s' = data s ∧ intent s' = intent s
       ∧ (∀ k, k ≠ sid → getSession k st' = getSession k st)
       ∧ getSessions st'
         = List.map (fun m => if String.eqb (meta_id m) sid
                              then {| meta_id := meta_id m; meta_name := meta_name m;
                                      meta_createdAt := meta_createdAt m;
                                      meta_updatedAt := now;
                                      meta_status := meta_status m |}
                              else m)
             (getSessions st))
  ∧ (sessionRecords st !! sid = None →
     updateSessionResults now sid results' st = (None, st)).
Proof.
  intros Hst. split.
  - intros s Hs. pose proof (Hst _ _ Hs) as Hid.
    unfold updateSessionResults, getSession, getSessions. rewrite Hs. simpl.
    eexists _, _. split; [reflexivity|]. simpl. rewrite Hid.
    split; [apply lookup_insert_eq|].
    repeat (split; [reflexivity|]).
    split; [intros k Hk; apply lookup_insert_ne; congruence|].
    apply map_ext. intros m. destruct (String.eqb (meta_id m) sid); reflexivity.
  - intros Hs. unfold updateSessionResults, getSession. rewrite Hs. reflexivity.
Qed.

Lemma updateSessionResults_frame_witness :
  keyedById oneSessionStorage
  ∧ ∃ s' st',
      updateSessionResults "2023-11-15T08:00:00.000Z" "session-1700000000000"
        [plainResult] oneSessionStorage = (Some s', st')
      ∧ results s' = [plainResult]
      ∧ status s' = in_progress.
Proof.
  assert (Hk : keyedById oneSessionStorage).
  { apply createSession_keyedById, emptyStorage_keyedById. }
  split; [exact Hk|].
  destruct (updateSessionResults_frame "2023-11-15T08:00:00.000Z"
              "session-1700000000000" [plainResult] oneSessionStorage Hk)
    as [Hsome _].
  destruct (Hsome (createSession 1700000000000 "2023-11-14T22:13:20.000Z"
                     "First project" [item0; item1] sampleUiIntent emptyStorage).1)
    as (s' & st' & Hrun & _ & Hres & _ & Hstatus & _).
  { unfold oneSessionStorage. simpl. apply lookup_insert_eq. }
  exists s', st'. split; [exact Hrun|]. split; [exact Hres|].
  rewrite Hstatus. reflexivity.
Defined.

Lemma ids_of_updated_list (sid : string) (f : SessionMetadata → SessionMetadata)
    (l : list SessionMetadata) :
  (∀ m, meta_id (f m) = meta_id m) →
  meta_id <$> List.map (fun m => if String.eqb (meta_id m) sid then f m else m) l
  = meta_id <$> l.
Proof.
  intros Hf. induction l as [|m l IH]; simpl; [reflexivity|].
  f_equal; [|exact IH].
  destruct (String.eqb (meta_id m) sid); [apply Hf | reflexivity].
Qed.

(** X4.  The records and the sessions list stay in step.  On a store
    whose records sit under their own ids and whose list names exactly
    the ids that have a record, each of [createSession],
    [updateSessionResults], [completeSession] and [deleteSession] leaves
    a store with the same two properties. *)
Theorem store_stays_consistent (st : Storage) :
  keyedById st → consistent st →
  (∀ nowMs now name' data' intent',
     keyedById (createSession nowMs now name' data' intent' st).2
     ∧ consistent (createSession nowMs now name' data' intent' st).2)
  ∧ (∀ now sid results',
       keyedById (updateSessionResults now sid results' st).2
       ∧ consistent (updateSessionResults now sid results' st).2)
  ∧ (∀ now sid,
       keyedById (completeSession now sid st).2
       ∧ consistent (completeSession now sid st).2)
  ∧ (∀ sid,
       keyedById (deleteSession sid st).2
       ∧ consistent (deleteSession sid st).2).
Proof.
  intros Hkey Hcons. repeat split.
  - apply createSession_keyedById, Hkey.
  - unfold createSession, consistent; simpl.
    rewrite lookup_insert_is_Some, fmap_app, elem_of_app. simpl.
    rewrite list_elem_of_singleton. rewrite (Hcons k). intros [-> | [_ H]]; tauto.
  - unfold createSession, consistent; simpl.
    rewrite lookup_insert_is_Some, fmap_app, elem_of_app. simpl.
    rewrite list_elem_of_singleton, (Hcons k).
    intros [H | ->]; [|tauto].
    destruct (decide ("session-" +:+ number_to_string nowMs = k)); tauto.
  - apply updateSessionResults_keyedById, Hkey.
  - unfold updateSessionResults, getSession.
    destruct (sessionRecords st !! sid) as [s|] eqn:Hs; [|apply Hcons].
    simpl. rewrite (ids_of_updated_list sid) by reflexivity.
    rewrite (Hkey _ _ Hs), lookup_insert_is_Some, <- (Hcons k).
    intros [<- | [_ H]]; [eauto | exact H].
  - unfold updateSessionResults, getSession.
    destruct (sessionRecords st !! sid) as [s|] eqn:Hs; [|apply Hcons].
    simpl. rewrite (ids_of_updated_list sid) by reflexivity.
    rewrite (Hkey _ _ Hs), lookup_insert_is_Some, <- (Hcons k).
    intros H. destruct (decide (sid = k)); tauto.
  - apply completeSession_keyedById, Hkey.
  - unfold completeSession, getSession.
    destruct (sessionRecords st !! sid) as [s|] eqn:Hs; [|apply Hcons].
    simpl. rewrite (ids_of_updated_list sid) by reflexivity.
    rewrite (Hkey _ _ Hs), lookup_insert_is_Some, <- (Hcons k).
    intros [<- | [_ H]]; [eauto | exact H].
  - unfold completeSession, getSession.
    destruct (sessionRecords st !! sid) as [s|] eqn:Hs; [|apply Hcons].
    simpl. rewrite (ids_of_updated_list sid) by reflexivity.
    rewrite (Hkey _ _ Hs), lookup_insert_is_Some, <- (Hcons k).
    intros H. destruct (decide (sid = k)); tauto.
  - apply deleteSession_keyedById, Hkey.
  - unfold deleteSession, consistent; simpl.
    rewrite lookup_delete_is_Some, (Hcons k). intros [Hne Hin].
    apply list_elem_of_fmap in Hin as (m & -> & Hm).
    apply list_elem_of_fmap. exists m. split; [reflexivity|].
    apply list_elem_of_In, filter_In. split; [apply list_elem_of_In, Hm|].
    apply negb_true_iff, String.eqb_neq. congruence.
  - unfold deleteSession, consistent; simpl.
    rewrite lookup_delete_is_Some, (Hcons k). intros Hin.
    apply list_elem_of_fmap in Hin as (m & -> & Hm).
    apply list_elem_of_In, filter_In in Hm as [Hm Hne].
    apply negb_true_iff, String.eqb_neq in Hne.
    split; [congruence|].
    apply list_elem_of_fmap. exists m. split; [reflexivity | apply list_elem_of_In, Hm].
Qed.

Lemma emptyStorage_consistent : consistent emptyStorage.
Proof.
  intros k. unfold emptyStorage; simpl. rewrite lookup_empty. split.
  - intros [? ?]. discriminate.
  - intros H. inversion H.
Qed.

Lemma store_stays_consistent_witness :
  keyedById emptyStorage ∧ consistent emptyStorage
  ∧ keyedById oneSessionStorage ∧ consistent oneSessionStorage.
Proof.
  split; [apply emptyStorage_keyedById|].
  split; [apply emptyStorage_consistent|].
  apply (proj1 (store_stays_consistent emptyStorage
                  emptyStorage_keyedById emptyStorage_consistent)).
Defined.

(** X5.  Completing a session twice changes nothing more: a second
    [completeSession] at the same time returns the same session and
    leaves the store as the first one left it. *)
Theorem completeSession_twice (now sid : string) (st : Storage) :
  keyedById st →
  completeSession now sid (completeSession now sid st).2 = completeSession now sid st.
Proof.
  intros Hkey. unfold completeSession at 2 3, getSession.
  destruct (sessionRecords st !! sid) as [s|] eqn:Hs.
  - pose proof (Hkey _ _ Hs) as Hid. simpl.
    unfold completeSession, getSession. simpl.
    rewrite Hid, lookup_insert_eq. simpl.
    unfold saveSessions, saveSession, updateSessionMetadata, getSessions. simpl.
    rewrite insert_insert_eq.
    f_equal. f_equal. rewrite map_map. apply map_ext. intros m.
    destruct (String.eqb (meta_id m) sid) eqn:E; simpl; rewrite E; reflexivity.
  - simpl. unfold completeSession, getSession. rewrite Hs. reflexivity.
Qed.

Lemma completeSession_twice_witness :
  keyedById oneSessionStorage
  ∧ completeSession "2023-11-15T08:00:00.000Z" "session-1700000000000"
      (completeSession "2023-11-15T08:00:00.000Z" "session-1700000000000"
         oneSessionStorage).2
    = completeSession "2023-11-15T08:00:00.000Z" "session-1700000000000"
        oneSessionStorage.
Proof.
  assert (Hk : keyedById oneSessionStorage).
  { apply createSession_keyedById, emptyStorage_keyedById. }
  split; [exact Hk|].
  apply (completeSession_twice _ _ _ Hk).
Defined.

End Store.

(** ** Batch orchestrator: chunks, calls and item ids *)

Lemma splitIntoBatches_shape (fuel : nat) (items : list DataItem) (b i : nat)
    (batches : list (list DataItem)) :
  0 < b →
  splitIntoBatches fuel items b i = Some batches →
  concat batches = drop i items
  ∧ Forall (fun batch => 1 ≤ length batch ≤ b) batches
  ∧ (∀ k batch, batches !! k = Some batch → S k < length batches →
                length batch = b)
  ∧ length items - i ≤ length batches * b < length items - i + b.
Proof.
  intros Hb. revert i batches.
  induction fuel as [|fuel IH]; intros i batches; simpl.
  - destruct (Nat.ltb_spec i (length items)); [discriminate|].
    intros [= <-]. simpl. rewrite drop_ge by lia.
    repeat split; [constructor | intros k batch Hk; rewrite lookup_nil in Hk; discriminate
                  | lia | lia].
  - destruct (Nat.ltb_spec i (length items)) as [Hlt | Hge].
    + destruct (splitIntoBatches fuel items b (i + b)) as [rest|] eqn:Hrest;
        [|discriminate].
      simpl. intros [= <-].
      destruct (IH _ _ Hrest) as (Hconcat & Hsizes & Hfull & Hcount).
      assert (Hlen : length (take b (drop i items)) = Nat.min b (length items - i)).
      { rewrite length_take, length_drop. reflexivity. }
      repeat split.
      * simpl. rewrite Hconcat, <- (drop_drop items b i). apply take_drop.
      * constructor; [lia | exact Hsizes].
      * intros k batch Hk Hlast. destruct k as [|k]; simpl in Hk, Hlast.
        -- injection Hk as <-. destruct rest as [|r rest]; [simpl in Hlast; lia|].
           simpl in Hcount. lia.
        -- apply (Hfull k batch Hk). lia.
      * simpl. lia.
      * simpl.
        destruct (Nat.le_gt_cases b (length items - i)); [lia|].
        destruct rest as [|r rest]; simpl in *; [lia|]. nia.
    + intros [= <-]. simpl. rewrite drop_ge by lia.
      repeat split; [constructor
                    | intros k batch Hk; rewrite lookup_nil in Hk; discriminate
                    | lia | lia].
Qed.

(** X6.  The chunks are a partition of the items: for a positive chunk
    size the first loop ends, the chunks concatenated in order are the
    items, every chunk has at least one and at most [batchSize] items,
    and every chunk but the last has exactly [batchSize]. *)
Theorem batches_partition_items (items : list DataItem) (batchSize : nat) :
  0 < batchSize →
  ∃ batches,
    splitIntoBatches (length items) items batchSize 0 = Some batches
    ∧ concat batches = items
    ∧ Forall (fun batch => 1 ≤ length batch ≤ batchSize) batches
    ∧ ∀ k batch, batches !! k = Some batch → S k < length batches →
                 length batch = batchSize.
Proof.
  intros Hb.
  destruct (splitIntoBatches_total (length items) items batchSize 0 Hb)
    as [batches Hsplit]; [lia|].
  destruct (splitIntoBatches_shape _ _ _ _ _ Hb Hsplit) as (Hc & Hs & Hf & _).
  exists batches. rewrite drop_0 in Hc. repeat split; assumption.
Qed.

Lemma batches_partition_items_witness :
  0 < 5
  ∧ ∃ batches,
      splitIntoBatches 2 [item0; item1] 5 0 = Some batches
      ∧ concat batches = [item0; item1].
Proof.
  split; [lia|].
  destruct (batches_partition_items [item0; item1] 5) as (batches & H1 & H2 & _);
    [lia|].
  exists batches. split; assumption.
Defined.

(** X7.  One inference call per chunk: a run over [n] items with chunk
    size [b] issues exactly [ceil (n / b)] calls, none when there is no
    item. *)
Theorem inference_calls_count (items : list DataItem) (intent : LabelingIntent)
    (ai : AI) (batchSize : nat) :
  0 < batchSize →
  ∃ st, labelDataBatch_run items intent ai batchSize = Some st
        ∧ aiCalls st = (length items + batchSize - 1) / batchSize.
Proof.
  intros Hb.
  destruct (labelDataBatch_run_chunks items intent ai batchSize Hb)
    as (batches & Hsplit & Hrun).
  eexists. split; [exact Hrun|]. simpl.
  destruct (splitIntoBatches_shape _ _ _ _ _ Hb Hsplit) as (_ & _ & _ & Hcount).
  apply (Nat.div_unique _ batchSize _
           (length items + batchSize - 1 - length batches * batchSize)); lia.
Qed.

Lemma inference_calls_count_witness :
  0 < 5
  ∧ ∃ st, labelDataBatch_run (fiveItems ++ [item0]) bugIntent silentAI 5 = Some st
          ∧ aiCalls st = 2.
Proof.
  split; [lia|].
  destruct (inference_calls_count (fiveItems ++ [item0]) bugIntent silentAI 5)
    as (st & Hrun & Hcalls); [lia|].
  exists st. split; [exact Hrun | exact Hcalls].
Defined.

(** X8.  The orchestrator never invents an item: every result of a run
    carries the id of one of the input items. *)
Theorem results_carry_input_ids (items : list DataItem) (intent : LabelingIntent)
    (ai : AI) (batchSize : nat) (clock : Clock) (out : BatchLabelingResult) :
  labelDataBatch items intent ai batchSize clock = Some out →
  ∀ r, In r (results out) → ∃ item, In item items ∧ itemId r = id item.
Proof.
  unfold labelDataBatch.
  destruct (labelDataBatch_run items intent ai batchSize) as [st|] eqn:Hrun;
    simpl; [|discriminate].
  intros [= <-] r Hr. simpl in Hr.
  destruct batchSize as [|b].
  - unfold labelDataBatch_run in Hrun.
    destruct items as [|item items].
    + simpl in Hrun. injection Hrun as <-. destruct Hr.
    + rewrite splitIntoBatches_zero in Hrun by (simpl; lia). discriminate.
  - destruct (labelDataBatch_run_chunks items intent ai (S b)) as (batches & Hsplit & Hrun');
      [lia|].
    rewrite Hrun in Hrun'. injection Hrun' as ->. simpl in Hr.
    destruct (splitIntoBatches_shape _ _ _ _ _ (Nat.lt_0_succ b) Hsplit) as (Hc & _).
    rewrite drop_0 in Hc.
    apply in_concat in Hr as (chunk & Hchunk & Hr).
    apply list_elem_of_In, elem_of_lookup_imap_1 in Hchunk as (k & batch & -> & Hk).
    pose proof (chunkOutput_ids ai intent k batch) as Hids.
    rewrite List.Forall_forall in Hids. destruct (Hids r Hr) as (item & Hin & Hid).
    exists item. split; [|exact Hid].
    rewrite <- Hc. apply in_concat. exists batch. split; [|exact Hin].
    apply list_elem_of_In, list_elem_of_lookup. eauto.
Qed.

Lemma results_carry_input_ids_witness :
  Forall (fun r => ∃ item, In item [item0; item1] ∧ itemId r = id item)
    (pushed (default initialState
               (labelDataBatch_run [item0; item1] bugIntent flakyAI 1))).
Proof.
  apply List.Forall_forall. intros r Hr.
  refine (results_carry_input_ids [item0; item1] bugIntent flakyAI 1 sampleClock
            _ eq_refl r _).
  exact Hr.
Defined.

Lemma singleton_chunks_ids (f : nat → list DataItem → list LabelResult)
    (batches : list (list DataItem)) :
  (∀ k item, List.map itemId (f k [item]) = [id item]) →
  Forall (fun batch => length batch = 1) batches →
  List.map itemId (concat (imap f batches)) = List.map id (concat batches).
Proof.
  intros Hf Hall. revert f Hf.
  induction Hall as [|batch batches Hbatch _ IH]; intros f Hf; simpl; [reflexivity|].
  destruct batch as [|item [|? ?]]; try discriminate.
  rewrite !map_app, (Hf 0 item). simpl. f_equal.
  apply IH. intros k it. apply Hf.
Qed.

(** A run with chunk size 1: one call and one result per item. *)
Lemma singleton_run (items : list DataItem) (intent : LabelingIntent) (ai : AI) :
  ∃ st, labelDataBatch_run items intent ai 1 = Some st
        ∧ aiCalls st = length items
        ∧ List.map itemId (pushed st) = List.map id items.
Proof.
  destruct (labelDataBatch_run_chunks items intent ai 1) as (batches & Hsplit & Hrun);
    [lia|].
  eexists. split; [exact Hrun|]. simpl.
  destruct (splitIntoBatches_shape _ _ _ _ _ Nat.lt_0_1 Hsplit) as (Hc & Hs & _ & Hcount).
  rewrite drop_0 in Hc. split; [lia|].
  rewrite <- Hc. apply singleton_chunks_ids.
  - intros k item. unfold chunkOutput, processBatch. simpl.
    rewrite labelDataItem_itemId. reflexivity.
  - eapply Forall_impl; [exact Hs|]. simpl. intros batch. lia.
Qed.

(** X9.  With chunk size 1 a run gives exactly one result per item, in
    the order of the items: the item ids of the results are the ids of
    the items. *)
Theorem one_result_per_item (items : list DataItem) (intent : LabelingIntent)
    (ai : AI) (clock : Clock) :
  ∃ out, labelDataBatch items intent ai 1 clock = Some out
         ∧ List.map itemId (results out) = List.map id items
         ∧ length (results out) = length items.
Proof.
  destruct (singleton_run items intent ai) as (st & Hrun & _ & Hids).
  unfold labelDataBatch. rewrite Hrun. simpl.
  eexists. split; [reflexivity|]. simpl.
  split; [exact Hids|].
  rewrite <- (length_map itemId), Hids, length_map. reflexivity.
Qed.

(** X10.  A request with one to five items that passes the checks is
    answered 200 after exactly one inference call per item, with exactly
    one result per item, in the order of the items. *)
Theorem small_request_one_result_per_item (items : list DataItem)
    (description : string) (categories : list string) (guidelines' : string)
    (ai : AI) (clock : Clock) :
  1 ≤ length items ≤ 5 → description ≠ EmptyString → categories ≠ [] →
  ∃ result,
    LabelingApi.handleLabelingRequest
      (validRequest items description categories guidelines') ai clock
    = Some ({| LabelingApi.status := 200;
               LabelingApi.body := LabelingApi.ResultBody result |}, length items)
    ∧ List.map itemId (results result) = List.map id items.
Proof.
  intros [Hlo Hhi] Hdesc Hcats. unfold validRequest. simpl.
  destruct (Nat.eqb_spec (length items) 0) as [|_]; [lia|].
  destruct (Nat.ltb_spec 100 (length items)) as [|_]; [lia|]. simpl.
  destruct (String.eqb_spec description EmptyString) as [|_]; [contradiction|].
  destruct categories as [|c cs]; [contradiction|]. simpl.
  destruct (Nat.leb_spec (length items) 5) as [_|]; [|lia].
  set (intent := {| datasetDescription := description;
                    labelCategories := c :: cs; guidelines := guidelines' |}).
  destruct (singleton_run items intent ai) as (st & Hrun & Hcalls & Hids).
  unfold labelDataBatch. rewrite Hrun. simpl.
  eexists. split; [rewrite Hcalls; reflexivity | exact Hids].
Qed.

Lemma small_request_one_result_per_item_witness :
  1 ≤ length fiveItems ≤ 5
  ∧ ∃ result,
      LabelingApi.handleLabelingRequest
        (validRequest fiveItems "Tickets" ["Issue Type: Bug | Feature"] "")
        confidentAI sampleClock
      = Some ({| LabelingApi.status := 200;
                 LabelingApi.body := LabelingApi.ResultBody result |}, 5)
      ∧ List.map itemId (results result) = List.map id fiveItems.
Proof.
  split; [simpl; lia|].
  apply (small_request_one_result_per_item fiveItems "Tickets"
           ["Issue Type: Bug | Feature"] "" confidentAI sampleClock);
    [simpl; lia | discriminate | discriminate].
Defined.

(** ** Coverage enhancer: what it keeps, when it throws, in which order *)

Section EnhancerMore.
Import IntentCapture.

(** X11.  The enhancer returns exactly when no result is filed under a
    name that every object inherits ("constructor", "toString",
    "__proto__", ...); otherwise the grouping throws, and [labelData]
    then answers null whatever the labeling service returned. *)
Theorem enhancer_returns_unless_inherited_id (results' : list LabelResult)
    (intent : LabelingIntent) (data : list DataItem) :
  ((∃ out, UseLabelingService.postProcessResults results' intent data = Return out)
   ↔ Forall (fun r => inherited_key (itemId r) = false) results')
  ∧ (Exists (fun r => inherited_key (itemId r) = true) results' →
     ∀ backfill clock,
       UseLabelingService.labelData data intent (responseWith results') backfill clock
       = None).
Proof.
  split.
  - unfold UseLabelingService.postProcessResults. split.
    + intros [out Hout].
      destruct (UseLabelingService.groupByItem results' []) as [gs|e] eqn:Hg;
        [|discriminate].
      apply groupByItem_spec in Hg as [Hall _]. exact Hall.
    + intros Hall.
      rewrite (proj2 (groupByItem_spec results' (groupsOf results')))
        by (split; [exact Hall | reflexivity]).
      simpl. eauto.
  - intros Hex backfill clock. unfold UseLabelingService.labelData, responseWith. simpl.
    unfold UseLabelingService.postProcessResults.
    destruct (groupByItem_throws results' [] Hex) as [e ->]. reflexivity.
Qed.

Example enhancer_throws_on_constructor :
  UseLabelingService.postProcessResults [constructorResult] twoCategoryIntent []
  = Throw (ErrorObject "acc[result.itemId].push is not a function").
Proof. vm_compute. reflexivity. Qed.

Lemma pushToGroup_Permutation (k : string) (r : LabelResult)
    (acc : UseLabelingService.groups) :
  flat_map snd (UseLabelingService.pushToGroup k r acc) ≡ₚ flat_map snd acc ++ [r].
Proof.
  induction acc as [|[k' g] acc IH]; simpl; [reflexivity|].
  destruct (String.eqb k k'); simpl.
  - rewrite <- !app_assoc. apply Permutation_app_head, Permutation_app_comm.
  - rewrite IH, app_assoc. reflexivity.
Qed.

Lemma groupsOf_Permutation (rs : list LabelResult) :
  flat_map snd (groupsOf rs) ≡ₚ rs.
Proof.
  induction rs as [|r rs IH] using rev_ind; [reflexivity|].
  rewrite <- pushToGroup_groupsOf, pushToGroup_Permutation, IH. reflexivity.
Qed.

Lemma synthesizeFor_isPlaceholder (k : string) (used : gset string)
    (c : LabelCategory) :
  Forall isPlaceholder (UseLabelingService.synthesizeFor k used c).
Proof.
  unfold UseLabelingService.synthesizeFor.
  destruct (negb (bool_decide (type c ∈ used)) && Nat.ltb 0 (length (options c)));
    [|constructor].
  destruct (options c); repeat constructor.
Qed.

(** The placeholders the enhancer adds to a group. *)
Lemma enhanceItem_split (intent : LabelingIntent) (kg : string * list LabelResult) :
  ∃ ps, UseLabelingService.enhanceItem intent kg = kg.2 ++ ps
        ∧ Forall isPlaceholder ps
        ∧ (length (labelCategories intent) ≤ 1 → ps = []).
Proof.
  destruct kg as [k g]. unfold UseLabelingService.enhanceItem. simpl.
  eexists. split; [reflexivity|]. split.
  - destruct (_ && _); [|constructor].
    apply List.Forall_forall. intros p Hp.
    apply in_flat_map in Hp as (c & _ & Hp).
    pose proof (synthesizeFor_isPlaceholder k
                  (UseLabelingService.usedLabelTypes g) c) as Hc.
    rewrite List.Forall_forall in Hc. apply Hc, Hp.
  - intros Hle. destruct (Nat.ltb_spec 1 (length (labelCategories intent))); [lia|].
    reflexivity.
Qed.

Lemma enhanced_groups_split (intent : LabelingIntent)
    (E : list (string * list LabelResult)) :
  ∃ ps, flat_map (UseLabelingService.enhanceItem intent) E ≡ₚ flat_map snd E ++ ps
        ∧ Forall isPlaceholder ps
        ∧ (length (labelCategories intent) ≤ 1 → ps = []).
Proof.
  induction E as [|kg E (ps & Hperm & Hps & Hnone)]; simpl.
  - exists []. split; [reflexivity|]. split; [constructor|reflexivity].
  - destruct (enhanceItem_split intent kg) as (ps0 & -> & Hps0 & Hnone0).
    exists (ps0 ++ ps). split; [|split].
    + rewrite Hperm, <- !app_assoc. apply Permutation_app_head.
      rewrite !app_assoc. apply Permutation_app_tail, Permutation_app_comm.
    + apply Forall_app. split; assumption.
    + intros Hle. rewrite (Hnone0 Hle), (Hnone Hle). reflexivity.
Qed.

(** X12.  The enhancer only adds: when it returns, its output is the
    input results, each exactly once, together with placeholders, all of
    them flagged for backfill with confidence 0 and [needsReview] set.
    With at most one declared category it adds nothing. *)
Theorem enhancer_keeps_every_result (results' : list LabelResult)
    (intent : LabelingIntent) (data : list DataItem) (out : list LabelResult) :
  UseLabelingService.postProcessResults results' intent data = Return out →
  ∃ placeholders,
    out ≡ₚ results' ++ placeholders
    ∧ Forall isPlaceholder placeholders
    ∧ (length (labelCategories intent) ≤ 1 → placeholders = []).
Proof.
  unfold UseLabelingService.postProcessResults.
  destruct (UseLabelingService.groupByItem results' []) as [gs | e] eqn:Hgroup;
    simpl; [|discriminate].
  apply groupByItem_spec in Hgroup as [_ ->]. intros [= <-].
  destruct (enhanced_groups_split intent
              (UseLabelingService.entries (groupsOf results')))
    as (ps & Hperm & Hps & Hnone).
  exists ps. split; [|split; assumption].
  rewrite Hperm. apply Permutation_app_tail.
  rewrite (entries_Permutation (groupsOf results')).
  apply groupsOf_Permutation.
Qed.

Lemma enhancer_keeps_every_result_witness :
  ∃ placeholders,
    [plainResult;
     UseLabelingService.placeholderLabel "item-0"
       {| type := "Urgency"; guideline := "";
          options := [ {| name := "High"; description := "" |};
                       {| name := "Low"; description := "" |} ] |}
       {| name := "High"; description := "" |}]
    ≡ₚ [plainResult] ++ placeholders
    ∧ Forall isPlaceholder placeholders.
Proof.
  destruct (enhancer_keeps_every_result [plainResult] twoCategoryIntent [item0]
              _ eq_refl) as (ps & Hperm & Hps & _).
  exists ps. split; assumption.
Defined.

Lemma entries_without_index_keys {A : Type} (obj : list (string * A)) :
  Forall (fun kv => array_index kv.1 = None) obj →
  UseLabelingService.entries obj = obj.
Proof.
  intros Hall. unfold UseLabelingService.entries.
  rewrite (omap_indexed_none obj Hall). simpl.
  apply filter_all. eapply Forall_impl; [exact Hall|].
  intros kv ->. reflexivity.
Qed.

(** X13.  Order of the output.  When no item id is an array index (the
    canonical decimal form of an integer below 2^32 - 1), the items come
    out in the order of their first result; ids that are array indices
    would come first, in numeric order. *)
Theorem enhancer_keeps_first_occurrence_order (results' : list LabelResult)
    (intent : LabelingIntent) (data : list DataItem) (out : list LabelResult) :
  Forall (fun r => array_index (itemId r) = None) results' →
  UseLabelingService.postProcessResults results' intent data = Return out →
  out = flat_map (UseLabelingService.enhanceItem intent) (groupsOf results')
  ∧ keysOf out = keysOf results'.
Proof.
  intros Hidx. unfold UseLabelingService.postProcessResults.
  destruct (UseLabelingService.groupByItem results' []) as [gs | e] eqn:Hgroup;
    simpl; [|discriminate].
  apply groupByItem_spec in Hgroup as [_ ->]. intros [= <-].
  assert (Hkeys : Forall (fun kv : string * list LabelResult => array_index kv.1 = None)
                    (groupsOf results')).
  { unfold groupsOf. apply List.Forall_forall. intros kv Hkv.
    apply in_map_iff in Hkv as (k & <- & Hk). simpl.
    apply list_elem_of_In, keysOf_elem in Hk as (r & Hr & <-).
    rewrite List.Forall_forall in Hidx. apply Hidx, Hr. }
  rewrite (entries_without_index_keys _ Hkeys). split; [reflexivity|].
  set (E := List.map (fun kg => (kg.1, UseLabelingService.enhanceItem intent kg))
              (groupsOf results')).
  assert (Hflat : flat_map (UseLabelingService.enhanceItem intent) (groupsOf results')
                  = flat_map snd E).
  { unfold E. rewrite !flat_map_concat_map, map_map. reflexivity. }
  assert (HE : groupsOf (flat_map snd E) = E).
  { apply groupsOf_segments.
    - unfold E. rewrite fmap_map, map_map. simpl. unfold groupsOf.
      rewrite map_map. simpl. rewrite map_id. apply keysOf_NoDup.
    - unfold E. apply List.Forall_forall. intros kg' Hkg'.
      apply in_map_iff in Hkg' as (kg & <- & Hkg). simpl.
      unfold groupsOf in Hkg. apply in_map_iff in Hkg as (k & <- & Hk). simpl.
      assert (Hids : Forall (fun r => itemId r = k) (resultsOf k results')).
      { apply List.Forall_forall. intros r Hr.
        apply filter_In in Hr as [_ Hr]. apply String.eqb_eq, Hr. }
      split; [|apply enhanceItem_itemId, Hids].
      apply list_elem_of_In, keysOf_elem in Hk as (r & Hr & Hid).
      unfold UseLabelingService.enhanceItem. intros Hnil.
      apply app_eq_nil in Hnil as [Hnil _].
      assert (Hin : In r (resultsOf k results')).
      { apply filter_In. split; [exact Hr | apply String.eqb_eq, Hid]. }
      rewrite Hnil in Hin. exact Hin. }
  rewrite Hflat.
  assert (Hk : keysOf (flat_map snd E) = (groupsOf (flat_map snd E)).*1).
  { unfold groupsOf. rewrite fmap_map, map_map. simpl. rewrite map_id. reflexivity. }
  rewrite Hk, HE. unfold E. rewrite fmap_map, map_map. simpl.
  unfold groupsOf. rewrite map_map. simpl. rewrite map_id. reflexivity.
Qed.

Lemma enhancer_keeps_first_occurrence_order_witness :
  keysOf (returned (UseLabelingService.postProcessResults
                      [plainResult; urgencyResult] twoCategoryIntent [item0]))
  = keysOf [plainResult; urgencyResult].
Proof.
  refine (proj2 (enhancer_keeps_first_occurrence_order [plainResult; urgencyResult]
                   twoCategoryIntent [item0] _ _ eq_refl)).
  repeat constructor.
Defined.

(** Ids that are array indices come first, in numeric order. *)
Example enhancer_moves_numeric_ids_first :
  List.map itemId
    (returned (UseLabelingService.postProcessResults mixedIdResults
                 sampleUiIntent []))
  = ["2"; "10"; "b"; "a"].
Proof. vm_compute. reflexivity. Qed.

End EnhancerMore.

(** ** Reasoning backfill: what it rewrites and what it leaves alone *)

Section BackfillMore.
Import UseLabelingService.

Lemma backfill_fallback_first_occurrence_witness :
  generateReasoningForLabels enhancedOnce twoCategoryIntent [item0] failingBackfill !! 1
  = Some (withFallback urgencyPlaceholder).
Proof.
  refine (backfill_fallback_first_occurrence enhancedOnce twoCategoryIntent [item0]
            failingBackfill (ErrorObject "Failed to generate reasoning") 1
            urgencyPlaceholder eq_refl eq_refl _ eq_refl eq_refl).
  exists item0. split; [left; reflexivity | reflexivity].
Defined.

Lemma keepsSlot_refl (r : LabelResult) : keepsSlot r r.
Proof. repeat split; auto. Qed.

Lemma withReasoning_keepsSlot (d : reasoningEntry) (r r' : LabelResult) :
  keepsSlot r r' → keepsSlot r (withReasoning d r').
Proof.
  intros (Hid & Hlabel & Hreview & _).
  destruct d; (repeat split; simpl; [exact Hid | exact Hlabel | | discriminate]);
    intros Hr; rewrite (Hreview Hr); auto using orb_true_r.
Qed.

Lemma withFallback_keepsSlot (r r' : LabelResult) :
  keepsSlot r r' → keepsSlot r (withFallback r').
Proof.
  intros (Hid & Hlabel & _ & _).
  repeat split; simpl; [exact Hid | exact Hlabel | discriminate].
Qed.

Lemma processItem_keepsSlot (backfill : Backfill) (results acc : list LabelResult)
    (e : string * itemData) :
  Forall2 keepsSlot results acc →
  Forall2 keepsSlot results (processItem backfill acc e).
Proof.
  destruct e as [k d]. unfold processItem.
  destruct (backfill k) as [err | json]; revert acc;
    induction (labels d) as [|l ls IH]; intros acc Hacc; simpl;
    try exact Hacc; apply IH.
  - apply Forall2_alter_r; [exact Hacc|].
    intros x y _ _ Hxy. apply withFallback_keepsSlot, Hxy.
  - destruct (lookupLabelData (info_label l) json) as [d'|]; [|exact Hacc].
    apply Forall2_alter_r; [exact Hacc|].
    intros x y _ _ Hxy. apply withReasoning_keepsSlot, Hxy.
Qed.

Lemma process_keepsSlot (backfill : Backfill) (results : list LabelResult)
    (m : itemsMap) (acc : list LabelResult) :
  Forall2 keepsSlot results acc →
  Forall2 keepsSlot results (fold_left (processItem backfill) m acc).
Proof.
  revert acc. induction m as [|e m IH]; intros acc Hacc; simpl; [exact Hacc|].
  apply IH, processItem_keepsSlot, Hacc.
Qed.

Lemma keepsSlot_same (results : list LabelResult) : Forall2 keepsSlot results results.
Proof.
  apply Forall2_same_length_lookup_2; [reflexivity|].
  intros i x y Hx Hy. rewrite Hx in Hy. injection Hy as <-. apply keepsSlot_refl.
Qed.

(** X14.  The backfill rewrites results in place.  Its output has one
    result per input result, in the same order, with the same item id
    and the same label; a result that asked for review still asks for
    it; and a result that still carries the backfill flag is the input
    result, unchanged: whatever the backfill rewrites, it unflags. *)
Theorem backfill_keeps_ids_and_labels (results : list LabelResult)
    (intent : IntentCapture.LabelingIntent) (data : list DataItem)
    (backfill : Backfill) :
  Forall2 keepsSlot results
    (generateReasoningForLabels results intent data backfill).
Proof.
  unfold generateReasoningForLabels.
  destruct (Nat.eqb _ 0); [apply keepsSlot_same|].
  apply process_keepsSlot, keepsSlot_same.
Qed.

Lemma pushLabel_Forall (P : labelInfo → Prop) (k : string) (l : labelInfo)
    (m : itemsMap) :
  Forall (fun e => Forall P (labels e.2)) m →
  P l →
  Forall (fun e => Forall P (labels e.2)) (pushLabel k l m).
Proof.
  intros Hm Hl. induction Hm as [|[k' d] m Hd Hm IH]; simpl; [constructor|].
  destruct (String.eqb k' k).
  - constructor; [|exact Hm]. simpl in *.
    apply Forall_app. split; [exact Hd | repeat constructor; exact Hl].
  - constructor; [exact Hd | exact IH].
Qed.

Lemma collectLabel_resolves (results : list LabelResult) (data : list DataItem)
    (m : itemsMap) (f : LabelResult) :
  In f results → flagged f = true →
  Forall (fun e => Forall (resolves results data) (labels e.2)) m →
  Forall (fun e => Forall (resolves results data) (labels e.2))
    (collectLabel results data m f).
Proof.
  intros Hin Hflag Hm. unfold collectLabel.
  destruct (List.find (fun d => String.eqb (id d) (itemId f)) data) as [item|] eqn:Hitem;
    [|exact Hm].
  apply find_some in Hitem as [Hitem Hid]. apply String.eqb_eq in Hid.
  assert (Hm' : Forall (fun e => Forall (resolves results data) (labels e.2))
                  (if mapHas (itemId f) m then m
                   else m ++ [(itemId f, {| item := item; labels := [] |})])).
  { destruct (mapHas (itemId f) m); [exact Hm|].
    apply Forall_app. split; [exact Hm|]. repeat constructor. }
  destruct (findIndex _ results) as [originalIndex|] eqn:Hfind; [|exact Hm'].
  apply pushLabel_Forall; [exact Hm'|].
  exists f. split; [exact Hin|]. split; [exact Hflag|].
  split; [exists item; split; assumption|]. split; [exact Hfind | reflexivity].
Qed.

Lemma collect_resolves (results : list LabelResult) (data : list DataItem)
    (todo : list LabelResult) (m : itemsMap) :
  Forall (fun f => In f results ∧ flagged f = true) todo →
  Forall (fun e => Forall (resolves results data) (labels e.2)) m →
  Forall (fun e => Forall (resolves results data) (labels e.2))
    (fold_left (collectLabel results data) todo m).
Proof.
  intros Htodo. revert m. induction Htodo as [|f todo [Hin Hflag] _ IH];
    intros m Hm; simpl; [exact Hm|].
  apply IH, collectLabel_resolves; assumption.
Qed.

Lemma flagged_resolve (results : list LabelResult) (data : list DataItem) :
  Forall (fun e => Forall (resolves results data) (labels e.2))
    (fold_left (collectLabel results data) (List.filter flagged results) []).
Proof.
  apply collect_resolves; [|constructor].
  apply List.Forall_forall. intros f Hf. apply filter_In in Hf. exact Hf.
Qed.

(** The result in a slot the map lists has the item id and the label of
    a flagged result of an item of [data]. *)
Lemma resolved_slot (results : list LabelResult) (data : list DataItem)
    (l : labelInfo) (r : LabelResult) :
  resolves results data l →
  results !! index l = Some r →
  ∃ f, In f results ∧ flagged f = true ∧ (∃ d, In d data ∧ id d = itemId r)
       ∧ sameLabel f r = true ∧ info_label l = label r.
Proof.
  intros (f & Hin & Hflag & (d & Hd & Hid) & Hfind & Hlabel) Hr.
  apply findIndex_Some in Hfind as (r' & Hr' & Hsame).
  rewrite Hr in Hr'. injection Hr' as <-.
  pose proof Hsame as Hs. unfold sameLabel in Hs.
  apply andb_true_iff in Hs as [Hi Hl]. apply String.eqb_eq in Hi, Hl.
  exists f. repeat split; try assumption; [|congruence].
  exists d. split; [exact Hd | congruence].
Qed.

(** X15.  The backfill only rewrites results that share item id and
    label with a flagged result of an item of [data]: a result with no
    flagged result of its item id and label, or of an item that is not
    in [data], comes out unchanged, in its slot. *)
Theorem backfill_leaves_other_results (results : list LabelResult)
    (intent : IntentCapture.LabelingIntent) (data : list DataItem)
    (backfill : Backfill) (j : nat) (r : LabelResult) :
  results !! j = Some r →
  (∀ f, In f results → flagged f = true → sameLabel f r = false)
  ∨ (∀ d, In d data → id d ≠ itemId r) →
  generateReasoningForLabels results intent data backfill !! j = Some r.
Proof.
  intros Hj Hnone. unfold generateReasoningForLabels.
  destruct (Nat.eqb _ 0); [exact Hj|].
  rewrite process_untouched; [exact Hj|].
  eapply Forall_impl; [apply flagged_resolve|].
  intros [k d] Hd Ht. simpl in *. unfold targets in Ht.
  apply list_elem_of_fmap in Ht as (l & -> & Hl).
  rewrite Forall_forall in Hd.
  destruct (resolved_slot results data l r (Hd l Hl) Hj)
    as (f & Hin & Hflag & (d' & Hd' & Hid) & Hsame & _).
  destruct Hnone as [Hnone | Hnone].
  - rewrite (Hnone f Hin Hflag) in Hsame. discriminate.
  - exact (Hnone d' Hd' Hid).
Qed.

Lemma backfill_leaves_other_results_witness :
  generateReasoningForLabels enhancedOnce twoCategoryIntent [item0] failingBackfill !! 0
  = Some plainResult.
Proof.
  refine (backfill_leaves_other_results enhancedOnce twoCategoryIntent [item0]
            failingBackfill 0 plainResult eq_refl _).
  left. intros f Hf Hflag. vm_compute in Hf.
  destruct Hf as [<- | [<- | []]]; [discriminate Hflag | reflexivity].
Defined.

Lemma withReasoning_idempotent (d : reasoningEntry) (r : LabelResult) :
  withReasoning d (withReasoning d r) = withReasoning d r.
Proof.
  destruct d as [s | [s|] [c|] u]; unfold withReasoning, orPrevious;
    cbn [itemId label confidence reasoning uncertaintyExplanation needsReview
         needsLLMReasoning];
    f_equal;
    try reflexivity;
    try (destruct (String.eqb EmptyString s); reflexivity);
    try (destruct (Z.eqb 0 c); reflexivity);
    try (destruct (Z.eqb 0 75); reflexivity);
    try (rewrite orb_assoc, orb_diag; reflexivity).
Qed.

Lemma fold_reasoning_hit (json : list (string * reasoningEntry))
    (ls : list labelInfo) (acc : list LabelResult) (i : nat) (lab : string) :
  Forall (fun l => index l = i → info_label l = lab) ls →
  i ∈ index <$> ls →
  fold_left (fun acc l =>
               match lookupLabelData (info_label l) json with
               | Some d => alter (withReasoning d) (index l) acc
               | None => acc
               end) ls acc !! i
  = match lookupLabelData lab json with
    | Some d => withReasoning d <$> acc !! i
    | None => acc !! i
    end.
Proof.
  intros Hls. revert acc. induction Hls as [|l ls Hl Hls IH]; intros acc Hi; simpl.
  - inversion Hi.
  - destruct (decide (i ∈ index <$> ls)) as [Hin | Hout].
    + rewrite (IH _ Hin).
      destruct (decide (index l = i)) as [Heq | Hne].
      * rewrite (Hl Heq). subst i.
        destruct (lookupLabelData lab json) as [d|]; [|reflexivity].
        rewrite list_lookup_alter_eq. destruct (acc !! index l); simpl; [|reflexivity].
        rewrite withReasoning_idempotent. reflexivity.
      * destruct (lookupLabelData (info_label l) json).
        -- rewrite list_lookup_alter_ne by exact Hne. reflexivity.
        -- reflexivity.
    + rewrite (fold_reasoning_other _ _ _ _ Hout).
      rewrite fmap_cons, elem_of_cons in Hi. destruct Hi as [-> | Hi]; [|contradiction].
      rewrite (Hl eq_refl).
      destruct (lookupLabelData lab json); [apply list_lookup_alter_eq | reflexivity].
Qed.

(** The slot [i] is rewritten by the one entry of the map that lists
    it. *)
Lemma process_single_entry (backfill : Backfill) (m : itemsMap)
    (acc : list LabelResult) (k : string) (i : nat) :
  NoDup m.*1 →
  Forall (fun e => e.1 ≠ k → ¬ targets i e.2) m →
  Exists (fun e => e.1 = k ∧ targets i e.2) m →
  ∃ d acc', In (k, d) m ∧ targets i d ∧ acc' !! i = acc !! i
            ∧ fold_left (processItem backfill) m acc !! i
              = processItem backfill acc' (k, d) !! i.
Proof.
  intros Hnd Hothers Hex. revert acc.
  induction m as [|[k' d] m IH]; intros acc; [inversion Hex|].
  simpl in Hnd. apply NoDup_cons in Hnd as [Hk' Hnd].
  apply Forall_cons in Hothers as [Hhead Hothers].
  cbn [fold_left]. apply Exists_cons in Hex as [[Hk Ht] | Hex].
  - simpl in Hk, Ht. subst k'. exists d, acc.
    split; [left; reflexivity|]. split; [exact Ht|]. split; [reflexivity|].
    apply process_untouched.
    apply Forall_forall. intros e He.
    rewrite Forall_forall in Hothers. apply (Hothers e He).
    intros Hek. apply Hk'. apply list_elem_of_fmap. eauto.
  - destruct (IH Hnd Hothers Hex (processItem backfill acc (k', d)))
      as (d0 & acc' & Hin & Ht & Hacc & Hfold).
    exists d0, acc'. split; [right; exact Hin|]. split; [exact Ht|].
    split; [|exact Hfold].
    rewrite Hacc. apply (processItem_other backfill acc (k', d) i).
    apply Hhead. intros Hkk. simpl in Hkk. apply Hk'.
    apply Exists_exists in Hex as (e & He & Hek & _).
    apply list_elem_of_fmap. exists e. split; [congruence | exact He].
Qed.

(** X16.  When the round trip of an item succeeds, a flagged result of
    that item that is the first of the list with its item id and label
    (the item being in [data]) takes the reasoning, the confidence and
    the uncertainty of the entry the reply has under its label, and
    loses its flag; when the reply has no entry under the label, which
    is no name that every object inherits, the result keeps its flag and
    stays as it was. *)
Theorem backfill_applies_reply (results : list LabelResult)
    (intent : IntentCapture.LabelingIntent) (data : list DataItem)
    (backfill : Backfill) (json : list (string * reasoningEntry))
    (i : nat) (r : LabelResult) :
  results !! i = Some r →
  flagged r = true →
  (∃ d, In d data ∧ id d = itemId r) →
  findIndex (sameLabel r) results = Some i →
  backfill (itemId r) = BackfillJson json →
  (∀ d, lookupLabelData (label r) json = Some d →
        generateReasoningForLabels results intent data backfill !! i
        = Some (withReasoning d r))
  ∧ (lookupLabelData (label r) json = None →
     inherited_key (label r) = false →
     generateReasoningForLabels results intent data backfill !! i = Some r).
Proof.
  intros Hi Hflag Hdata Hfirst Hok.
  assert (Hin : In r (List.filter flagged results)).
  { apply filter_In. split; [|exact Hflag].
    apply list_elem_of_In, list_elem_of_lookup. eauto. }
  assert (Hslot : generateReasoningForLabels results intent data backfill !! i
                  = match lookupLabelData (label r) json with
                    | Some d => Some (withReasoning d r)
                    | None => Some r
                    end).
  { unfold generateReasoningForLabels.
    destruct (Nat.eqb_spec (length (List.filter flagged results)) 0) as [Hlen | _].
    { destruct (List.filter flagged results); [destruct Hin | discriminate]. }
    destruct (collect_all results data (List.filter flagged results) [])
      as (Hnd & Hpoints & _ & Hnew); [constructor | constructor |].
    destruct (process_single_entry backfill _ results (itemId r) i Hnd)
      as (d0 & acc' & Hd0 & Ht & Hacc & ->).
    - eapply Forall_impl; [exact Hpoints|]. intros [k d] Hd Hne Ht. simpl in *.
      unfold targets in Ht. apply list_elem_of_fmap in Ht as (l & -> & Hl).
      rewrite Forall_forall in Hd. destruct (Hd l Hl) as (r' & Hr' & Hid).
      rewrite Hi in Hr'. injection Hr' as <-. congruence.
    - apply (Hnew r i Hin Hdata Hfirst).
    - unfold processItem. rewrite Hok.
      rewrite (fold_reasoning_hit json (labels d0) acc' i (label r)).
      + rewrite Hacc, Hi. destruct (lookupLabelData (label r) json); reflexivity.
      + pose proof (flagged_resolve results data) as Hres.
        rewrite List.Forall_forall in Hres. specialize (Hres _ Hd0). simpl in Hres.
        eapply Forall_impl; [exact Hres|]. intros l Hl Hil.
        rewrite <- Hil in Hi.
        destruct (resolved_slot results data l r Hl Hi) as (_ & _ & _ & _ & _ & Hlab).
        exact Hlab.
      + exact Ht. }
  split.
  - intros d Hd. rewrite Hslot, Hd. reflexivity.
  - intros Hnone _. rewrite Hslot, Hnone. reflexivity.
Qed.

Lemma backfill_applies_reply_witness :
  generateReasoningForLabels enhancedOnce twoCategoryIntent [item0] confidentBackfill !! 1
  = Some (withReasoning (Structured (Some "The crash blocks every user.") (Some 85%Z) None)
            urgencyPlaceholder).
Proof.
  refine (proj1 (backfill_applies_reply enhancedOnce twoCategoryIntent [item0]
                   confidentBackfill _ 1 urgencyPlaceholder
                   eq_refl eq_refl _ eq_refl eq_refl) _ eq_refl).
  exists item0. split; [left; reflexivity | reflexivity].
Defined.

End BackfillMore.

(** ** Human review: what a confirmation changes *)

Section Review.
Import UseLabelingService.

Lemma updateLabel_results (st : BatchLabelingResult) (k l : string) :
  ∃ f, updateLabel (Some st) k l
       = Some {| results := List.map f (results st);
                 completedAt := completedAt st;
                 processingTimeMs := processingTimeMs st;
                 totalItems := totalItems st;
                 reviewNeeded := length (List.filter needsReview (List.map f (results st))) |}
       ∧ (∀ r, isTarget k l r = false → f r = r)
       ∧ (∀ r, isTarget k l r = true →
               f r = {| itemId := itemId r; label := label r; confidence := 100;
                        reasoning := reasoning r;
                        uncertaintyExplanation := uncertaintyExplanation r;
                        needsReview := false;
                        needsLLMReasoning := needsLLMReasoning r |}).
Proof.
  eexists. split; [reflexivity|]. unfold isTarget.
  split; intros r ->; reflexivity.
Qed.

Lemma filter_map_length {A : Type} (p q : A → bool) (f : A → A) (rs : list A) :
  (∀ r, p (f r) = q r) →
  length (List.filter p (List.map f rs)) = length (List.filter q rs).
Proof.
  intros Hpq. induction rs as [|r rs IH]; simpl; [reflexivity|].
  rewrite Hpq. destruct (q r); simpl; rewrite IH; reflexivity.
Qed.

(** X17.  A confirmation never relabels.  [updateLabel itemId newLabel]
    keeps every item id and label; a result that does not already have
    both this item id and this label is unchanged, so confirming a label
    the item does not carry changes no result; a result that has both
    gets confidence 100 and no review request.  The new [reviewNeeded]
    is the number of the other results that asked for review. *)
Theorem updateLabel_confirms_only_target (st : BatchLabelingResult) (k l : string) :
  ∃ st', updateLabel (Some st) k l = Some st'
    ∧ List.map itemId (results st') = List.map itemId (results st)
    ∧ List.map label (results st') = List.map label (results st)
    ∧ (∀ i r, results st !! i = Some r → isTarget k l r = false →
              results st' !! i = Some r)
    ∧ (∀ i r, results st !! i = Some r → isTarget k l r = true →
              ∃ r', results st' !! i = Some r'
                    ∧ confidence r' = 100%Z ∧ needsReview r' = false
                    ∧ reasoning r' = reasoning r)
    ∧ (Forall (fun r => isTarget k l r = false) (results st) →
       results st' = results st)
    ∧ reviewNeeded st'
      = length (List.filter (fun r => needsReview r && negb (isTarget k l r))
                  (results st)).
Proof.
  destruct (updateLabel_results st k l) as (f & -> & Hother & Htarget).
  eexists. split; [reflexivity|]. simpl.
  assert (Hid : ∀ r, itemId (f r) = itemId r ∧ label (f r) = label r).
  { intros r. destruct (isTarget k l r) eqn:Hr;
      [rewrite (Htarget r Hr) | rewrite (Hother r Hr)]; split; reflexivity. }
  repeat split.
  - rewrite map_map. apply map_ext. intros r. apply Hid.
  - rewrite map_map. apply map_ext. intros r. apply Hid.
  - intros i r Hi Hr. rewrite <- fmap_map, list_lookup_fmap, Hi. simpl.
    rewrite (Hother r Hr). reflexivity.
  - intros i r Hi Hr. rewrite <- fmap_map, list_lookup_fmap, Hi. simpl.
    rewrite (Htarget r Hr). eexists. split; [reflexivity|]. repeat split.
  - intros Hnone. rewrite <- (map_id (results st)) at 2.
    apply map_ext_in. intros r Hr.
    rewrite List.Forall_forall in Hnone. apply Hother, Hnone, Hr.
  - apply filter_map_length. intros r. destruct (isTarget k l r) eqn:Hr.
    + rewrite (Htarget r Hr). simpl. rewrite andb_false_r. reflexivity.
    + rewrite (Hother r Hr). simpl. rewrite andb_true_r. reflexivity.
Qed.

Lemma updateLabel_Some (state : option BatchLabelingResult) (k l : string) :
  updateLabel state k l
  = match state with
    | None => None
    | Some st =>
        let f := fun r =>
          if isTarget k l r
          then {| itemId := itemId r; label := label r; confidence := 100;
                  reasoning := reasoning r;
                  uncertaintyExplanation := uncertaintyExplanation r;
                  needsReview := false;
                  needsLLMReasoning := needsLLMReasoning r |}
          else r in
        Some {| results := List.map f (results st);
                completedAt := completedAt st;
                processingTimeMs := processingTimeMs st;
                totalItems := totalItems st;
                reviewNeeded :=
                  length (List.filter needsReview (List.map f (results st))) |}
    end.
Proof. destruct state; reflexivity. Qed.

(** X18.  Confirmations are idempotent and independent of their order:
    confirming the same label twice is confirming it once, and two
    confirmations give the same state whichever comes first. *)
Theorem updateLabel_confirmations_commute (state : option BatchLabelingResult)
    (k l k' l' : string) :
  updateLabel (updateLabel state k l) k l = updateLabel state k l
  ∧ updateLabel (updateLabel state k l) k' l'
    = updateLabel (updateLabel state k' l') k l.
Proof.
  rewrite !updateLabel_Some. destruct state as [st|]; [|split; reflexivity].
  cbn zeta. cbn [results completedAt processingTimeMs totalItems].
  rewrite !map_map.
  split.
  - assert (Heq : ∀ A (a b : list LabelResult) (g : list LabelResult → A),
              a = b → g a = g b) by (intros; subst; reflexivity).
    apply (Heq _ _ _ (fun rs => Some {| results := rs; completedAt := completedAt st;
                                        processingTimeMs := processingTimeMs st;
                                        totalItems := totalItems st;
                                        reviewNeeded := length (List.filter needsReview rs) |})).
    apply map_ext. intros r. unfold isTarget.
    destruct (String.eqb (itemId r) k && String.eqb (label r) l) eqn:Hr; simpl;
      rewrite Hr; reflexivity.
  - assert (Heq : ∀ A (a b : list LabelResult) (g : list LabelResult → A),
              a = b → g a = g b) by (intros; subst; reflexivity).
    apply (Heq _ _ _ (fun rs => Some {| results := rs; completedAt := completedAt st;
                                        processingTimeMs := processingTimeMs st;
                                        totalItems := totalItems st;
                                        reviewNeeded := length (List.filter needsReview rs) |})).
    apply map_ext. intros r. unfold isTarget.
    destruct (String.eqb (itemId r) k && String.eqb (label r) l) eqn:Hr;
      destruct (String.eqb (itemId r) k' && String.eqb (label r) l') eqn:Hr';
      simpl; rewrite ?Hr, ?Hr'; reflexivity.
Qed.

End Review.

(** ** Upload: what the uploader hands over *)

Section StringFacts.

Lemma string_ind2 (P : string → Prop) :
  P EmptyString →
  (∀ c, P (String c EmptyString)) →
  (∀ c c' s, P s → P (String c' s) → P (String c (String c' s))) →
  ∀ s, P s.
Proof.
  intros H0 H1 H2 s.
  assert (H : P s ∧ ∀ c, P (String c s)).
  { induction s as [|c' s [IHs IHc]]; [split; [exact H0 | exact H1]|].
    split; [apply IHc|]. intros c. apply H2; [exact IHs | apply IHc]. }
  exact (proj1 H).
Qed.

Lemma blank_trimStart (s : string) : blank (trimStart s) = blank s.
Proof.
  induction s as [|c s IH]; [reflexivity|]. simpl.
  destruct (is_white_space c) eqn:Hc; simpl; [exact IH | rewrite Hc; reflexivity].
Qed.

Lemma trimEnd_empty (s : string) : trimEnd s = EmptyString ↔ blank s = true.
Proof.
  induction s as [|c s IH]; [split; reflexivity|]. simpl.
  destruct (trimEnd s) as [|d r] eqn:Hs.
  - rewrite (proj1 IH eq_refl), andb_true_r.
    destruct (is_white_space c); split; (reflexivity || discriminate).
  - assert (Hb : blank s = false).
    { destruct (blank s); [|reflexivity]. destruct IH as [_ IH]. discriminate (IH eq_refl). }
    rewrite Hb, andb_false_r. split; discriminate.
Qed.

Lemma trim_empty (s : string) : trim s = EmptyString ↔ blank s = true.
Proof. unfold trim. rewrite trimEnd_empty, blank_trimStart. reflexivity. Qed.

Lemma startsClean_trimStart (s : string) : startsClean (trimStart s) = true.
Proof.
  induction s as [|c s IH]; [reflexivity|]. simpl.
  destruct (is_white_space c) eqn:Hc; [exact IH | simpl; rewrite Hc; reflexivity].
Qed.

Lemma trimStart_of_clean (s : string) : startsClean s = true → trimStart s = s.
Proof.
  destruct s as [|c s]; [reflexivity|]. simpl.
  destruct (is_white_space c); [discriminate | reflexivity].
Qed.

Lemma startsClean_trimEnd (s : string) :
  startsClean s = true → startsClean (trimEnd s) = true.
Proof.
  destruct s as [|c s]; [reflexivity|]. simpl. intros Hc.
  destruct (trimEnd s); [|exact Hc].
  destruct (is_white_space c) eqn:E; simpl; rewrite ?E; reflexivity.
Qed.

Lemma trimEnd_idempotent (s : string) : trimEnd (trimEnd s) = trimEnd s.
Proof.
  induction s as [|c s IH]; [reflexivity|]. simpl.
  destruct (trimEnd s) as [|d r] eqn:Hs.
  - destruct (is_white_space c) eqn:Hc; [reflexivity|]. simpl. rewrite Hc. reflexivity.
  - change (trimEnd (String c (String d r)))
      with (match trimEnd (String d r) with
            | EmptyString =>
                if is_white_space c then EmptyString else String c EmptyString
            | r' => String c r'
            end).
    rewrite IH. reflexivity.
Qed.

Lemma trim_idempotent (s : string) : trim (trim s) = trim s.
Proof.
  unfold trim.
  rewrite (trimStart_of_clean (trimEnd (trimStart s))).
  - apply trimEnd_idempotent.
  - apply startsClean_trimEnd, startsClean_trimStart.
Qed.

Variable e : ascii.

Lemma charFree_cons (d : ascii) (s : string) :
  charFree e (String d s) ↔ Ascii.eqb e d = false ∧ charFree e s.
Proof. unfold charFree. rewrite includes_char_cons, orb_false_iff. reflexivity. Qed.

Lemma trimStart_charFree (s : string) : charFree e s → charFree e (trimStart s).
Proof.
  induction s as [|c s IH]; [intros H; exact H|]. simpl. intros H.
  destruct (is_white_space c); [|exact H].
  apply IH. apply charFree_cons in H. apply H.
Qed.

Lemma trimEnd_charFree (s : string) : charFree e s → charFree e (trimEnd s).
Proof.
  induction s as [|c s IH]; [intros H; exact H|]. simpl. intros H.
  apply charFree_cons in H as [Hc Hs]. specialize (IH Hs).
  destruct (trimEnd s) as [|d r].
  - destruct (is_white_space c); [reflexivity|].
    apply charFree_cons. split; [exact Hc | reflexivity].
  - apply charFree_cons. split; [exact Hc | exact IH].
Qed.

Lemma trim_charFree (s : string) : charFree e s → charFree e (trim s).
Proof. intros H. apply trimEnd_charFree, trimStart_charFree, H. Qed.

Lemma split_keeps_charFree (sep : ascii) (s : string) :
  charFree e s → Forall (charFree e) (split sep s).
Proof.
  induction s as [|c s IH]; [intros _; repeat constructor|].
  intros H. apply charFree_cons in H as [Hc Hs]. specialize (IH Hs). simpl.
  destruct (Ascii.eqb c sep); [constructor; [reflexivity | exact IH]|].
  destruct (split sep s) as [|p ps].
  - repeat constructor. apply charFree_cons. split; [exact Hc | reflexivity].
  - inversion IH as [|? ? Hp Hps]; subst.
    constructor; [|exact Hps]. apply charFree_cons. split; assumption.
Qed.

Lemma split_parts_sep_free (s : string) : Forall (charFree e) (split e s).
Proof.
  induction s as [|c s IH]; [repeat constructor|]. simpl.
  destruct (Ascii.eqb c e) eqn:Hc; [constructor; [reflexivity | exact IH]|].
  rewrite Ascii.eqb_sym in Hc.
  destruct (split e s) as [|p ps].
  - repeat constructor. apply charFree_cons. split; [exact Hc | reflexivity].
  - inversion IH as [|? ? Hp Hps]; subst.
    constructor; [|exact Hps]. apply charFree_cons. split; assumption.
Qed.

Lemma first_part_charFree (parts : list string) :
  Forall (charFree e) parts → charFree e (nth 0 parts EmptyString).
Proof. intros [|p ps Hp _]; [reflexivity | exact Hp]. Qed.

Lemma quotedBody_charFree (s inner : string) :
  DataUploader.quotedBody s = Some inner → charFree e s → charFree e inner.
Proof.
  revert inner. induction s as [|c s IH]; intros inner; [discriminate|].
  simpl. destruct s as [|c' s'].
  - destruct (Ascii.eqb c (ascii_of_nat 34)); [|discriminate].
    intros [= <-] _. reflexivity.
  - destruct (is_line_terminator c); [discriminate|].
    destruct (DataUploader.quotedBody (String c' s')) as [inner'|]; [|discriminate].
    intros [= <-] H. apply charFree_cons in H as [Hc Hs].
    apply charFree_cons. split; [exact Hc | apply IH; [reflexivity | exact Hs]].
Qed.

Lemma stripQuotes_charFree (line : string) :
  charFree e line → charFree e (DataUploader.stripQuotes line).
Proof.
  destruct line as [|c rest]; [intros H; exact H|]. simpl. intros H.
  destruct (Ascii.eqb c (ascii_of_nat 34)); [|exact H].
  destruct (DataUploader.quotedBody rest) as [inner|] eqn:Hq; [|exact H].
  apply charFree_cons in H as [_ Hrest].
  exact (quotedBody_charFree rest inner Hq Hrest).
Qed.

End StringFacts.

Lemma blank_cons_head (c : ascii) (parts : list string) :
  forallb blank (cons_head c parts) = is_white_space c && forallb blank parts.
Proof.
  destruct parts as [|p ps]; simpl; [|rewrite andb_assoc; reflexivity].
  rewrite !andb_true_r. reflexivity.
Qed.

(** A text is blank exactly when all its lines are. *)
Lemma split_lines_blank (s : string) : forallb blank (split_lines s) = blank s.
Proof.
  induction s as [| c | c c' s IHs IHc] using string_ind2.
  - reflexivity.
  - simpl. destruct (Ascii.eqb c LF) eqn:Hc;
      [|simpl; rewrite !andb_true_r; reflexivity].
    apply Ascii.eqb_eq in Hc. subst c. reflexivity.
  - change (split_lines (String c (String c' s)))
      with (if Ascii.eqb c LF then EmptyString :: split_lines (String c' s)
            else if Ascii.eqb c CR && Ascii.eqb c' LF
                 then EmptyString :: split_lines s
                 else cons_head c (split_lines (String c' s))).
    destruct (Ascii.eqb c LF) eqn:Hc.
    { apply Ascii.eqb_eq in Hc. subst c.
      change (forallb blank (split_lines (String c' s)) = blank (String c' s)).
      exact IHc. }
    destruct (Ascii.eqb c CR && Ascii.eqb c' LF) eqn:Hcr.
    { apply andb_true_iff in Hcr as [H1 H2].
      apply Ascii.eqb_eq in H1, H2. subst c c'.
      change (forallb blank (split_lines s) = blank s). exact IHs. }
    rewrite blank_cons_head, IHc. reflexivity.
Qed.

Lemma cons_head_noLineFeed (c : ascii) (parts : list string) :
  Ascii.eqb c LF = false →
  Forall noLineFeed parts → Forall noLineFeed (cons_head c parts).
Proof.
  intros Hc Hparts. rewrite Ascii.eqb_sym in Hc.
  destruct Hparts as [|p ps Hp Hps]; simpl.
  - repeat constructor. apply (charFree_cons LF). split; [exact Hc | reflexivity].
  - constructor; [|exact Hps]. apply (charFree_cons LF). split; assumption.
Qed.

(** No line holds a line feed. *)
Lemma split_lines_noLineFeed (s : string) : Forall noLineFeed (split_lines s).
Proof.
  induction s as [| c | c c' s IHs IHc] using string_ind2.
  - repeat constructor.
  - simpl. destruct (Ascii.eqb c LF) eqn:Hc; [repeat constructor|].
    apply (cons_head_noLineFeed c [EmptyString] Hc). repeat constructor.
  - change (split_lines (String c (String c' s)))
      with (if Ascii.eqb c LF then EmptyString :: split_lines (String c' s)
            else if Ascii.eqb c CR && Ascii.eqb c' LF
                 then EmptyString :: split_lines s
                 else cons_head c (split_lines (String c' s))).
    destruct (Ascii.eqb c LF) eqn:Hc; [constructor; [reflexivity | exact IHc]|].
    destruct (Ascii.eqb c CR && Ascii.eqb c' LF);
      [constructor; [reflexivity | exact IHs]|].
    apply cons_head_noLineFeed; assumption.
Qed.

Lemma nonEmpty_length (s : string) : Nat.ltb 0 (String.length s) = nonEmpty s.
Proof. destruct s; reflexivity. Qed.

Lemma nonEmpty_true (s : string) : nonEmpty s = true ↔ s ≠ EmptyString.
Proof. destruct s; simpl; split; (congruence || reflexivity || discriminate). Qed.

Lemma nonEmpty_trim (s : string) : nonEmpty (trim s) = negb (blank s).
Proof.
  destruct (blank s) eqn:Hb.
  - apply trim_empty in Hb. rewrite Hb. reflexivity.
  - destruct (trim s) eqn:Ht; [|reflexivity].
    apply trim_empty in Ht. congruence.
Qed.

Section Upload.
Import DataUploader.

(** X19.  What the paste handler hands over.  The items are the pasted
    lines (split at LF, or CR LF) that are not blank, trimmed, in their
    order: there are 1 to 100 of them, none is empty, none has white
    space around it or a line feed inside. *)
Theorem paste_hands_over_clean_items (pastedData : string) (d : ParsedData) :
  handlePasteSubmit pastedData = DataUploaded d →
  source d = paste
  ∧ items d = List.map trim (List.filter (fun line => negb (blank line))
                               (split_lines pastedData))
  ∧ 1 ≤ length (items d) ≤ 100
  ∧ Forall cleanItem (items d).
Proof.
  unfold handlePasteSubmit.
  destruct (negb (nonEmpty (trim pastedData))); [discriminate|].
  set (its := List.filter (fun line => Nat.ltb 0 (String.length line))
                (List.map trim (split_lines pastedData))).
  destruct (Nat.ltb_spec (length its) 1) as [|Hlo]; [discriminate|].
  destruct (Nat.ltb_spec 100 (length its)) as [|Hhi]; [discriminate|].
  intros [= <-]. simpl. split; [reflexivity|]. split; [|split; [lia|]].
  - unfold its. generalize (split_lines pastedData). intros ls.
    induction ls as [|l ls IH]; [reflexivity|]. simpl.
    rewrite nonEmpty_length, nonEmpty_trim.
    destruct (blank l); simpl; rewrite IH; reflexivity.
  - apply List.Forall_forall. intros it Hit. unfold its in Hit.
    apply filter_In in Hit as [Hit Hlen].
    apply in_map_iff in Hit as (line & <- & Hline).
    rewrite nonEmpty_length in Hlen. apply nonEmpty_true in Hlen.
    split; [exact Hlen|]. split; [apply trim_idempotent|].
    apply (trim_charFree LF).
    pose proof (split_lines_noLineFeed pastedData) as Hall.
    rewrite List.Forall_forall in Hall. apply Hall, Hline.
Qed.

Lemma paste_hands_over_clean_items_witness :
  items {| items := ["Login fails on Safari"; "Refund not received"]; source := paste |}
  = List.map trim (List.filter (fun line => negb (blank line)) (split_lines samplePaste))
  ∧ Forall cleanItem ["Login fails on Safari"; "Refund not received"].
Proof.
  destruct (paste_hands_over_clean_items samplePaste
              {| items := ["Login fails on Safari"; "Refund not received"];
                 source := paste |} eq_refl) as (_ & Hitems & _ & Hclean).
  split; [exact Hitems | exact Hclean].
Defined.

Lemma forallb_false_ex {A : Type} (p : A → bool) (l : list A) :
  forallb p l = false → ∃ x, In x l ∧ p x = false.
Proof.
  induction l as [|a l IH]; simpl; [discriminate|].
  destruct (p a) eqn:Ha; simpl.
  - intros H. destruct (IH H) as (x & Hx & Hpx). eauto.
  - intros _. eauto.
Qed.

(** X20.  The errors of the paste handler.  It asks for text exactly
    when the pasted text is blank, and refuses more than 100 lines that
    are not blank; its error [No valid data found] is never set: a text
    that is not blank has a line that is not blank. *)
Theorem paste_errors (pastedData : string) :
  (handlePasteSubmit pastedData = UploadError "Please enter some text data"
   ↔ blank pastedData = true)
  ∧ handlePasteSubmit pastedData ≠ UploadError "No valid data found"
  ∧ handlePasteSubmit pastedData ≠ NoFile
  ∧ (handlePasteSubmit pastedData = UploadError tooMany
     ↔ 100 < length (List.filter (fun line => negb (blank line))
                       (split_lines pastedData))).
Proof.
  unfold handlePasteSubmit. rewrite nonEmpty_trim, negb_involutive.
  set (its := List.filter (fun line => Nat.ltb 0 (String.length line))
                (List.map trim (split_lines pastedData))).
  assert (Hlen : length its
                 = length (List.filter (fun line => negb (blank line))
                             (split_lines pastedData))).
  { unfold its. generalize (split_lines pastedData). intros ls.
    induction ls as [|l ls IH]; [reflexivity|]. simpl.
    rewrite nonEmpty_length, nonEmpty_trim.
    destruct (blank l); simpl; rewrite IH; reflexivity. }
  rewrite <- Hlen.
  destruct (blank pastedData) eqn:Hb.
  { split; [split; reflexivity|]. split; [discriminate|]. split; [discriminate|].
    split; [discriminate|]. intros Hmany. exfalso.
    rewrite Hlen in Hmany. rewrite <- split_lines_blank in Hb.
    rewrite (filter_none _ (split_lines pastedData)) in Hmany; [simpl in Hmany; lia|].
    apply List.Forall_forall. intros l Hl.
    rewrite forallb_forall in Hb. rewrite (Hb l Hl). reflexivity. }
  assert (Hpos : 1 ≤ length its).
  { rewrite <- split_lines_blank in Hb.
    apply forallb_false_ex in Hb as (line & Hline & Hbl).
    assert (Hin : In (trim line) its).
    { unfold its. apply filter_In. split; [apply in_map, Hline|].
      rewrite nonEmpty_length, nonEmpty_trim, Hbl. reflexivity. }
    destruct its; [destruct Hin | simpl; lia]. }
  destruct (Nat.ltb_spec (length its) 1) as [|_]; [lia|].
  destruct (Nat.ltb_spec 100 (length its)) as [Hmany | Hfew].
  - split; [split; discriminate|]. split; [discriminate|]. split; [discriminate|].
    split; intros _; [exact Hmany | reflexivity].
  - split; [split; discriminate|]. split; [discriminate|]. split; [discriminate|].
    split; [discriminate | lia].
Qed.

(** X21.  What the file handler hands over.  A file is read only when
    its type is text/csv or its name ends in .csv; the items handed
    over are 1 to 100 first columns: none is empty, none has white space
    around it, a line feed or a comma inside. *)
Theorem file_hands_over_clean_items (f : File) (d : ParsedData) :
  handleFileUpload (Some f) = DataUploaded d →
  source d = file
  ∧ (file_type f = "text/csv" ∨ endsWith (file_name f) ".csv" = true)
  ∧ 1 ≤ length (items d) ≤ 100
  ∧ Forall (fun it => cleanItem it ∧ charFree ","%char it) (items d).
Proof.
  unfold handleFileUpload.
  destruct (String.eqb_spec (file_type f) "text/csv") as [Htype | _];
    destruct (endsWith (file_name f) ".csv") eqn:Hname; simpl; try discriminate;
    (destruct (file_text f) as [text'|]; [|discriminate]);
    (set (its := List.filter (fun item => Nat.ltb 0 (String.length item))
                   (List.map firstColumn
                      (List.filter (fun line => nonEmpty (trim line))
                         (split_lines text')))));
    (destruct (Nat.ltb_spec (length its) 1) as [|Hlo]; [discriminate|]);
    (destruct (Nat.ltb_spec 100 (length its)) as [|Hhi]; [discriminate|]);
    intros [= <-]; simpl; (split; [reflexivity|]); (split; [auto|]);
    (split; [lia|]);
    apply List.Forall_forall; intros it Hit; unfold its in Hit;
    apply filter_In in Hit as [Hit Hlen];
    apply in_map_iff in Hit as (line & <- & Hline);
    apply filter_In in Hline as [Hline _];
    rewrite nonEmpty_length in Hlen; apply nonEmpty_true in Hlen;
    pose proof (split_lines_noLineFeed text') as Hall;
    rewrite List.Forall_forall in Hall; specialize (Hall line Hline);
    unfold firstColumn in *;
    (split; [split; [exact Hlen | split; [apply trim_idempotent|]]|]).
  all: try (apply (trim_charFree LF), first_part_charFree, split_keeps_charFree,
            stripQuotes_charFree, Hall).
  all: apply trim_charFree, first_part_charFree, split_parts_sep_free.
Qed.

Lemma file_hands_over_clean_items_witness :
  Forall (fun it => cleanItem it ∧ charFree ","%char it) ["text"; "Login fails"].
Proof.
  exact (proj2 (proj2 (proj2
    (file_hands_over_clean_items sampleFile
       {| items := ["text"; "Login fails"]; source := file |} eq_refl)))).
Defined.

(** The file handler can end with no item: a line whose first column is
    empty gives none. *)
Example file_without_first_column :
  handleFileUpload
    (Some {| file_type := "text/csv"; file_name := "tickets.csv";
             file_text := Return ",unlabelled" |})
  = UploadError "No valid data found in CSV".
Proof. reflexivity. Qed.

End Upload.

(** ** Intent capture: what [handleSubmit] hands over *)

Section Capture.
Import IntentCapture.

Lemma readGuideline_bullets (guideline' : string) (ls : list string) :
  ∀ l, In l (readGuideline guideline' ls).2 → In l ls.
Proof.
  revert guideline'. induction ls as [|line rest IH]; intros guideline' l; simpl.
  - intros [].
  - destruct (startsWith line "-"); simpl; [tauto|].
    intros Hl. right. exact (IH _ l Hl).
Qed.

Lemma readOption_wellFormed (line : string) :
  Forall (fun o => trim (name o) = name o ∧ charFree colon (name o)
                   ∧ trim (description o) = description o)
    (readOption line).
Proof.
  unfold readOption. destruct (startsWith line "-"); [|constructor].
  destruct (Nat.leb 2 _); [|constructor].
  repeat constructor; simpl; try apply trim_idempotent.
  apply trim_charFree, first_part_charFree, split_parts_sep_free.
Qed.

Lemma parseCategory_wellFormed (catText : string) :
  Forall wellFormedCategory (parseCategory catText).
Proof.
  unfold parseCategory. destruct (negb (nonEmpty (trim catText))); [constructor|].
  destruct (List.filter nonEmpty (List.map trim (split LF catText)))
    as [|type' rest] eqn:Hlines; [constructor|].
  destruct (readGuideline EmptyString rest) as [guideline' bullets] eqn:Hread.
  repeat constructor; simpl.
  - assert (Hin : In type' (List.filter nonEmpty (List.map trim (split LF catText))))
      by (rewrite Hlines; left; reflexivity).
    apply filter_In in Hin as [_ Hne]. apply nonEmpty_true, Hne.
  - assert (Hin : In type' (List.filter nonEmpty (List.map trim (split LF catText))))
      by (rewrite Hlines; left; reflexivity).
    apply filter_In in Hin as [Hin _].
    apply in_map_iff in Hin as (l & <- & _). apply trim_idempotent.
  - assert (Hin : In type' (List.filter nonEmpty (List.map trim (split LF catText))))
      by (rewrite Hlines; left; reflexivity).
    apply filter_In in Hin as [Hin _].
    apply in_map_iff in Hin as (l & <- & Hl).
    apply (trim_charFree LF).
    pose proof (split_parts_sep_free LF catText) as Hall.
    rewrite List.Forall_forall in Hall. apply Hall, Hl.
  - apply List.Forall_forall. intros o Ho.
    apply in_flat_map in Ho as (line & _ & Ho).
    pose proof (readOption_wellFormed line) as Hall.
    rewrite List.Forall_forall in Hall. apply Hall, Ho.
Qed.

Lemma parseSection_invariant (result : LabelingIntent) (section : string) :
  trim (datasetDescription result) = datasetDescription result
  ∧ Forall wellFormedCategory (labelCategories result) →
  trim (datasetDescription (parseSection result section))
  = datasetDescription (parseSection result section)
  ∧ Forall wellFormedCategory (labelCategories (parseSection result section)).
Proof.
  intros [Hd Hc]. unfold parseSection.
  destruct (negb (nonEmpty (trim section))); [split; assumption|].
  destruct (startsWith (trim section) "Dataset Description"); simpl;
    [split; [apply trim_idempotent | exact Hc]|].
  destruct (startsWith (trim section) "Label Categories"); simpl.
  - split; [exact Hd|]. apply Forall_app. split; [exact Hc|].
    apply List.Forall_forall. intros c Hin.
    apply in_flat_map in Hin as (catText & _ & Hin).
    pose proof (parseCategory_wellFormed catText) as Hall.
    rewrite List.Forall_forall in Hall. apply Hall, Hin.
  - destruct (startsWith (trim section) "General Guidelines"); simpl; split; assumption.
Qed.

Lemma parseSections_invariant (sections : list string) (result : LabelingIntent) :
  trim (datasetDescription result) = datasetDescription result
  ∧ Forall wellFormedCategory (labelCategories result) →
  trim (datasetDescription (fold_left parseSection sections result))
  = datasetDescription (fold_left parseSection sections result)
  ∧ Forall wellFormedCategory
      (labelCategories (fold_left parseSection sections result)).
Proof.
  revert result. induction sections as [|section sections IH]; intros result Hres; simpl.
  - exact Hres.
  - apply IH, parseSection_invariant, Hres.
Qed.

Lemma parseConfigText_invariant (text' : string) :
  trim (datasetDescription (parseConfigText text'))
  = datasetDescription (parseConfigText text')
  ∧ Forall wellFormedCategory (labelCategories (parseConfigText text')).
Proof.
  unfold parseConfigText. apply parseSections_invariant.
  split; [reflexivity | constructor].
Qed.

(** X22.  What [handleSubmit] hands over.  The intent handed to
    [onIntentCaptured] is the parsed text; its dataset description is
    not empty; it declares at least one category, and one with an
    option; every category type is a trimmed line that is not empty,
    every option name is trimmed and holds no colon. *)
Theorem captured_intent_is_well_formed (configText : string) (config : LabelingIntent) :
  handleSubmit configText = IntentCaptured config →
  config = parseConfigText configText
  ∧ datasetDescription config ≠ EmptyString
  ∧ labelCategories config ≠ []
  ∧ Exists (fun c => options c ≠ []) (labelCategories config)
  ∧ Forall wellFormedCategory (labelCategories config).
Proof.
  unfold handleSubmit.
  destruct (nonEmpty (trim (datasetDescription (parseConfigText configText))))
    eqn:Hd; simpl; [|discriminate].
  destruct (Nat.eqb_spec (length (labelCategories (parseConfigText configText))) 0)
    as [|Hlen]; [discriminate|].
  destruct (existsb _ (labelCategories (parseConfigText configText))) eqn:Hex;
    simpl; [|discriminate].
  intros [= <-]. split; [reflexivity|].
  destruct (parseConfigText_invariant configText) as [Htrim Hwf].
  split; [|split; [|split; [|exact Hwf]]].
  - rewrite Htrim in Hd. apply nonEmpty_true, Hd.
  - intros Hnil. rewrite Hnil in Hlen. apply Hlen. reflexivity.
  - apply existsb_exists in Hex as (c & Hc & Hopt).
    apply List.Exists_exists. exists c. split; [exact Hc|].
    destruct (options c); [discriminate | discriminate].
Qed.

Lemma captured_intent_is_well_formed_witness :
  sampleConfig = parseConfigText sampleConfigText
  ∧ Forall wellFormedCategory (labelCategories sampleConfig).
Proof.
  destruct (captured_intent_is_well_formed sampleConfigText sampleConfig eq_refl)
    as (Hparse & _ & _ & _ & Hwf).
  split; [exact Hparse | exact Hwf].
Defined.

End Capture.

(** ** From the upload to the review *)

Section Pipeline.
Import IntentCapture.

Lemma item_id_form (s : string) :
  "item-" +:+ s
  = String "i"%char (String "t"%char (String "e"%char (String "m"%char
      (String "-"%char s)))).
Proof. reflexivity. Qed.

Lemma item_id_not_inherited (s : string) : inherited_key ("item-" +:+ s) = false.
Proof.
  rewrite item_id_form. unfold inherited_key, object_prototype_keys.
  apply bool_decide_eq_false. rewrite !elem_of_cons, elem_of_nil.
  intros H. repeat (destruct H as [H | H]; [discriminate H|]). exact H.
Qed.

Lemma item_id_not_index (s : string) : array_index ("item-" +:+ s) = None.
Proof. rewrite item_id_form. reflexivity. Qed.

Lemma to_int_not_nil (n : Z) : Z.to_int n ≠ Decimal.Pos Decimal.Nil
                               ∧ Z.to_int n ≠ Decimal.Neg Decimal.Nil.
Proof.
  split; intros H; pose proof (DecimalZ.of_to n) as Hn; rewrite H in Hn;
    simpl in Hn; subst n; discriminate H.
Qed.

Lemma number_to_string_inj (n m : Z) :
  number_to_string n = number_to_string m → n = m.
Proof.
  unfold number_to_string. intros H.
  destruct (to_int_not_nil n) as [Hn1 Hn2]. destruct (to_int_not_nil m) as [Hm1 Hm2].
  pose proof (NilZero.isi (Z.to_int n) Hn1 Hn2) as Hn.
  pose proof (NilZero.isi (Z.to_int m) Hm1 Hm2) as Hm.
  rewrite H, Hm in Hn. injection Hn as Hn. apply DecimalZ.to_int_inj. congruence.
Qed.

Lemma handleDataUploaded_lookup (d : DataUploader.ParsedData) (i : nat) :
  DataLabeler.handleDataUploaded d !! i
  = (fun text' => {| text := text';
                     id := "item-" +:+ number_to_string (Z.of_nat i) |})
    <$> DataUploader.items d !! i.
Proof. unfold DataLabeler.handleDataUploaded. apply list_lookup_imap. Qed.

(** X23.  The ids of the uploaded items.  The i-th uploaded text becomes
    the item [item-i]; the ids are distinct, none is a name that objects
    inherit, none is an array index: the grouping of the coverage
    enhancer cannot fail on them and keeps their order. *)
Theorem uploaded_items_get_fresh_ids (d : DataUploader.ParsedData) :
  List.map text (DataLabeler.handleDataUploaded d) = DataUploader.items d
  ∧ (∀ i it, DataLabeler.handleDataUploaded d !! i = Some it →
             id it = "item-" +:+ number_to_string (Z.of_nat i))
  ∧ NoDup (List.map id (DataLabeler.handleDataUploaded d))
  ∧ Forall (fun it => inherited_key (id it) = false ∧ array_index (id it) = None)
      (DataLabeler.handleDataUploaded d).
Proof.
  assert (Hid : ∀ i it, DataLabeler.handleDataUploaded d !! i = Some it →
                        id it = "item-" +:+ number_to_string (Z.of_nat i)).
  { intros i it. rewrite handleDataUploaded_lookup.
    destruct (DataUploader.items d !! i); simpl; [|discriminate].
    intros [= <-]. reflexivity. }
  split; [|split; [exact Hid|split]].
  - rewrite <- fmap_map. apply list_eq. intros i.
    rewrite list_lookup_fmap, handleDataUploaded_lookup.
    destruct (DataUploader.items d !! i); reflexivity.
  - rewrite <- fmap_map. apply NoDup_alt. intros i j k.
    rewrite !list_lookup_fmap.
    destruct (DataLabeler.handleDataUploaded d !! i) as [it|] eqn:Hi; [|discriminate].
    destruct (DataLabeler.handleDataUploaded d !! j) as [it'|] eqn:Hj; [|discriminate].
    simpl. intros [= <-] [= Heq].
    rewrite (Hid i it Hi), (Hid j it' Hj), !item_id_form in Heq.
    injection Heq as Heq. apply number_to_string_inj in Heq. lia.
  - apply Forall_forall. intros it Hit.
    apply list_elem_of_lookup in Hit as [i Hi]. rewrite (Hid i it Hi).
    split; [apply item_id_not_inherited | apply item_id_not_index].
Qed.

Lemma run_results_label_items (items : list DataItem)
    (intent : LabelingAgent.LabelingIntent) (ai : AI) (batchSize : nat) :
  0 < batchSize →
  ∃ st, labelDataBatch_run items intent ai batchSize = Some st
        ∧ Forall (labelsAnItem items) (pushed st).
Proof.
  intros Hb.
  destruct (labelDataBatch_run_chunks items intent ai batchSize Hb)
    as (batches & Hsplit & Hrun).
  eexists. split; [exact Hrun|]. simpl.
  destruct (splitIntoBatches_shape _ _ _ _ _ Hb Hsplit) as (Hc & _).
  rewrite drop_0 in Hc.
  apply List.Forall_forall. intros r Hr.
  apply in_concat in Hr as (chunk & Hchunk & Hr).
  apply list_elem_of_In, elem_of_lookup_imap_1 in Hchunk as (k & batch & -> & Hk).
  pose proof (chunkOutput_ids ai intent k batch) as Hids.
  rewrite List.Forall_forall in Hids. destruct (Hids r Hr) as (item & Hin & Hid).
  exists item. split; [|exact Hid].
  rewrite <- Hc. apply in_concat. exists batch. split; [|exact Hin].
  apply list_elem_of_In, list_elem_of_lookup. eauto.
Qed.

Lemma valid_request_results (items : list DataItem) (description : string)
    (categories : list string) (guidelines' : string) (ai : AI) (clock : Clock) :
  1 ≤ length items ≤ 100 → description ≠ EmptyString → categories ≠ [] →
  ∃ result calls,
    LabelingApi.handleLabelingRequest
      (validRequest items description categories guidelines') ai clock
    = Some ({| LabelingApi.status := 200;
               LabelingApi.body := LabelingApi.ResultBody result |}, calls)
    ∧ totalItems result = length items
    ∧ Forall (labelsAnItem items) (results result).
Proof.
  intros [Hlo Hhi] Hdesc Hcats. unfold validRequest. simpl.
  destruct (Nat.eqb_spec (length items) 0) as [|_]; [lia|].
  destruct (Nat.ltb_spec 100 (length items)) as [|_]; [lia|]. simpl.
  destruct (String.eqb_spec description EmptyString) as [|_]; [contradiction|].
  destruct categories as [|c cs]; [contradiction|]. simpl.
  set (batchSize := if Nat.leb (length items) 5 then 1 else 5).
  assert (Hb : 0 < batchSize) by (unfold batchSize; destruct (Nat.leb _ _); lia).
  set (intent := {| LabelingAgent.datasetDescription := description;
                    LabelingAgent.labelCategories := c :: cs;
                    guidelines := guidelines' |}).
  destruct (run_results_label_items items intent ai batchSize Hb) as (st & Hrun & Hids).
  unfold labelDataBatch. rewrite Hrun. simpl.
  eexists _, _. split; [reflexivity|]. simpl. split; [reflexivity | exact Hids].
Qed.

Lemma labelRequest_validRequest (data : list DataItem) (intent : LabelingIntent) :
  UseLabelingService.labelRequest data intent
  = validRequest data (datasetDescription intent)
      (List.map UseLabelingService.categoryDescriptor (labelCategories intent))
      (UseLabelingService.formatGuidelines intent).
Proof.
  unfold UseLabelingService.labelRequest, validRequest. do 3 f_equal.
  induction data as [|[t i] data IH]; simpl; [reflexivity|]. rewrite IH. reflexivity.
Qed.

Lemma enhancer_labels_items (results' : list LabelResult) (intent : LabelingIntent)
    (data data' : list DataItem) :
  Forall (labelsAnItem data) results' →
  Forall (fun r => inherited_key (itemId r) = false) results' →
  ∃ out, UseLabelingService.postProcessResults results' intent data' = Return out
         ∧ Forall (labelsAnItem data) out.
Proof.
  intros Hitems Hkeys. unfold UseLabelingService.postProcessResults.
  rewrite (proj2 (groupByItem_spec results' (groupsOf results')))
    by (split; [exact Hkeys | reflexivity]).
  simpl. eexists. split; [reflexivity|].
  apply List.Forall_forall. intros r Hr.
  apply in_flat_map in Hr as ([k g] & Hkg & Hr).
  apply list_elem_of_In in Hkg. rewrite entries_Permutation in Hkg.
  apply list_elem_of_In in Hkg. unfold groupsOf in Hkg.
  apply in_map_iff in Hkg as (k' & [= <- <-] & Hk).
  apply list_elem_of_In, keysOf_elem in Hk as (r0 & Hr0 & Hid0).
  assert (Hg : Forall (fun r => itemId r = k') (resultsOf k' results')).
  { apply List.Forall_forall. intros x Hx.
    apply filter_In in Hx as [_ Hx]. apply String.eqb_eq, Hx. }
  pose proof (enhanceItem_itemId intent k' _ Hg) as Hall.
  rewrite List.Forall_forall in Hall. specialize (Hall r Hr).
  rewrite List.Forall_forall in Hitems. destruct (Hitems r0 Hr0) as (it & Hit & Hid).
  exists it. split; [exact Hit | congruence].
Qed.

Lemma accepted_count (d : DataUploader.ParsedData) :
  accepted d → 1 ≤ length (DataUploader.items d) ≤ 100.
Proof.
  intros [[pastedData H] | [f H]].
  - unfold DataUploader.handlePasteSubmit in H.
    destruct (negb _); [discriminate|].
    destruct (Nat.ltb_spec (length (List.filter (fun line => Nat.ltb 0 (String.length line))
                                      (List.map trim (split_lines pastedData)))) 1);
      [discriminate|].
    destruct (Nat.ltb_spec 100 (length (List.filter (fun line => Nat.ltb 0 (String.length line))
                                          (List.map trim (split_lines pastedData)))));
      [discriminate|].
    injection H as <-. simpl. lia.
  - unfold DataUploader.handleFileUpload in H.
    destruct (_ && _); [discriminate|].
    destruct (DataUploader.file_text f) as [text'|]; [|discriminate].
    destruct (Nat.ltb_spec
                (length (List.filter (fun item => Nat.ltb 0 (String.length item))
                   (List.map DataUploader.firstColumn
                      (List.filter (fun line => nonEmpty (trim line))
                         (split_lines text'))))) 1); [discriminate|].
    destruct (Nat.ltb_spec 100
                (length (List.filter (fun item => Nat.ltb 0 (String.length item))
                   (List.map DataUploader.firstColumn
                      (List.filter (fun line => nonEmpty (trim line))
                         (split_lines text'))))));
      [discriminate|].
    injection H as <-. simpl. lia.
Qed.

Lemma captured_checks (configText : string) (config : LabelingIntent) :
  handleSubmit configText = IntentCaptured config →
  datasetDescription config ≠ EmptyString ∧ labelCategories config ≠ [].
Proof.
  unfold handleSubmit.
  destruct (nonEmpty (trim (datasetDescription (parseConfigText configText))))
    eqn:Hd; simpl; [|discriminate].
  destruct (Nat.eqb_spec (length (labelCategories (parseConfigText configText))) 0)
    as [|Hlen]; [discriminate|].
  destruct (negb _); [discriminate|].
  intros [= <-]. split.
  - intros Hnil. rewrite Hnil in Hd. discriminate Hd.
  - intros Hnil. rewrite Hnil in Hlen. apply Hlen. reflexivity.
Qed.

(** X24.  From the upload to the review.  For every upload that one of
    the two handlers of the uploader hands over and every intent that
    [handleSubmit] hands over, whatever the inference backend and the
    backfill round trips answer: the request [labelData] builds passes
    the checks of the labeling service, which answers 200; [labelData]
    does not answer null; its result counts the uploaded items, and
    every result it holds carries the id of an uploaded item. *)
Theorem accepted_upload_reaches_review (d : DataUploader.ParsedData)
    (configText : string) (config : LabelingIntent) (ai : AI)
    (clock clock' : Clock) (backfill : UseLabelingService.Backfill) :
  accepted d →
  handleSubmit configText = IntentCaptured config →
  ∃ response calls state,
    LabelingApi.handleLabelingRequest
      (UseLabelingService.labelRequest (DataLabeler.handleDataUploaded d) config)
      ai clock
    = Some (response, calls)
    ∧ LabelingApi.status response = 200%Z
    ∧ UseLabelingService.labelData (DataLabeler.handleDataUploaded d) config
        (UseLabelingService.FetchResponse response) backfill clock'
      = Some state
    ∧ totalItems state = length (DataUploader.items d)
    ∧ Forall (labelsAnItem (DataLabeler.handleDataUploaded d)) (results state).
Proof.
  intros Hd Hc.
  set (data := DataLabeler.handleDataUploaded d).
  assert (Hlen : length data = length (DataUploader.items d)).
  { unfold data, DataLabeler.handleDataUploaded. apply length_imap. }
  pose proof (accepted_count d Hd) as Hcount. rewrite <- Hlen in Hcount.
  destruct (captured_checks configText config Hc) as [Hdesc Hcats].
  assert (Hcats' : List.map UseLabelingService.categoryDescriptor (labelCategories config)
                   ≠ []).
  { destruct (labelCategories config); [contradiction | discriminate]. }
  destruct (valid_request_results data (datasetDescription config) _
              (UseLabelingService.formatGuidelines config) ai clock
              Hcount Hdesc Hcats') as (result & calls & Hresp & Htotal & Hids).
  rewrite <- labelRequest_validRequest in Hresp.
  assert (Hkeys : Forall (fun r => inherited_key (itemId r) = false) (results result)).
  { eapply Forall_impl; [exact Hids|]. intros r (it & Hit & ->).
    apply list_elem_of_In, list_elem_of_lookup in Hit as [i Hi].
    unfold data in Hi. rewrite handleDataUploaded_lookup in Hi.
    destruct (DataUploader.items d !! i); simpl in Hi; [|discriminate].
    injection Hi as <-. apply item_id_not_inherited. }
  destruct (enhancer_labels_items (results result) config data data Hids Hkeys)
    as (out & Hout & Hout_ids).
  eexists _, calls, _. split; [exact Hresp|]. split; [reflexivity|].
  unfold UseLabelingService.labelData.
  cbn [LabelingApi.status LabelingApi.body]. rewrite Hout.
  split; [reflexivity|]. cbn [totalItems results].
  split; [rewrite Htotal; exact Hlen|].
  destruct (Nat.ltb 0 _); [|exact Hout_ids].
  assert (Hslots : Forall2 keepsSlot out
                     (UseLabelingService.generateReasoningForLabels out config data
                        backfill)).
  { unfold UseLabelingService.generateReasoningForLabels.
    destruct (Nat.eqb _ 0); [apply keepsSlot_same|].
    apply process_keepsSlot, keepsSlot_same. }
  apply Forall_forall. intros r' Hr'.
  apply list_elem_of_lookup in Hr' as [i Hi].
  destruct (Forall2_lookup_r _ _ _ _ _ Hslots Hi) as (r & Hr & Hid & _).
  rewrite Forall_forall in Hout_ids.
  destruct (Hout_ids r) as (it & Hit & Hrid);
    [apply list_elem_of_lookup; eauto|].
  exists it. split; [exact Hit | congruence].
Qed.

Lemma accepted_upload_reaches_review_witness :
  ∃ response calls state,
    LabelingApi.handleLabelingRequest
      (UseLabelingService.labelRequest
         (DataLabeler.handleDataUploaded samplePasteData) sampleConfig)
      confidentAI sampleClock
    = Some (response, calls)
    ∧ LabelingApi.status response = 200%Z
    ∧ UseLabelingService.labelData (DataLabeler.handleDataUploaded samplePasteData)
        sampleConfig (UseLabelingService.FetchResponse response) failingBackfill
        sampleClock
      = Some state
    ∧ totalItems state = 2
    ∧ Forall (labelsAnItem (DataLabeler.handleDataUploaded samplePasteData))
        (results state).
Proof.
  refine (accepted_upload_reaches_review samplePasteData sampleConfigText sampleConfig
            confidentAI sampleClock sampleClock failingBackfill _ eq_refl).
  left. exists samplePaste. reflexivity.
Defined.

End Pipeline.

(** ** Storage hook: the view and the store *)

Section Hook.
Import DataStorage.
Import UseDataStorage.

(** What [saveResults] and [finishSession] leave, from what the storage
    operation returned. *)
Lemma afterUpdate_inSync (sid : string) (updated : option LabelingSession)
    (h : HookState) (st st' : Storage) :
  inSync h st →
  match updated with
  | Some s => getSession (id s) st' = Some s
  | None => st' = st
  end →
  inSync (afterUpdate sid updated h st') st'.
Proof.
  intros (Hlist & Hcur & Hload) Hupd. unfold afterUpdate.
  destruct updated as [s|]; simpl.
  - split; [reflexivity|]. split; [|reflexivity].
    intros s' [= <-]. exact Hupd.
  - subst st'. split; [exact Hlist|]. split; [exact Hcur | reflexivity].
Qed.

Lemma updateSessionResults_stored (now sid : string) (results' : list LabelResult)
    (st : Storage) :
  match (updateSessionResults now sid results' st).1 with
  | Some s' =>
      getSession (id s') (updateSessionResults now sid results' st).2 = Some s'
      ∧ results s' = results'
      ∧ ∃ s, getSession sid st = Some s ∧ id s' = id s
  | None => getSession sid st = None ∧ (updateSessionResults now sid results' st).2 = st
  end.
Proof.
  unfold updateSessionResults, getSession.
  destruct (sessionRecords st !! sid) as [s|] eqn:Hs; simpl.
  - split; [apply lookup_insert_eq|]. split; [reflexivity|]. eauto.
  - split; reflexivity.
Qed.

Lemma completeSession_stored (now sid : string) (st : Storage) :
  match (completeSession now sid st).1 with
  | Some s' =>
      getSession (id s') (completeSession now sid st).2 = Some s'
      ∧ status s' = completed
  | None => getSession sid st = None ∧ (completeSession now sid st).2 = st
  end.
Proof.
  unfold completeSession, getSession.
  destruct (sessionRecords st !! sid) as [s|] eqn:Hs; simpl.
  - split; [apply lookup_insert_eq | reflexivity].
  - split; reflexivity.
Qed.

Lemma saveResults_unfold (now sid : string) (results' : list LabelResult)
    (h : HookState) (st : Storage) :
  saveResults now sid results' h st
  = ((updateSessionResults now sid results' st).1,
     afterUpdate sid (updateSessionResults now sid results' st).1 h
       (updateSessionResults now sid results' st).2,
     (updateSessionResults now sid results' st).2).
Proof.
  unfold saveResults. destruct (updateSessionResults now sid results' st). reflexivity.
Qed.

Lemma finishSession_unfold (now sid : string) (h : HookState) (st : Storage) :
  finishSession now sid h st
  = ((completeSession now sid st).1,
     afterUpdate sid (completeSession now sid st).1 h (completeSession now sid st).2,
     (completeSession now sid st).2).
Proof.
  unfold finishSession. destruct (completeSession now sid st). reflexivity.
Qed.

(** X25.  The hook shows what is stored.  When the list of the hook is
    the stored list and its current session is the stored record of that
    id, every operation of the hook leaves it so, with [loading] off.
    [saveResults] and [finishSession] on an id with no record set the
    error [Session <id> not found] and change neither the store nor the
    current session; on a stored id the session they return becomes the
    current session.  [removeSession] never leaves the removed session
    as the current one. *)
Theorem hook_shows_what_is_stored (h : HookState) (st : Storage) :
  keyedById st → inSync h st →
  inSync (loadSessions h st).2 st
  ∧ (∀ sid, inSync (loadSession sid h st).2 st
            ∧ (loadSession sid h st).1 = getSession sid st
            ∧ (getSession sid st = None →
               error (loadSession sid h st).2 = Some (notFound sid)))
  ∧ (∀ nowMs now name' data' intent',
       let w := startNewSession nowMs now name' data' intent' h st in
       inSync w.1.2 w.2 ∧ keyedById w.2
       ∧ is_Some w.1.1 ∧ currentSession w.1.2 = w.1.1 ∧ error w.1.2 = None)
  ∧ (∀ now sid results',
       let w := saveResults now sid results' h st in
       inSync w.1.2 w.2 ∧ keyedById w.2
       ∧ match w.1.1 with
         | Some s => currentSession w.1.2 = Some s ∧ results s = results'
                     ∧ error w.1.2 = None
         | None => getSession sid st = None ∧ w.2 = st
                   ∧ currentSession w.1.2 = currentSession h
                   ∧ error w.1.2 = Some (notFound sid)
         end)
  ∧ (∀ now sid,
       let w := finishSession now sid h st in
       inSync w.1.2 w.2 ∧ keyedById w.2
       ∧ match w.1.1 with
         | Some s => currentSession w.1.2 = Some s ∧ status s = completed
                     ∧ error w.1.2 = None
         | None => getSession sid st = None ∧ w.2 = st
                   ∧ currentSession w.1.2 = currentSession h
                   ∧ error w.1.2 = Some (notFound sid)
         end)
  ∧ (∀ sid,
       let w := removeSession sid h st in
       inSync w.1.2 w.2 ∧ keyedById w.2 ∧ w.1.1 = true
       ∧ getSession sid w.2 = None ∧ error w.1.2 = None
       ∧ Forall (fun s => id s ≠ sid) (option_list (currentSession w.1.2))).
Proof.
  intros Hkey Hsync. pose proof Hsync as (Hlist & Hcur & Hload).
  split; [|split; [|split; [|split; [|split]]]].
  - split; [reflexivity|]. split; [exact Hcur | exact Hload].
  - intros sid. split; [|split; [reflexivity|]].
    + split; [exact Hlist|]. split; [|reflexivity].
      simpl. intros s Hs. rewrite <- (Hkey sid s Hs) in Hs. exact Hs.
    + simpl. intros ->. reflexivity.
  - intros nowMs now name' data' intent'. simpl.
    split; [|split; [apply (createSession_keyedById nowMs now name' data' intent' st Hkey)|]].
    + split; [reflexivity|]. split; [|reflexivity].
      simpl. intros s [= <-]. unfold getSession. simpl. apply lookup_insert_eq.
    + split; [eauto|]. split; reflexivity.
  - intros now sid results'. rewrite saveResults_unfold. cbn zeta.
    cbn [fst snd].
    pose proof (updateSessionResults_stored now sid results' st) as Hst.
    pose proof (updateSessionResults_keyedById now sid results' st Hkey) as Hkey'.
    destruct (updateSessionResults now sid results' st) as [[s'|] st'];
      cbn [fst snd] in *.
    + destruct Hst as (Hstored & Hres & _).
      split; [apply (afterUpdate_inSync sid (Some s') h st st' Hsync); assumption|].
      split; [exact Hkey'|].
      split; [reflexivity|]. split; [exact Hres | reflexivity].
    + destruct Hst as (Hnone & ->).
      split; [apply (afterUpdate_inSync sid None h st st Hsync); reflexivity|].
      split; [exact Hkey|]. repeat split. exact Hnone.
  - intros now sid. rewrite finishSession_unfold. cbn zeta. cbn [fst snd].
    pose proof (completeSession_stored now sid st) as Hst.
    pose proof (completeSession_keyedById now sid st Hkey) as Hkey'.
    destruct (completeSession now sid st) as [[s'|] st']; cbn [fst snd] in *.
    + destruct Hst as (Hstored & Hstatus).
      split; [apply (afterUpdate_inSync sid (Some s') h st st' Hsync); assumption|].
      split; [exact Hkey'|].
      split; [reflexivity|]. split; [exact Hstatus | reflexivity].
    + destruct Hst as (Hnone & ->).
      split; [apply (afterUpdate_inSync sid None h st st Hsync); reflexivity|].
      split; [exact Hkey|]. repeat split. exact Hnone.
  - intros sid. unfold removeSession, deleteSession. simpl.
    split; [|split; [apply (deleteSession_keyedById sid st Hkey)|]].
    + split; [reflexivity|]. split; [|reflexivity]. simpl.
      intros s Hs. destruct (currentSession h) as [s0|] eqn:Hs0; [|discriminate].
      destruct (String.eqb_spec (id s0) sid) as [|Hne]; [discriminate|].
      injection Hs as <-. unfold getSession. simpl.
      rewrite lookup_delete_ne by congruence. apply (Hcur s0 eq_refl).
    + split; [reflexivity|]. split; [apply lookup_delete_eq|]. split; [reflexivity|].
      destruct (currentSession h) as [s0|]; simpl; [|constructor].
      destruct (String.eqb_spec (id s0) sid) as [|Hne]; simpl; repeat constructor.
      exact Hne.
Qed.

Lemma initialHook_inSync : inSync (loadSessions initialHook emptyStorage).2 emptyStorage.
Proof.
  split; [reflexivity|]. split; [|reflexivity]. intros s H. discriminate H.
Qed.

Lemma hook_shows_what_is_stored_witness :
  inSync
    (startNewSession 1700000000000 "2023-11-14T22:13:20.000Z" "First project"
       [item0; item1] sampleUiIntent (loadSessions initialHook emptyStorage).2
       emptyStorage).1.2
    oneSessionStorage.
Proof.
  destruct (hook_shows_what_is_stored (loadSessions initialHook emptyStorage).2
              emptyStorage emptyStorage_keyedById initialHook_inSync)
    as (_ & _ & Hstart & _).
  exact (proj1 (Hstart 1700000000000%Z "2023-11-14T22:13:20.000Z" "First project"
                  [item0; item1] sampleUiIntent)).
Defined.

(** What [saveResults] leaves for a stored session. *)
Lemma saveResults_stored (now sid : string) (results' : list LabelResult)
    (h : HookState) (st : Storage) (s : LabelingSession) :
  keyedById st → getSession sid st = Some s →
  ∃ s', (saveResults now sid results' h st).1.1 = Some s'
        ∧ currentSession (saveResults now sid results' h st).1.2 = Some s'
        ∧ getSession sid (saveResults now sid results' h st).2 = Some s'
        ∧ results s' = results' ∧ id s' = sid
        ∧ keyedById (saveResults now sid results' h st).2
        ∧ inSync (saveResults now sid results' h st).1.2
            (saveResults now sid results' h st).2.
Proof.
  intros Hkey Hs. rewrite saveResults_unfold. cbn [fst snd].
  pose proof (updateSessionResults_keyedById now sid results' st Hkey) as Hkey'.
  unfold updateSessionResults in *. rewrite Hs in *. simpl in *.
  eexists. split; [reflexivity|]. split; [reflexivity|].
  pose proof (Hkey sid s Hs) as Hid.
  split; [unfold getSession; simpl; rewrite Hid; apply lookup_insert_eq|].
  split; [reflexivity|]. split; [exact Hid|]. split; [exact Hkey'|].
  split; [reflexivity|]. split; [|reflexivity].
  simpl. intros s' [= <-]. unfold getSession. simpl. apply lookup_insert_eq.
Qed.

Lemma relabel_relabelled (k l : string) (rs : list LabelResult) :
  relabelled k l (List.map (DataLabeler.relabel k l) rs)
  ∧ List.map itemId (List.map (DataLabeler.relabel k l) rs) = List.map itemId rs
  ∧ ∀ r, In r rs → itemId r ≠ k → In r (List.map (DataLabeler.relabel k l) rs).
Proof.
  split; [|split].
  - apply List.Forall_forall. intros r' Hr'.
    apply in_map_iff in Hr' as (r & <- & _). unfold DataLabeler.relabel.
    destruct (String.eqb_spec (itemId r) k) as [Heq | Hne]; simpl.
    + intros _. repeat split.
    + intros Hk. contradiction.
  - rewrite map_map. apply map_ext. intros r. unfold DataLabeler.relabel.
    destruct (String.eqb (itemId r) k); reflexivity.
  - intros r Hr Hne. apply in_map_iff. exists r. split; [|exact Hr].
    unfold DataLabeler.relabel.
    destruct (String.eqb_spec (itemId r) k); [contradiction | reflexivity].
Qed.

(** X26.  An edit in the labeler overwrites the stored results with the
    results [labelData] returned, the edited item relabelled: every
    result of the item then carries the new label, whatever category it
    had.  The handler never updates the results it starts from, so the
    store keeps the last edit only: after a second edit the stored
    results of the other items, the first edit's item among them, are
    the results [labelData] returned.  The [results] state of the
    labeling hook, which [exportToCsv] reads, receives both edits as
    confirmations of [updateLabel], which change no label. *)
Theorem labeler_store_keeps_last_edit_only (labelResults : list LabelResult)
    (pid now1 now2 k1 l1 k2 l2 : string) (service : option BatchLabelingResult)
    (h : HookState) (st : Storage) (s : LabelingSession) :
  keyedById st → getSession pid st = Some s →
  labelResults ≠ [] → pid ≠ EmptyString →
  let w1 := DataLabeler.handleUpdateLabel labelResults (Some pid) now1 k1 l1
              service h st in
  let w2 := DataLabeler.handleUpdateLabel labelResults (Some pid) now2 k2 l2
              w1.1.1 w1.1.2 w1.2 in
  (∃ s1, getSession pid w1.2 = Some s1
         ∧ results s1 = List.map (DataLabeler.relabel k1 l1) labelResults
         ∧ relabelled k1 l1 (results s1))
  ∧ (∃ s2, getSession pid w2.2 = Some s2
           ∧ results s2 = List.map (DataLabeler.relabel k2 l2) labelResults
           ∧ relabelled k2 l2 (results s2)
           ∧ ∀ r, In r labelResults → itemId r ≠ k2 → In r (results s2))
  ∧ w2.1.1 = UseLabelingService.updateLabel
               (UseLabelingService.updateLabel service k1 l1) k2 l2.
Proof.
  intros Hkey Hs Hne Hpid.
  assert (Hguard : nonEmpty pid && Nat.ltb 0 (length labelResults) = true).
  { apply andb_true_iff. split; [apply nonEmpty_true, Hpid|].
    destruct labelResults; [contradiction | reflexivity]. }
  assert (Hstep : ∀ now k l sv h0 st0,
            DataLabeler.handleUpdateLabel labelResults (Some pid) now k l sv h0 st0
            = (UseLabelingService.updateLabel sv k l,
               (saveResults now pid (List.map (DataLabeler.relabel k l) labelResults)
                  h0 st0).1.2,
               (saveResults now pid (List.map (DataLabeler.relabel k l) labelResults)
                  h0 st0).2)).
  { intros now k l sv h0 st0. unfold DataLabeler.handleUpdateLabel. rewrite Hguard.
    destruct (saveResults now pid _ h0 st0) as [[r h'] st']. reflexivity. }
  cbn zeta. rewrite !Hstep. cbn [fst snd].
  destruct (saveResults_stored now1 pid (List.map (DataLabeler.relabel k1 l1) labelResults)
              h st s Hkey Hs) as (s1 & _ & _ & Hs1 & Hr1 & _ & Hkey1 & _).
  destruct (saveResults_stored now2 pid (List.map (DataLabeler.relabel k2 l2) labelResults)
              (saveResults now1 pid (List.map (DataLabeler.relabel k1 l1) labelResults)
                 h st).1.2
              _ s1 Hkey1 Hs1) as (s2 & _ & _ & Hs2 & Hr2 & _ & _ & _).
  split; [|split; [|reflexivity]].
  - exists s1. split; [exact Hs1|]. split; [exact Hr1|].
    rewrite Hr1. apply relabel_relabelled.
  - exists s2. split; [exact Hs2|]. split; [exact Hr2|]. rewrite Hr2.
    split; apply relabel_relabelled.
Qed.

Lemma labeler_store_keeps_last_edit_only_witness :
  ∃ s2, getSession sampleSessionId
          (DataLabeler.handleUpdateLabel [plainResult; urgencyPlaceholder]
             (Some sampleSessionId) "2023-11-15T09:00:00.000Z" "item-1" "Urgency: Low"
             (DataLabeler.handleUpdateLabel [plainResult; urgencyPlaceholder]
                (Some sampleSessionId) "2023-11-15T08:30:00.000Z" "item-0" "Urgency: Low"
                None initialHook oneSessionStorage).1.1
             (DataLabeler.handleUpdateLabel [plainResult; urgencyPlaceholder]
                (Some sampleSessionId) "2023-11-15T08:30:00.000Z" "item-0" "Urgency: Low"
                None initialHook oneSessionStorage).1.2
             (DataLabeler.handleUpdateLabel [plainResult; urgencyPlaceholder]
                (Some sampleSessionId) "2023-11-15T08:30:00.000Z" "item-0" "Urgency: Low"
                None initialHook oneSessionStorage).2).2
        = Some s2
        ∧ results s2 = [plainResult; urgencyPlaceholder].
Proof.
  destruct (labeler_store_keeps_last_edit_only [plainResult; urgencyPlaceholder]
              sampleSessionId "2023-11-15T08:30:00.000Z" "2023-11-15T09:00:00.000Z"
              "item-0" "Urgency: Low" "item-1" "Urgency: Low" None initialHook
              oneSessionStorage
              (createSession 1700000000000 "2023-11-14T22:13:20.000Z" "First project"
                 [item0; item1] sampleUiIntent emptyStorage).1)
    as (_ & (s2 & Hs2 & Hr2 & _) & _).
  - apply createSession_keyedById, emptyStorage_keyedById.
  - unfold getSession, oneSessionStorage. simpl. apply lookup_insert_eq.
  - discriminate.
  - discriminate.
  - exists s2. split; [exact Hs2 | exact Hr2].
Defined.

(** X27.  Edits in the project viewer accumulate.  The viewer edits the
    results of the current session of the hook, which [saveResults]
    replaces by the session it stored: after two edits the stored
    results are the loaded ones with both edits applied, in order, and
    the hook still shows what is stored. *)
Theorem viewer_edits_accumulate (now1 now2 k1 l1 k2 l2 : string)
    (h : HookState) (st : Storage) (s : LabelingSession) :
  keyedById st → inSync h st → currentSession h = Some s →
  let w1 := ProjectViewer.handleUpdateLabel now1 k1 l1 h st in
  let w2 := ProjectViewer.handleUpdateLabel now2 k2 l2 w1.1 w1.2 in
  (∃ s1, currentSession w1.1 = Some s1 ∧ getSession (id s) w1.2 = Some s1
         ∧ results s1 = List.map (DataLabeler.relabel k1 l1) (results s)
         ∧ relabelled k1 l1 (results s1))
  ∧ (∃ s2, currentSession w2.1 = Some s2 ∧ getSession (id s) w2.2 = Some s2
           ∧ results s2
             = List.map (DataLabeler.relabel k2 l2)
                 (List.map (DataLabeler.relabel k1 l1) (results s)))
  ∧ inSync w2.1 w2.2 ∧ keyedById w2.2.
Proof.
  intros Hkey (Hlist & Hcur & Hload) Hs.
  assert (Hstep : ∀ now k l h0 st0 s0,
            currentSession h0 = Some s0 →
            ProjectViewer.handleUpdateLabel now k l h0 st0
            = ((saveResults now (id s0)
                  (List.map (DataLabeler.relabel k l) (results s0)) h0 st0).1.2,
               (saveResults now (id s0)
                  (List.map (DataLabeler.relabel k l) (results s0)) h0 st0).2)).
  { intros now k l h0 st0 s0 H0. unfold ProjectViewer.handleUpdateLabel. rewrite H0.
    destruct (saveResults now (id s0) _ h0 st0) as [[r h'] st']. reflexivity. }
  cbn zeta. rewrite (Hstep now1 k1 l1 h st s Hs). cbn [fst snd].
  destruct (saveResults_stored now1 (id s)
              (List.map (DataLabeler.relabel k1 l1) (results s)) h st s Hkey
              (Hcur s Hs))
    as (s1 & _ & Hc1 & Hs1 & Hr1 & Hid1 & Hkey1 & _).
  rewrite (Hstep now2 k2 l2 _ _ s1 Hc1). cbn [fst snd]. rewrite Hid1, Hr1.
  destruct (saveResults_stored now2 (id s)
              (List.map (DataLabeler.relabel k2 l2)
                 (List.map (DataLabeler.relabel k1 l1) (results s)))
              (saveResults now1 (id s)
                 (List.map (DataLabeler.relabel k1 l1) (results s)) h st).1.2
              _ s1 Hkey1 Hs1)
    as (s2 & _ & Hc2 & Hs2 & Hr2 & _ & Hkey2 & Hsync2).
  split; [|split; [|split; assumption]].
  - exists s1. split; [exact Hc1|]. split; [exact Hs1|]. split; [exact Hr1|].
    rewrite Hr1. apply relabel_relabelled.
  - exists s2. split; [exact Hc2|]. split; [exact Hs2 | exact Hr2].
Qed.

Lemma viewerStore_keyedById : keyedById viewerStore.
Proof.
  apply updateSessionResults_keyedById, createSession_keyedById, emptyStorage_keyedById.
Qed.

Lemma viewerHook_inSync : inSync viewerHook viewerStore.
Proof.
  split; [reflexivity|]. split; [|reflexivity].
  unfold viewerHook, loadSession. cbn [snd currentSession].
  intros s Hs. rewrite (viewerStore_keyedById _ _ Hs). exact Hs.
Qed.

Lemma viewer_edits_accumulate_witness :
  ∃ s s2,
    currentSession viewerHook = Some s
    ∧ results s = [plainResult; urgencyPlaceholder]
    ∧ currentSession
        (ProjectViewer.handleUpdateLabel "2023-11-15T09:00:00.000Z" "item-0"
           "Urgency: Low"
           (ProjectViewer.handleUpdateLabel "2023-11-15T08:30:00.000Z" "item-0"
              "Issue Type: Feature" viewerHook viewerStore).1
           (ProjectViewer.handleUpdateLabel "2023-11-15T08:30:00.000Z" "item-0"
              "Issue Type: Feature" viewerHook viewerStore).2).1
      = Some s2
    ∧ results s2
      = List.map (DataLabeler.relabel "item-0" "Urgency: Low")
          (List.map (DataLabeler.relabel "item-0" "Issue Type: Feature") (results s)).
Proof.
  assert (Hcur : ∃ s, currentSession viewerHook = Some s
                      ∧ results s = [plainResult; urgencyPlaceholder]).
  { vm_compute. eexists. split; reflexivity. }
  destruct Hcur as (s & Hs & Hrs).
  destruct (viewer_edits_accumulate "2023-11-15T08:30:00.000Z"
              "2023-11-15T09:00:00.000Z" "item-0" "Issue Type: Feature" "item-0"
              "Urgency: Low" viewerHook viewerStore s viewerStore_keyedById
              viewerHook_inSync Hs) as (_ & (s2 & Hc2 & _ & Hr2) & _).
  exists s, s2. repeat split; assumption.
Defined.

End Hook.

(** ** Review: the cards and the counts *)

Section Review_cards.
Import DataReview.

Lemma cardsOf_results (entry : string * list LabelResult) :
  List.map card_result (cardsOf entry) = entry.2.
Proof.
  destruct entry as [k g]. unfold cardsOf. simpl.
  destruct (Nat.eqb (length g) 1); rewrite map_map; simpl; apply map_id.
Qed.

Lemma cards_results (E : list (string * list LabelResult)) :
  List.map card_result (flat_map cardsOf E) = flat_map snd E.
Proof.
  induction E as [|entry E IH]; [reflexivity|]. simpl.
  rewrite map_app, cardsOf_results, IH. reflexivity.
Qed.

Lemma filter_Permutation_list {A : Type} (p : A → bool) (l l' : list A) :
  l ≡ₚ l' → List.filter p l ≡ₚ List.filter p l'.
Proof.
  induction 1 as [| x l l' _ IH | x y l | l l' l'' _ IH1 _ IH2]; simpl.
  - reflexivity.
  - destruct (p x); [constructor|]; exact IH.
  - destruct (p x), (p y); try reflexivity. constructor.
  - etransitivity; eassumption.
Qed.

Lemma filter_map_commute {A B : Type} (p : B → bool) (f : A → B) (l : list A) :
  List.map f (List.filter (fun a => p (f a)) l) = List.filter p (List.map f l).
Proof.
  induction l as [|a l IH]; [reflexivity|]. simpl.
  destruct (p (f a)); simpl; rewrite IH; reflexivity.
Qed.

Lemma review_partition (rs : list LabelResult) :
  reviewedCount rs + needsReviewCount rs = length rs.
Proof.
  unfold reviewedCount, needsReviewCount.
  induction rs as [|r rs IH]; [reflexivity|]. simpl.
  destruct (needsReview r); simpl; lia.
Qed.

(** X28.  The review shows every result once.  The cards can be built
    exactly when no result is filed under a name that objects inherit.
    Their results are then the results, each once; with a blank search
    the tab of all items shows all the cards and the review tab shows
    the results that need review, as many as the counter of the tab
    says.  The counters Reviewed and Needs Review add up to the
    total. *)
Theorem review_shows_every_result (rs : list LabelResult) :
  ((∃ cards, flattenedResults rs = Return cards)
   ↔ Forall (fun r => inherited_key (itemId r) = false) rs)
  ∧ (∀ cards, flattenedResults rs = Return cards →
       List.map card_result cards ≡ₚ rs
       ∧ ∀ searchTerm dataItems, blank searchTerm = true →
           filteredResults all searchTerm dataItems rs = Return cards
           ∧ ∃ shownCards,
               filteredResults review searchTerm dataItems rs = Return shownCards
               ∧ List.map card_result shownCards ≡ₚ List.filter needsReview rs
               ∧ length shownCards = needsReviewCount rs)
  ∧ reviewedCount rs + needsReviewCount rs = length rs.
Proof.
  split; [|split; [|apply review_partition]].
  - unfold flattenedResults. split.
    + intros [cards Hcards].
      destruct (UseLabelingService.groupByItem rs []) as [gs|e] eqn:Hg; [|discriminate].
      apply groupByItem_spec in Hg as [Hall _]. exact Hall.
    + intros Hall.
      rewrite (proj2 (groupByItem_spec rs (groupsOf rs)))
        by (split; [exact Hall | reflexivity]).
      simpl. eauto.
  - intros cards Hcards.
    assert (Hperm : List.map card_result cards ≡ₚ rs).
    { unfold flattenedResults in Hcards.
      destruct (UseLabelingService.groupByItem rs []) as [gs|e] eqn:Hg; [|discriminate].
      apply groupByItem_spec in Hg as [_ ->]. simpl in Hcards. injection Hcards as <-.
      rewrite cards_results, (entries_Permutation (groupsOf rs)).
      apply groupsOf_Permutation. }
    split; [exact Hperm|].
    intros searchTerm dataItems Hblank.
    assert (Hsearch : nonEmpty (trim searchTerm) = false)
      by (rewrite nonEmpty_trim, Hblank; reflexivity).
    unfold filteredResults. rewrite Hcards. simpl. split.
    + f_equal. apply filter_all. apply Forall_forall. intros c _.
      unfold shown. rewrite Hsearch. reflexivity.
    + eexists. split; [reflexivity|].
      assert (Hshown : List.filter (shown review searchTerm dataItems) cards
                       = List.filter (fun c => needsReview (card_result c)) cards).
      { apply filter_ext. intros c. unfold shown. rewrite Hsearch.
        apply andb_true_r. }
      rewrite Hshown.
      assert (Hres : List.map card_result
                       (List.filter (fun c => needsReview (card_result c)) cards)
                     ≡ₚ List.filter needsReview rs).
      { rewrite (filter_map_commute needsReview card_result cards).
        apply filter_Permutation_list, Hperm. }
      split; [exact Hres|].
      unfold needsReviewCount. rewrite <- (Permutation_length Hres), length_map.
      reflexivity.
Qed.

End Review_cards.

(** ** Session store: the ids of the list *)

Section StoreIds.
Import DataStorage.

Lemma NoDup_fmap_filter {A B : Type} (f : A → B) (p : A → bool) (l : list A) :
  NoDup (f <$> l) → NoDup (f <$> List.filter p l).
Proof.
  induction l as [|a l IH]; simpl; [intros H; exact H|].
  intros Hnd. apply NoDup_cons in Hnd as [Ha Hl].
  destruct (p a); simpl; [|apply IH, Hl].
  apply NoDup_cons. split; [|apply IH, Hl].
  intros Hin. apply Ha.
  apply list_elem_of_fmap in Hin as (x & -> & Hx).
  apply list_elem_of_fmap. exists x. split; [reflexivity|].
  apply list_elem_of_In. apply list_elem_of_In, filter_In in Hx. apply Hx.
Qed.

Lemma session_id_inj (n m : Z) :
  "session-" +:+ number_to_string n = "session-" +:+ number_to_string m → n = m.
Proof.
  intros H.
  change (String "s" (String "e" (String "s" (String "s" (String "i" (String "o"
            (String "n" (String "-" (number_to_string n))))))))
          = String "s" (String "e" (String "s" (String "s" (String "i" (String "o"
            (String "n" (String "-" (number_to_string m))))))))) in H.
  injection H as H. apply number_to_string_inj, H.
Qed.

(** X30.  The ids of the sessions list.  Sessions created at different
    times have different ids.  On a store whose list names exactly the
    ids that have a record, each id once, [updateSessionResults],
    [completeSession] and [deleteSession] keep the ids of the list
    distinct, and so does [createSession] at a time whose id has no
    record; a [createSession] at the time of a stored session leaves two
    entries with its id in the list. *)
Theorem session_ids_stay_distinct (st : Storage) :
  consistent st → NoDup (meta_id <$> getSessions st) →
  (∀ n m, n ≠ m →
     "session-" +:+ number_to_string n ≠ "session-" +:+ number_to_string m)
  ∧ (∀ nowMs now name' data' intent',
       let created := createSession nowMs now name' data' intent' st in
       (getSession (id created.1) st = None →
        NoDup (meta_id <$> getSessions created.2))
       ∧ (is_Some (getSession (id created.1) st) →
          ∃ i j, i < j
                 ∧ (meta_id <$> getSessions created.2) !! i = Some (id created.1)
                 ∧ (meta_id <$> getSessions created.2) !! j = Some (id created.1)))
  ∧ (∀ now sid results',
       NoDup (meta_id <$> getSessions (updateSessionResults now sid results' st).2))
  ∧ (∀ now sid, NoDup (meta_id <$> getSessions (completeSession now sid st).2))
  ∧ (∀ sid, NoDup (meta_id <$> getSessions (deleteSession sid st).2)).
Proof.
  intros Hcons Hnd.
  split; [intros n m Hne Heq; apply Hne, session_id_inj, Heq|].
  split; [|split; [|split]].
  - intros nowMs now name' data' intent'. cbn zeta.
    unfold createSession, getSession, getSessions. simpl. split.
    + intros Hnone. rewrite fmap_app. simpl.
      apply NoDup_app. split; [exact Hnd|]. split; [|apply NoDup_singleton].
      intros k Hk Hk'. apply list_elem_of_singleton in Hk'. subst k.
      apply Hcons in Hk. rewrite Hnone in Hk. destruct Hk as [? Hk]. discriminate Hk.
    + intros Hsome. apply Hcons in Hsome.
      apply list_elem_of_lookup in Hsome as [i Hi].
      exists i, (length (meta_id <$> sessionsList st)).
      split; [apply lookup_lt_Some in Hi; exact Hi|].
      rewrite fmap_app. split.
      * rewrite lookup_app_l by (apply lookup_lt_Some in Hi; exact Hi). exact Hi.
      * rewrite lookup_app_r by lia. rewrite Nat.sub_diag. reflexivity.
  - intros now sid results'. unfold updateSessionResults, getSession.
    destruct (sessionRecords st !! sid) as [s|]; [|exact Hnd].
    simpl. rewrite (ids_of_updated_list sid) by reflexivity. exact Hnd.
  - intros now sid. unfold completeSession, getSession.
    destruct (sessionRecords st !! sid) as [s|]; [|exact Hnd].
    simpl. rewrite (ids_of_updated_list sid) by reflexivity. exact Hnd.
  - intros sid. unfold deleteSession. simpl. apply NoDup_fmap_filter, Hnd.
Qed.

Lemma session_ids_stay_distinct_witness :
  NoDup (meta_id <$> getSessions oneSessionStorage).
Proof.
  destruct (session_ids_stay_distinct emptyStorage emptyStorage_consistent)
    as (_ & Hcreate & _); [constructor|].
  exact (proj1 (Hcreate 1700000000000%Z "2023-11-14T22:13:20.000Z" "First project"
                  [item0; item1] sampleUiIntent) eq_refl).
Defined.

End StoreIds.
